(** * Horizon client: record decoding and the resumable event stream

    A model of [clients/horizon/effect.go], [clients/horizon/operation.go]
    and of [Client.stream] from the client's main file.

    - [UnmarshalEffect] and [UnmarshalOperation] call [json.Unmarshal], which
      works by reflection on the struct type it is given.  Struct types are
      therefore data here ([GoType]: field names, JSON names, field types), a
      decoded struct is a [GoValue], and an interface value such as [Effect]
      is a pair of a dynamic type and a value, as in Go.
    - [Client.stream] talks to the network, to a context and to a handler.
      The network is a script of answers to the successive requests; the
      context and the handler are functions of what has happened so far; the
      run produces the log of what it did and how it ended. *)

From Stdlib Require Import List String Ascii ZArith Bool Lia.
Import ListNotations.
Local Open Scope string_scope.
Local Open Scope Z_scope.
Local Open Scope list_scope.
Set Warnings "-register-all".

(** ** JSON documents *)

(** What the scanner of [encoding/json] reads from a text.  Members of an
    object keep their order and their duplicates: the decoder visits them one
    by one.  A number keeps apart the literals Go can store in an integer
    field (no fraction, no exponent) from the others. *)
Inductive json : Type :=
| JNull
| JBool (b : bool)
| JInt (z : Z)
| JFloat (literal : string)
| JString (s : string)
| JArray (items : list json)
| JObject (members : list (string * json)).

(** ** Go types and values, as reflection sees them *)

(** [TTime parse] is [time.Time], whose [UnmarshalJSON] takes a string that
    [time.Parse] accepts in the RFC 3339 layout: [parse] says which do. *)

Inductive GoType : Type :=
| TString
| TBool
| TInt (bits : Z)
| TTime (parse : string -> bool)
| TPtr (elem : GoType)
| TSlice (elem : GoType)
| TStruct (fields : list (string * string * GoType)).

(** A struct field: its Go name, the name in its [json] tag, its type.  The
    fields of an embedded struct are listed in place, as [encoding/json]
    promotes them. *)
Definition Field : Type := (string * string * GoType)%type.
Definition field (name key : string) (t : GoType) : Field := (name, key, t).
Definition field_name (f : Field) : string := fst (fst f).
Definition field_key (f : Field) : string := snd (fst f).
Definition field_type (f : Field) : GoType := snd f.

Inductive GoValue : Type :=
| VString (s : string)
| VBool (b : bool)
| VInt (z : Z)
| VTime (rfc3339 : option string)
| VNil
| VPtr (v : GoValue)
| VSlice (vs : list GoValue)
| VStruct (fs : list (string * GoValue)).

(** The zero value of a type. *)
Fixpoint zero (t : GoType) : GoValue :=
  match t with
  | TString => VString EmptyString
  | TBool => VBool false
  | TInt _ => VInt 0
  | TTime _ => VTime None
  | TPtr _ => VNil
  | TSlice _ => VNil
  | TStruct fs =>
      VStruct ((fix zeros (fs : list (string * string * GoType)) :=
                  match fs with
                  | [] => []
                  | (n, _, ft) :: rest => (n, zero ft) :: zeros rest
                  end) fs)
  end.

(** Reading and writing a field of a struct value, by Go name. *)
Fixpoint get (fs : list (string * GoValue)) (name : string) : option GoValue :=
  match fs with
  | [] => None
  | (n, v) :: rest => if String.eqb n name then Some v else get rest name
  end.

Fixpoint set (fs : list (string * GoValue)) (name : string) (v : GoValue)
  : list (string * GoValue) :=
  match fs with
  | [] => []
  | (n, old) :: rest =>
      if String.eqb n name then (n, v) :: rest else (n, old) :: set rest name v
  end.

Definition struct_fields (v : GoValue) : list (string * GoValue) :=
  match v with VStruct fs => fs | _ => [] end.

Definition string_field (v : GoValue) (name : string) : string :=
  match get (struct_fields v) name with
  | Some (VString s) => s
  | _ => EmptyString
  end.

Definition int_field (v : GoValue) (name : string) : Z :=
  match get (struct_fields v) name with
  | Some (VInt z) => z
  | _ => 0
  end.

(** ** Errors *)

(** [errors.New], [errors.Errorf] and [errors.Wrap] of
    [github.com/stellar/go/support/errors], the errors of the standard
    library that the code meets, and [foreign] for an error made elsewhere
    (the transport, the frame parser, the caller's handler). *)
Inductive error : Type :=
| errors_New (msg : string)
| errors_Errorf (format : string) (arg : GoValue)
| withMessage (cause : error) (msg : string)
| io_ErrUnexpectedEOF
| json_SyntaxError
| json_UnmarshalTypeError (value : string) (t : GoType)
| time_ParseError (value : string)
| foreign (id : string).

(** [errors.Wrap(err, msg)] is nil when [err] is nil. *)
Definition errors_Wrap (err : option error) (msg : string) : option error :=
  match err with
  | None => None
  | Some e => Some (withMessage e msg)
  end.

(** [err == io.ErrUnexpectedEOF]. *)
Definition is_ErrUnexpectedEOF (err : option error) : bool :=
  match err with
  | Some io_ErrUnexpectedEOF => true
  | _ => false
  end.

(** ** Decoding a document into a Go value *)

(** [encoding/json] stores a member in the field whose JSON name is the
    member's key or, when there is none, in the first field whose name equals
    the key up to case.  For the ASCII names of the structs below that is:
    up to the case of ASCII letters, with the Kelvin sign (E2 84 AA) read as
    [k] and the long s (C5 BF) read as [s]. *)
Definition lower (c : ascii) : ascii :=
  let n := nat_of_ascii c in
  if (Nat.leb 65 n && Nat.leb n 90)%bool then ascii_of_nat (n + 32) else c.

Fixpoint foldName (s : string) : string :=
  match s with
  | EmptyString => EmptyString
  | String c rest =>
      match nat_of_ascii c, rest with
      | 226%nat, String c2 (String c3 rest') =>
          if (Nat.eqb (nat_of_ascii c2) 132 && Nat.eqb (nat_of_ascii c3) 170)%bool
          then String "k"%char (foldName rest')
          else String c (foldName rest)
      | 197%nat, String c2 rest' =>
          if Nat.eqb (nat_of_ascii c2) 191
          then String "s"%char (foldName rest')
          else String c (foldName rest)
      | _, _ => String (lower c) (foldName rest)
      end
  end.

Definition find_field (fs : list Field) (key : string) : option Field :=
  match find (fun f => String.eqb (field_key f) key) fs with
  | Some f => Some f
  | None => find (fun f => String.eqb (foldName (field_key f)) (foldName key)) fs
  end.

(** The decoder keeps the first error it meets and goes on. *)
Definition first_error (a b : option error) : option error :=
  match a with
  | Some _ => a
  | None => b
  end.

Definition json_kind (j : json) : string :=
  match j with
  | JNull => "null"
  | JBool _ => "bool"
  | JInt _ => "number"
  | JFloat _ => "number"
  | JString _ => "string"
  | JArray _ => "array"
  | JObject _ => "object"
  end.

Definition mismatch (j : json) (t : GoType) (old : GoValue)
  : GoValue * option error :=
  (old, Some (json_UnmarshalTypeError (json_kind j) t)).

(** [z] fits a signed integer of [bits] bits. *)
Definition fits (bits z : Z) : bool :=
  (- 2 ^ (bits - 1) <=? z) && (z <? 2 ^ (bits - 1)).

Section Members.

Variable dec : json -> GoType -> GoValue -> GoValue * option error.

(** The members of an object, in the order of the text, stored in the
    struct fields [cur]; members that match no field are skipped. *)
Fixpoint object_members (fs : list Field) (ms : list (string * json))
    (cur : list (string * GoValue)) (err : option error)
  : list (string * GoValue) * option error :=
  match ms with
  | [] => (cur, err)
  | (k, m) :: rest =>
      match find_field fs k with
      | None => object_members fs rest cur err
      | Some f =>
          let old := match get cur (field_name f) with
                     | Some v => v
                     | None => zero (field_type f)
                     end in
          let (v, e) := dec m (field_type f) old in
          object_members fs rest (set cur (field_name f) v) (first_error err e)
      end
  end.

(** The items of an array, each decoded into a new element. *)
Fixpoint array_items (elem : GoType) (items : list json)
  : list GoValue * option error :=
  match items with
  | [] => ([], None)
  | i :: rest =>
      let (v, e1) := dec i elem (zero elem) in
      let (vs, e2) := array_items elem rest in
      (v :: vs, first_error e1 e2)
  end.

End Members.

Section Unmarshal.

(** A JSON value stored in a Go value of type [t] that holds [old]:
    [null] clears pointers and slices and leaves anything else as it is; a
    value of the wrong kind leaves the target as it is and is an error. *)
Fixpoint decode (j : json) : GoType -> GoValue -> GoValue * option error :=
  fix into (t : GoType) (old : GoValue) {struct t} : GoValue * option error :=
    match t, j with
    | TPtr _, JNull => (VNil, None)
    | TPtr e, _ =>
        let (v, err) := into e (match old with VPtr p => p | _ => zero e end) in
        (VPtr v, err)
    | TSlice _, JNull => (VNil, None)
    | _, JNull => (old, None)
    | TString, JString s => (VString s, None)
    | TBool, JBool b => (VBool b, None)
    | TInt bits, JInt z => if fits bits z then (VInt z, None) else mismatch j t old
    | TTime parse, JString s =>
        if parse s then (VTime (Some s), None)
        else (old, Some (time_ParseError s))
    | TTime _, _ => (old, Some (time_ParseError (json_kind j)))
    | TSlice e, JArray items =>
        let (vs, err) := array_items decode e items in
        (VSlice vs, err)
    | TStruct fs, JObject ms =>
        let cur := match old with
                   | VStruct c => c
                   | _ => struct_fields (zero t)
                   end in
        let (cur', err) := object_members decode fs ms cur None in
        (VStruct cur', err)
    | _, _ => mismatch j t old
    end.

(** The scanner of [encoding/json]: the document a text holds, if it is a
    JSON text. *)
Variable json_syntax : string -> option json.

(** An empty input is no JSON text ("unexpected end of JSON input"). *)
Definition json_scan (data : string) : option json :=
  match data with
  | EmptyString => None
  | _ => json_syntax data
  end.

(** [json.Unmarshal(data, &v)] for a [v] of type [t] that holds its zero
    value: what [v] holds afterwards, and the error returned. *)
Definition json_Unmarshal (data : string) (t : GoType) : GoValue * option error :=
  match json_scan data with
  | None => (zero t, Some json_SyntaxError)
  | Some doc => decode doc t (zero t)
  end.

End Unmarshal.

(** ** What a document says, read without the decoder *)

(** A member's key names the field with this JSON name. *)
Definition key_matches (member_key name : string) : bool :=
  (String.eqb member_key name
   || String.eqb (foldName member_key) (foldName name))%bool.

(** The string held by the last member named [name] that holds a string;
    [acc] if there is none. *)
Fixpoint last_string (name : string) (ms : list (string * json)) (acc : string)
  : string :=
  match ms with
  | [] => acc
  | (k, JString s) :: rest =>
      if key_matches k name then last_string name rest s
      else last_string name rest acc
  | _ :: rest => last_string name rest acc
  end.

(** The string a document stores under [name]; empty when it stores none. *)
Definition member_string (name : string) (doc : json) : string :=
  match doc with
  | JObject ms => last_string name ms EmptyString
  | _ => EmptyString
  end.

Definition is_TString (t : GoType) : bool :=
  match t with
  | TString => true
  | _ => false
  end.

(** The struct fields [fs] have a string field [name] with the JSON name
    [key], no other field with that Go name or that JSON name, and JSON names
    that case folding leaves as they are. *)
Definition string_field_ok (name key : string) (fs : list Field) : bool :=
  (String.eqb (foldName key) key
   && existsb (fun f => String.eqb (field_key f) key) fs
   && forallb (fun f => String.eqb (foldName (field_key f)) (field_key f)) fs
   && forallb (fun f => Bool.eqb (String.eqb (field_name f) name)
                                 (String.eqb (field_key f) key)) fs
   && forallb (fun f => if String.eqb (field_key f) key
                        then is_TString (field_type f) else true) fs)%bool.


(** ** [switch] *)

(** A Go [switch tag] over constant cases: the first case equal to the tag,
    [None] for [default]. *)
Fixpoint switch {K A : Type} (eqb : K -> K -> bool) (tag : K)
    (cases : list (K * A)) : option A :=
  match cases with
  | [] => None
  | (c, a) :: rest => if eqb tag c then Some a else switch eqb tag rest
  end.

(** ** effect.go *)

(** The struct types declared in effect.go. *)
Inductive EffectStruct : Type :=
| AccountCreatedEffect
| AccountRemovedEffect
| AccountCreditedEffect
| AccountDebitedEffect
| AccountThresholdsUpdatedEffect
| AccountHomeDomainUpdatedEffect
| AccountFlagsUpdatedEffect
| AccountInflationDestinationUpdatedEffect
| SignerCreatedEffect
| SignerRemovedEffect
| SignerUpdatedEffect
| TrustlineCreatedEffect
| TrustlineRemovedEffect
| TrustlineUpdatedEffect
| TrustlineAuthorizedEffect
| TrustlineDeauthorizedEffect
| OfferCreatedEffect
| OfferRemovedEffect
| OfferUpdatedEffect
| TradeEffect
| DataCreatedEffect
| DataRemovedEffect
| DataUpdatedEffect.

(** An [Effect] interface value: a pointer to a struct of one of these types. *)
Inductive Effect : Type :=
| EffectPtr (T : EffectStruct) (v : GoValue).

Definition effect_struct (e : Effect) : EffectStruct :=
  match e with EffectPtr T _ => T end.

Definition effect_value (e : Effect) : GoValue :=
  match e with EffectPtr _ v => v end.

(** [func (e *BaseEffect) EffectType() string { return e.Type }], promoted to
    every struct that embeds [BaseEffect]. *)
Definition EffectType (e : Effect) : string :=
  string_field (effect_value e) "Type".

(** The cases of the [switch effectType.Type] of [UnmarshalEffect], in the
    order of the source, each with the struct it allocates. *)
Definition UnmarshalEffect_cases : list (string * EffectStruct) :=
  [ ("account_created", AccountCreatedEffect);
    ("account_removed", AccountRemovedEffect);
    ("account_credited", AccountCreditedEffect);
    ("account_debited", AccountDebitedEffect);
    ("account_thresholds_updated", AccountCreatedEffect);
    ("account_home_domain_updated", AccountHomeDomainUpdatedEffect);
    ("account_flags_updated", AccountFlagsUpdatedEffect);
    ("account_inflation_destination_updated", AccountInflationDestinationUpdatedEffect);
    ("signer_created", SignerCreatedEffect);
    ("signer_removed", SignerRemovedEffect);
    ("signer_updated", SignerUpdatedEffect);
    ("trustline_created", TrustlineCreatedEffect);
    ("trustline_removed", TrustlineRemovedEffect);
    ("trustline_updated", TrustlineUpdatedEffect);
    ("trustline_authorized", TrustlineAuthorizedEffect);
    ("trustline_deauthorized", TrustlineDeauthorizedEffect);
    ("offer_created", OfferCreatedEffect);
    ("offer_removed", OfferRemovedEffect);
    ("offer_updated", OfferUpdatedEffect);
    ("trade", TradeEffect);
    ("data_created", DataCreatedEffect);
    ("data_removed", DataRemovedEffect);
    ("data_updated", DataUpdatedEffect) ].

(** The struct whose name is the discriminator in camel case followed by
    [Effect]: the variant the specification pairs with each discriminator. *)
Definition effect_variant_named : list (string * EffectStruct) :=
  [ ("account_created", AccountCreatedEffect);
    ("account_removed", AccountRemovedEffect);
    ("account_credited", AccountCreditedEffect);
    ("account_debited", AccountDebitedEffect);
    ("account_thresholds_updated", AccountThresholdsUpdatedEffect);
    ("account_home_domain_updated", AccountHomeDomainUpdatedEffect);
    ("account_flags_updated", AccountFlagsUpdatedEffect);
    ("account_inflation_destination_updated", AccountInflationDestinationUpdatedEffect);
    ("signer_created", SignerCreatedEffect);
    ("signer_removed", SignerRemovedEffect);
    ("signer_updated", SignerUpdatedEffect);
    ("trustline_created", TrustlineCreatedEffect);
    ("trustline_removed", TrustlineRemovedEffect);
    ("trustline_updated", TrustlineUpdatedEffect);
    ("trustline_authorized", TrustlineAuthorizedEffect);
    ("trustline_deauthorized", TrustlineDeauthorizedEffect);
    ("offer_created", OfferCreatedEffect);
    ("offer_removed", OfferRemovedEffect);
    ("offer_updated", OfferUpdatedEffect);
    ("trade", TradeEffect);
    ("data_created", DataCreatedEffect);
    ("data_removed", DataRemovedEffect);
    ("data_updated", DataUpdatedEffect) ].

Definition int32 : GoType := TInt 32.
Definition int64 : GoType := TInt 64.
Definition int : GoType := TInt 64.

Section EffectGo.

(** [Link] is declared in another file of the package. *)
Variable Link : GoType.

Definition BaseEffect : list Field :=
  [ field "LinksEffect" "_links"
      (TStruct [ field "Operation" "operation" Link;
                 field "Succeeds" "succeeds" Link;
                 field "Precedes" "precedes" Link ]);
    field "ID" "id" TString;
    field "PT" "paging_token" TString;
    field "Account" "account" TString;
    field "Type" "type" TString;
    field "TypeI" "type_i" int32;
    field "OperationID" "operation_id" TString;
    field "Order" "order" int32 ].

Definition effect_fields (T : EffectStruct) : list Field :=
  match T with
  | AccountCreatedEffect =>
      BaseEffect ++ [ field "StartingBalance" "starting_balance" TString ]
  | AccountRemovedEffect => BaseEffect
  | AccountCreditedEffect | AccountDebitedEffect =>
      BaseEffect ++
      [ field "AssetType" "asset_type" TString;
        field "AssetCode" "asset_code" TString;
        field "AssetIssuer" "asset_issuer" TString;
        field "Amount" "amount" TString ]
  | AccountThresholdsUpdatedEffect =>
      BaseEffect ++
      [ field "LowThreshold" "low_threshold" int32;
        field "MedThreshold" "med_threshold" int32;
        field "HighThreshold" "high_threshold" int32 ]
  | AccountHomeDomainUpdatedEffect =>
      BaseEffect ++ [ field "HomeDomain" "home_domain" TString ]
  | AccountFlagsUpdatedEffect =>
      BaseEffect ++
      [ field "AuthRequired" "auth_required_flag" (TPtr TBool);
        field "AuthRevokable" "auth_revokable_flag" (TPtr TBool) ]
  | AccountInflationDestinationUpdatedEffect => BaseEffect
  | SignerCreatedEffect | SignerRemovedEffect | SignerUpdatedEffect =>
      BaseEffect ++
      [ field "Weight" "weight" int32;
        field "PublicKey" "public_key" TString;
        field "Key" "key" TString ]
  | TrustlineCreatedEffect | TrustlineRemovedEffect | TrustlineUpdatedEffect =>
      BaseEffect ++
      [ field "AssetType" "asset_type" TString;
        field "AssetCode" "asset_code" TString;
        field "AssetIssuer" "asset_issuer" TString;
        field "Limit" "limit" TString ]
  | TrustlineAuthorizedEffect | TrustlineDeauthorizedEffect =>
      BaseEffect ++
      [ field "Trustor" "trustor" TString;
        field "AssetType" "asset_type" TString;
        field "AssetCode" "asset_code" TString ]
  | OfferCreatedEffect | OfferRemovedEffect | OfferUpdatedEffect => BaseEffect
  | TradeEffect =>
      BaseEffect ++
      [ field "Seller" "seller" TString;
        field "OfferID" "offer_id" int64;
        field "SoldAmount" "sold_amount" TString;
        field "SoldAssetType" "sold_asset_type" TString;
        field "SoldAssetCode" "sold_asset_code" TString;
        field "SoldAssetIssuer" "sold_asset_issuer" TString;
        field "BoughtAmount" "bought_amount" TString;
        field "BoughtAssetType" "bought_asset_type" TString;
        field "BoughtAssetCode" "bought_asset_code" TString;
        field "BoughtAssetIssuer" "bought_asset_issuer" TString ]
  | DataCreatedEffect | DataRemovedEffect | DataUpdatedEffect => BaseEffect
  end.

Variable json_syntax : string -> option json.

(** [UnmarshalEffect]: the [Effect] and the error it returns. *)
Definition UnmarshalEffect (data : string) : option Effect * option error :=
  let (effectType, err) :=
    json_Unmarshal json_syntax data
      (TStruct [ field "Type" "type" TString ]) in
  match err with
  | Some _ => (None, errors_Wrap err "error unmarshaling effect")
  | None =>
      match switch String.eqb (string_field effectType "Type")
                   UnmarshalEffect_cases with
      | Some T =>
          let (e, err) :=
            json_Unmarshal json_syntax data
              (TStruct (effect_fields T)) in
          (Some (EffectPtr T e), errors_Wrap err "error unmarshaling effect")
      | None =>
          (None,
           Some (errors_Errorf "unknown effect type %d"
                   (VString (string_field effectType "Type"))))
      end
  end.

End EffectGo.

(** ** operation.go *)

(** The struct types declared in operation.go. *)
Inductive OperationStruct : Type :=
| CreateAccountOperation
| PaymentOperation
| PathPaymentOperation
| ManageDataOperation
| CreatePassiveOfferOperation
| ManageOfferOperation
| SetOptionsOperation
| ChangeTrustOperation
| AllowTrustOperation
| AccountMergeOperation
| InflationOperation.

(** An [Operation] interface value: a pointer to a struct of one of these
    types. *)
Inductive Operation : Type :=
| OperationPtr (T : OperationStruct) (v : GoValue).

Definition operation_struct (o : Operation) : OperationStruct :=
  match o with OperationPtr T _ => T end.

Definition operation_value (o : Operation) : GoValue :=
  match o with OperationPtr _ v => v end.


(** The constants of [xdr.OperationType] that [UnmarshalOperation] names. *)
Record xdr_constants : Type := mk_xdr {
  OperationTypeCreateAccount : Z;
  OperationTypePayment : Z;
  OperationTypePathPayment : Z;
  OperationTypeManageOffer : Z;
  OperationTypeCreatePassiveOffer : Z;
  OperationTypeSetOptions : Z;
  OperationTypeChangeTrust : Z;
  OperationTypeAllowTrust : Z;
  OperationTypeAccountMerge : Z;
  OperationTypeInflation : Z;
  OperationTypeManageData : Z
}.

Section OperationGo.

(** [Link], [Asset] and [Price] are declared in another file of the package. *)
Variable Link : GoType.
Variable Asset : GoType.
Variable Price : GoType.

(** [time.Parse(time.RFC3339, s)] succeeds. *)
Variable time_Parse : string -> bool.

(** The constants of [xdr.OperationType], declared in package [xdr]. *)
Variable xdr : xdr_constants.

Definition BaseOperation : list Field :=
  [ field "Links" "_links"
      (TStruct [ field "Self" "self" Link;
                 field "Transaction" "transaction" Link;
                 field "Effects" "effects" Link;
                 field "Succeeds" "succeeds" Link;
                 field "Precedes" "precedes" Link ]);
    field "ID" "id" TString;
    field "PT" "paging_token" TString;
    field "SourceAccount" "source_account" TString;
    field "Type" "type" TString;
    field "TypeI" "type_i" int32;
    field "LedgerClosedAt" "created_at" (TTime time_Parse);
    field "TransactionHash" "transaction_hash" TString;
    field "Order" "order" int32 ].

Definition PaymentOperation_fields : list Field :=
  BaseOperation ++
  [ field "AssetType" "asset_type" TString;
    field "AssetCode" "asset_code" TString;
    field "AssetIssuer" "asset_issuer" TString;
    field "From" "from" TString;
    field "To" "to" TString;
    field "Amount" "amount" TString ].

Definition CreatePassiveOfferOperation_fields : list Field :=
  BaseOperation ++
  [ field "Amount" "amount" TString;
    field "Price" "price" TString;
    field "PriceR" "price_r" Price;
    field "BuyingAssetType" "buying_asset_type" TString;
    field "BuyingAssetCode" "buying_asset_code" TString;
    field "BuyingAssetIssuer" "buying_asset_issuer" TString;
    field "SellingAssetType" "selling_asset_type" TString;
    field "SellingAssetCode" "selling_asset_code" TString;
    field "SellingAssetIssuer" "selling_asset_issuer" TString ].

Definition operation_fields (T : OperationStruct) : list Field :=
  match T with
  | CreateAccountOperation =>
      BaseOperation ++
      [ field "StartingBalance" "starting_balance" TString;
        field "Funder" "funder" TString;
        field "Account" "account" TString ]
  | PaymentOperation => PaymentOperation_fields
  | PathPaymentOperation =>
      PaymentOperation_fields ++
      [ field "Path" "path" (TSlice Asset);
        field "SourceMax" "source_max" TString;
        field "SourceAssetType" "source_asset_type" TString;
        field "SourceAssetCode" "source_asset_code" TString;
        field "SourceAssetIssuer" "source_asset_issuer" TString ]
  | ManageDataOperation =>
      BaseOperation ++
      [ field "Name" "name" TString;
        field "Value" "value" TString ]
  | CreatePassiveOfferOperation => CreatePassiveOfferOperation_fields
  | ManageOfferOperation =>
      CreatePassiveOfferOperation_fields ++
      [ field "OfferID" "offer_id" int64 ]
  | SetOptionsOperation =>
      BaseOperation ++
      [ field "HomeDomain" "home_domain" TString;
        field "InflationDest" "inflation_dest" TString;
        field "MasterKeyWeight" "master_key_weight" (TPtr int);
        field "SignerKey" "signer_key" TString;
        field "SignerWeight" "signer_weight" (TPtr int);
        field "SetFlags" "set_flags" (TSlice int);
        field "SetFlagsS" "set_flags_s" (TSlice TString);
        field "ClearFlags" "clear_flags" (TSlice int);
        field "ClearFlagsS" "clear_flags_s" (TSlice TString);
        field "LowThreshold" "low_threshold" (TPtr int);
        field "MedThreshold" "med_threshold" (TPtr int);
        field "HighThreshold" "high_threshold" (TPtr int) ]
  | ChangeTrustOperation =>
      BaseOperation ++
      [ field "AssetType" "asset_type" TString;
        field "AssetCode" "asset_code" TString;
        field "AssetIssuer" "asset_issuer" TString;
        field "Limit" "limit" TString;
        field "Trustee" "trustee" TString;
        field "Trustor" "trustor" TString ]
  | AllowTrustOperation =>
      BaseOperation ++
      [ field "AssetType" "asset_type" TString;
        field "AssetCode" "asset_code" TString;
        field "AssetIssuer" "asset_issuer" TString;
        field "Trustee" "trustee" TString;
        field "Trustor" "trustor" TString;
        field "Authorize" "authorize" TBool ]
  | AccountMergeOperation =>
      BaseOperation ++
      [ field "Account" "account" TString;
        field "Into" "into" TString ]
  | InflationOperation => BaseOperation
  end.

(** The cases of the [switch xdr.OperationType(opType.TypeI)] of
    [UnmarshalOperation], in the order of the source. *)
Definition UnmarshalOperation_cases : list (Z * OperationStruct) :=
  [ (OperationTypeCreateAccount xdr, CreateAccountOperation);
    (OperationTypePayment xdr, PaymentOperation);
    (OperationTypePathPayment xdr, PathPaymentOperation);
    (OperationTypeManageOffer xdr, ManageOfferOperation);
    (OperationTypeCreatePassiveOffer xdr, CreatePassiveOfferOperation);
    (OperationTypeSetOptions xdr, SetOptionsOperation);
    (OperationTypeChangeTrust xdr, ChangeTrustOperation);
    (OperationTypeAllowTrust xdr, AllowTrustOperation);
    (OperationTypeAccountMerge xdr, AccountMergeOperation);
    (OperationTypeInflation xdr, InflationOperation);
    (OperationTypeManageData xdr, ManageDataOperation) ].

Variable json_syntax : string -> option json.

(** [UnmarshalOperation]: the [Operation] and the error it returns. *)
Definition UnmarshalOperation (data : string) : option Operation * option error :=
  let (opType, err) :=
    json_Unmarshal json_syntax data
      (TStruct [ field "TypeI" "type_i" int32 ]) in
  match err with
  | Some _ => (None, errors_Wrap err "error unmarshaling operation")
  | None =>
      match switch Z.eqb (int_field opType "TypeI")
                   UnmarshalOperation_cases with
      | Some T =>
          let (o, err) :=
            json_Unmarshal json_syntax data
              (TStruct (operation_fields T)) in
          (Some (OperationPtr T o), errors_Wrap err "error unmarshaling operation")
      | None =>
          (None,
           Some (errors_Errorf "unknown operation type %d"
                   (VInt (int_field opType "TypeI"))))
      end
  end.

End OperationGo.

(** ** net/url and net/http, as far as [stream] uses them *)

(** [url.QueryEscape]: letters, digits and [-_.~] are kept, a space becomes
    [+], any other byte becomes [%XX]. *)
Definition unreserved (c : ascii) : bool :=
  let n := nat_of_ascii c in
  ((Nat.leb 48 n && Nat.leb n 57) || (Nat.leb 65 n && Nat.leb n 90)
   || (Nat.leb 97 n && Nat.leb n 122)
   || Nat.eqb n 45 || Nat.eqb n 95 || Nat.eqb n 46 || Nat.eqb n 126)%bool.

Definition upperhex (n : nat) : ascii :=
  if Nat.ltb n 10 then ascii_of_nat (48 + n) else ascii_of_nat (55 + n).

Fixpoint QueryEscape (s : string) : string :=
  match s with
  | EmptyString => EmptyString
  | String c rest =>
      if unreserved c then String c (QueryEscape rest)
      else if Nat.eqb (nat_of_ascii c) 32 then String "+"%char (QueryEscape rest)
      else String "%"%char
             (String (upperhex (Nat.div (nat_of_ascii c) 16))
                (String (upperhex (Nat.modulo (nat_of_ascii c) 16))
                   (QueryEscape rest)))
  end.

(** [url.Values]: the keys with their values, kept in the order of the keys,
    which is the order in which [Encode] writes them. *)
Definition Values : Type := list (string * list string).

(** [func (v Values) Set(key, value string)]: the key now has this one value. *)
Fixpoint Values_Set (v : Values) (key value : string) : Values :=
  match v with
  | [] => [(key, [value])]
  | (k, vs) :: rest =>
      match String.compare key k with
      | Eq => (k, [value]) :: rest
      | Lt => (key, [value]) :: (k, vs) :: rest
      | Gt => (k, vs) :: Values_Set rest key value
      end
  end.

(** [func (v Values) Encode() string]. *)
Definition Values_Encode (v : Values) : string :=
  String.concat "&"
    (flat_map
       (fun kv => map (fun x =>
                         String.append (QueryEscape (fst kv))
                           (String.append "=" (QueryEscape x)))
                      (snd kv))
       v).

Record Request : Type := mkRequest {
  Method : string;
  URL : string;
  Header : list (string * string)
}.

(** [req.Header.Set(key, value)]. *)
Definition Header_Set (req : Request) (key value : string) : Request :=
  mkRequest (Method req) (URL req)
    ((key, value) ::
     filter (fun h => negb (String.eqb (fst h) key)) (Header req)).

Definition Header_Get (req : Request) (key : string) : option string :=
  match find (fun h => String.eqb (fst h) key) (Header req) with
  | Some h => Some (snd h)
  | None => None
  end.

(** ** The event stream *)

(** [sse.Event], of the library that reads server-sent events: [Data] is an
    [interface{}], told apart by the type switch of [stream]. *)
Inductive sse_Data : Type :=
| DataString (data : string)
| DataBytes (data : string)
| DataOther.

Record sse_Event : Type := mkEvent {
  Event : string;
  Data : sse_Data
}.

(** What [c.HTTP.Do] answers with its body read through
    [bufio.NewScanner(resp.Body)] split by [splitSSE]: the frames that
    [scanner.Scan] yields one after the other, and [scanner.Err()] once it
    has stopped. *)
Record Response : Type := mkResponse {
  frames : list string;
  scanner_Err : option error
}.

(** What a run does that can be seen from outside, in order. *)
Inductive step : Type :=
| Sent (req : Request)
| Polled (done : bool)
| Handled (data : string) (ret : option error).

(** How the frame loop ends: by a [return], or with the body read to its end
    and [objectBytes] holding the last object handed to the handler. *)
Inductive scan_exit : Type :=
| Return (err : option error)
| Exhausted (objectBytes : string).

(** How a run ends: [stream] returns, or it has sent a request that the
    script does not answer. *)
Inductive outcome : Type :=
| Returned (err : option error)
| Waiting.

Definition is_nil (err : option error) : bool :=
  match err with
  | None => true
  | Some _ => false
  end.

Section Stream.

(** [url.Parse], through which [http.NewRequest] rejects a target. *)
Variable url_Parse : string -> option error.

(** [parseEvent] is declared in another file of the package. *)
Variable parseEvent : string -> sse_Event + error.

Variable json_syntax : string -> option json.

(** [ctx.Done()] is closed, at the time the run has done what the log says. *)
Variable ctx_Done : list step -> bool.

Variable baseURL : string.

(** The caller's handler, called when the run has done what the log says. *)
Variable handler : list step -> string -> option error.

(** [http.NewRequest(method, target, nil)]. *)
Definition http_NewRequest (method target : string) : Request + error :=
  match url_Parse target with
  | Some err => inr err
  | None => inl (mkRequest method target [])
  end.

(** [for scanner.Scan() { ... }] over the frames of one body. *)
Fixpoint stream_scan (bodyFrames : list string) (objectBytes : string)
    (log : list step) : list step * scan_exit :=
  match bodyFrames with
  | [] => (log, Exhausted objectBytes)
  | bytes :: rest =>
      if ctx_Done log then (log ++ [Polled true], Return None)
      else
        let log := log ++ [Polled false] in
        if Nat.eqb (String.length bytes) 0 then stream_scan rest objectBytes log
        else
          match parseEvent bytes with
          | inr err => (log, Return (Some err))
          | inl ev =>
              if negb (String.eqb (Event ev) "message")
              then stream_scan rest objectBytes log
              else
                match Data ev with
                | DataString data | DataBytes data =>
                    let err := handler log data in
                    let log := log ++ [Handled data err] in
                    match err with
                    | Some _ => (log, Return err)
                    | None => stream_scan rest data log
                    end
                | DataOther =>
                    (log, Return (Some (errors_New "Invalid ev.Data type")))
                end
          end
  end.

(** The outer [for { ... }], one turn for each answer of the script. *)
Fixpoint stream_loop (script : list (Response + error)) (query : Values)
    (log : list step) : list step * outcome :=
  match http_NewRequest "GET"
          (String.append baseURL (String.append "?" (Values_Encode query))) with
  | inr err => (log, Returned (Some err))
  | inl req =>
      let req := Header_Set req "Accept" "text/event-stream" in
      let log := log ++ [Sent req] in
      match script with
      | [] => (log, Waiting)
      | inr err :: _ => (log, Returned (Some err))
      | inl resp :: rest =>
          match stream_scan (frames resp) EmptyString log with
          | (log, Return err) => (log, Returned err)
          | (log, Exhausted objectBytes) =>
              let err := scanner_Err resp in
              if (is_nil err || is_ErrUnexpectedEOF err)%bool then
                let (object, err) :=
                  json_Unmarshal json_syntax objectBytes
                    (TStruct [ field "PT" "paging_token" TString ]) in
                match err with
                | Some _ =>
                    (log, Returned (errors_Wrap err "error unmarshaling objectBytes"))
                | None =>
                    if negb (String.eqb (string_field object "PT") EmptyString)
                    then stream_loop rest
                           (Values_Set query "cursor" (string_field object "PT"))
                           log
                    else (log, Returned (Some (errors_New
                            "no paging_token in object: cannot continue")))
                end
              else (log, Returned err)
          end
      end
  end.

(** [func (c *Client) stream(ctx, baseURL, cursor, handler) error], run
    against a script of answers. *)
Definition stream (script : list (Response + error)) (cursor : option string)
  : list step * outcome :=
  stream_loop script
    (match cursor with
     | Some c => Values_Set [] "cursor" c
     | None => []
     end)
    [].

(** *** What the log of a run says *)

(** The position read from an object, as [stream] reads it into
    [struct { PT string `json:"paging_token"` }]; [None] when
    [json.Unmarshal] returns an error. *)
Definition paging_token (objectBytes : string) : option string :=
  match json_Unmarshal json_syntax objectBytes
          (TStruct [ field "PT" "paging_token" TString ]) with
  | (object, None) => Some (string_field object "PT")
  | (_, Some _) => None
  end.

(** The object given to the handler by its last call, [acc] if there is
    no call. *)
Fixpoint last_handled (log : list step) (acc : option string) : option string :=
  match log with
  | [] => acc
  | Handled data _ :: rest => last_handled rest (Some data)
  | _ :: rest => last_handled rest acc
  end.

Definition last_delivered (log : list step) : option string :=
  last_handled log None.

(** A step after which the run goes on: neither a cancellation seen nor an
    error of the handler. *)
Definition calm (ev : step) : Prop :=
  match ev with
  | Polled true => False
  | Handled _ (Some _) => False
  | _ => True
  end.

Definition is_Sent (ev : step) : bool :=
  match ev with
  | Sent _ => true
  | _ => false
  end.

(** The number of requests a log records. *)
Definition count_sent (log : list step) : nat :=
  List.length (filter is_Sent log).

(** The target of a request that resumes at [position]. *)
Definition cursor_URL (position : string) : string :=
  String.append baseURL (String.append "?cursor=" (QueryEscape position)).

(** The target of the first request of a run started at [cursor]. *)
Definition first_URL (cursor : option string) : string :=
  match cursor with
  | Some c => cursor_URL c
  | None => String.append baseURL "?"
  end.

(** What holds of a step [ev] taken after the steps [pre] of a run started
    at [cursor]. *)
Definition step_ok (cursor : option string) (pre : list step) (ev : step) : Prop :=
  Forall calm pre /\
  match ev with
  | Polled done => done = ctx_Done pre
  | Handled data ret =>
      ret = handler pre data /\
      exists pre', pre = pre' ++ [Polled false]
  | Sent req =>
      Method req = "GET" /\
      Header_Get req "Accept" = Some "text/event-stream" /\
      (pre = [] -> URL req = first_URL cursor) /\
      (pre <> [] ->
       exists data position,
         last_delivered pre = Some data /\
         paging_token data = Some position /\
         position <> EmptyString /\
         URL req = cursor_URL position)
  end.

(** Every step of the log is as [step_ok] says. *)
Definition log_ok (cursor : option string) (log : list step) : Prop :=
  forall pre ev post, log = pre ++ ev :: post -> step_ok cursor pre ev.

(** The query the loop holds when the run has done what the log says: the
    caller's cursor before the first request, the position of the last
    object handled afterwards. *)
Definition query_ok (cursor : option string) (query : Values) (log : list step)
  : Prop :=
  match log with
  | [] =>
      query = match cursor with
              | Some c => Values_Set [] "cursor" c
              | None => []
              end
  | _ =>
      exists data position,
        last_delivered log = Some data /\
        paging_token data = Some position /\
        position <> EmptyString /\
        query = [("cursor", [position])]
  end.

(** A cancellation seen, or an error of the handler, is the last step of the
    log, and then the run has returned nil, or that error. *)
Definition ended_ok (log : list step) (out : outcome) : Prop :=
  Forall calm log \/
  (exists l, log = l ++ [Polled true] /\ out = Returned None) \/
  (exists l data e, log = l ++ [Handled data (Some e)] /\ out = Returned (Some e)).

(** How the frame loop leaves a log it took at [log]: in order, with no
    request added, and with [objectBytes] the last object handled. *)
Definition scan_ok (cursor : option string) (log log' : list step)
    (ex : scan_exit) : Prop :=
  log_ok cursor log' /\
  count_sent log' = count_sent log /\
  (log <> [] -> log' <> []) /\
  match ex with
  | Exhausted objectBytes =>
      Forall calm log' /\
      (objectBytes <> EmptyString -> last_delivered log' = Some objectBytes)
  | Return r => ended_ok log' (Returned r)
  end.

End Stream.

(** ** What the model is run on

    The functions above take the scanner of [encoding/json], the frame
    parser, the types and the constants declared elsewhere as arguments, and
    the theorems hold for all of them.  To run the model on a payload these
    arguments are needed in the concrete: this module has a reader for JSON
    texts whose strings have no escape sequence, the frame parser as the
    specification describes it, and the declarations of the other files. *)
Module Concrete.

Definition quote : ascii := "034"%char.
Definition backslash : ascii := "092"%char.
Definition newline : ascii := "010"%char.

(** [quoted s] is [s] between double quotes. *)
Definition quoted (s : string) : string :=
  String quote (String.append s (String quote EmptyString)).

Definition is_space (c : ascii) : bool :=
  let n := nat_of_ascii c in
  (Nat.eqb n 32 || Nat.eqb n 9 || Nat.eqb n 10 || Nat.eqb n 13)%bool.

Definition is_digit (c : ascii) : bool :=
  let n := nat_of_ascii c in (Nat.leb 48 n && Nat.leb n 57)%bool.

Fixpoint skip_space (s : string) : string :=
  match s with
  | String c rest => if is_space c then skip_space rest else s
  | EmptyString => s
  end.

(** The text after the prefix [p] of [s], if [s] starts with [p]. *)
Fixpoint after (p s : string) : option string :=
  match p, s with
  | EmptyString, _ => Some s
  | String a p', String b s' => if Ascii.eqb a b then after p' s' else None
  | _, EmptyString => None
  end.

(** The digits [s] starts with, and what follows them. *)
Fixpoint digits (s : string) : string * string :=
  match s with
  | String c rest =>
      if is_digit c
      then let (ds, r) := digits rest in (String c ds, r)
      else (EmptyString, s)
  | EmptyString => (EmptyString, s)
  end.

Fixpoint Z_of_digits (ds : string) (acc : Z) : Z :=
  match ds with
  | String c rest => Z_of_digits rest (10 * acc + Z.of_nat (nat_of_ascii c - 48))
  | EmptyString => acc
  end.

(** A string after its opening quote: its bytes up to the closing quote.  A
    control character ends the reading, and so does a backslash: escape
    sequences are not read. *)
Fixpoint read_string (s : string) : option (string * string) :=
  match s with
  | EmptyString => None
  | String c rest =>
      if Ascii.eqb c quote then Some (EmptyString, rest)
      else if (Ascii.eqb c backslash || Nat.ltb (nat_of_ascii c) 32)%bool then None
      else match read_string rest with
           | Some (body, r) => Some (String c body, r)
           | None => None
           end
  end.

(** A number: [-]? int frac? exp?, with no leading zero in [int]. *)
Definition read_number (s : string) : option (json * string) :=
  let (negative, s1) :=
    match s with
    | String "-"%char r => (true, r)
    | _ => (false, s)
    end in
  let (ip, s2) := digits s1 in
  match ip with
  | EmptyString => None
  | String d more =>
      if (Ascii.eqb d "0"%char && negb (Nat.eqb (String.length more) 0))%bool
      then None
      else
        let frac :=
          match s2 with
          | String "."%char r =>
              let (fd, r') := digits r in
              match fd with
              | EmptyString => None
              | _ => Some (true, r')
              end
          | _ => Some (false, s2)
          end in
        match frac with
        | None => None
        | Some (has_frac, s3) =>
            let exp :=
              match s3 with
              | String e r =>
                  if (Ascii.eqb e "e"%char || Ascii.eqb e "E"%char)%bool then
                    let r1 :=
                      match r with
                      | String sg r' =>
                          if (Ascii.eqb sg "+"%char || Ascii.eqb sg "-"%char)%bool
                          then r' else r
                      | EmptyString => r
                      end in
                    let (ed, r2) := digits r1 in
                    match ed with
                    | EmptyString => None
                    | _ => Some (true, r2)
                    end
                  else Some (false, s3)
              | EmptyString => Some (false, s3)
              end in
            match exp with
            | None => None
            | Some (has_exp, s4) =>
                if (has_frac || has_exp)%bool
                then Some (JFloat (String.substring 0
                                     (String.length s - String.length s4) s), s4)
                else Some (JInt (if negative then - Z_of_digits ip 0
                                 else Z_of_digits ip 0), s4)
            end
        end
  end.

(** A value at the head of [s], and the text after it.  Every call reads at
    least one byte, so the length of the text is fuel enough. *)
Fixpoint read_value (fuel : nat) (s : string) : option (json * string) :=
  match fuel with
  | O => None
  | S fuel =>
      match s with
      | EmptyString => None
      | String c rest =>
          if Ascii.eqb c "{"%char then
            match skip_space rest with
            | String "}"%char r => Some (JObject [], r)
            | r => read_members fuel r []
            end
          else if Ascii.eqb c "["%char then
            match skip_space rest with
            | String "]"%char r => Some (JArray [], r)
            | r => read_items fuel r []
            end
          else if Ascii.eqb c quote then
            match read_string rest with
            | Some (str, r) => Some (JString str, r)
            | None => None
            end
          else if Ascii.eqb c "t"%char then
            option_map (fun r => (JBool true, r)) (after "rue" rest)
          else if Ascii.eqb c "f"%char then
            option_map (fun r => (JBool false, r)) (after "alse" rest)
          else if Ascii.eqb c "n"%char then
            option_map (fun r => (JNull, r)) (after "ull" rest)
          else read_number s
      end
  end
with read_items (fuel : nat) (s : string) (acc : list json)
  : option (json * string) :=
  match fuel with
  | O => None
  | S fuel =>
      match read_value fuel s with
      | None => None
      | Some (v, r) =>
          match skip_space r with
          | String ","%char r' => read_items fuel (skip_space r') (v :: acc)
          | String "]"%char r' => Some (JArray (rev (v :: acc)), r')
          | _ => None
          end
      end
  end
with read_members (fuel : nat) (s : string) (acc : list (string * json))
  : option (json * string) :=
  match fuel with
  | O => None
  | S fuel =>
      match after (String quote EmptyString) s with
      | None => None
      | Some s1 =>
          match read_string s1 with
          | None => None
          | Some (key, s2) =>
              match after ":" (skip_space s2) with
              | None => None
              | Some s3 =>
                  match read_value fuel (skip_space s3) with
                  | None => None
                  | Some (v, r) =>
                      match skip_space r with
                      | String ","%char r' =>
                          read_members fuel (skip_space r') ((key, v) :: acc)
                      | String "}"%char r' =>
                          Some (JObject (rev ((key, v) :: acc)), r')
                      | _ => None
                      end
                  end
              end
          end
      end
  end.

(** The document a text holds: one value, with spaces around it at most. *)
Definition json_syntax (data : string) : option json :=
  match read_value (S (String.length data)) (skip_space data) with
  | Some (doc, rest) =>
      match skip_space rest with
      | EmptyString => Some doc
      | _ => None
      end
  | None => None
  end.

(** The lines of a frame. *)
Fixpoint split_lines (s : string) : list string :=
  match s with
  | EmptyString => [EmptyString]
  | String c rest =>
      if Ascii.eqb c newline then EmptyString :: split_lines rest
      else match split_lines rest with
           | l :: ls => String c l :: ls
           | [] => [String c EmptyString]
           end
  end.

(** The label before the first colon of a line and the text after it. *)
Fixpoint cut (line : string) : option (string * string) :=
  match line with
  | EmptyString => None
  | String c rest =>
      if Ascii.eqb c ":"%char then Some (EmptyString, rest)
      else match cut rest with
           | Some (label, value) => Some (String c label, value)
           | None => None
           end
  end.

Definition strip_space (value : string) : string :=
  match value with
  | String " "%char rest => rest
  | _ => value
  end.

Definition FramingError : error := foreign "FramingError".

(** The label and the data lines read so far, over the lines that remain. *)
Fixpoint parse_lines (ls : list string) (label : string) (datas : list string)
  : sse_Event + error :=
  match ls with
  | [] => inl (mkEvent label (DataString (String.concat (String newline EmptyString) (rev datas))))
  | EmptyString :: rest => parse_lines rest label datas
  | line :: rest =>
      match cut line with
      | None => inr FramingError
      | Some (l, value) =>
          if String.eqb l "event" then parse_lines rest (strip_space value) datas
          else if String.eqb l "data"
               then parse_lines rest label (strip_space value :: datas)
               else parse_lines rest label datas
      end
  end.

(** Modelled from the spec: [parseEvent], which is declared in a file of the
    package that is not among the sources.  A frame is a sequence of lines
    of the shape label:value; the event label is [message] unless an
    [event] line gives another; the payload is made of the values of the
    [data] lines, one leading space dropped, joined by line terminators;
    lines with another label (comments, ids, retry hints) add nothing; a
    line without a colon is a FramingError. *)
Definition parseEvent (frame : string) : sse_Event + error :=
  parse_lines (split_lines frame) "message" [].

(** A frame with one [data] line. *)
Definition data_frame (payload : string) : string :=
  String.append "data: " payload.

(** The text of an object, from its keys and the texts of their values. *)
Definition object (members : list (string * string)) : string :=
  String.append "{"
    (String.append
       (String.concat ","
          (map (fun m => String.append (quoted (fst m)) (String.append ":" (snd m)))
               members))
       "}").

(** An effect of a kind that [UnmarshalEffect] has no case for. *)
Definition sequence_bumped_effect : string :=
  object [ ("id", quoted "0000000012884905985-0000000001");
           ("paging_token", quoted "12884905985-1");
           ("account", quoted "GABC");
           ("type", quoted "sequence_bumped");
           ("type_i", "43");
           ("new_seq", quoted "300000000000") ].

(** An operation of a kind that [UnmarshalOperation] has no case for. *)
Definition bump_sequence_operation : string :=
  object [ ("id", quoted "12884905985");
           ("paging_token", quoted "12884905985");
           ("source_account", quoted "GABC");
           ("type", quoted "bump_sequence");
           ("type_i", "11");
           ("bump_to", quoted "300000000000") ].

Definition account_thresholds_updated_effect : string :=
  object [ ("id", quoted "0000000012884905986-0000000001");
           ("paging_token", quoted "12884905986-1");
           ("account", quoted "GABC");
           ("type", quoted "account_thresholds_updated");
           ("type_i", "4");
           ("low_threshold", "1");
           ("med_threshold", "2");
           ("high_threshold", "3") ].

Definition trade_effect : string :=
  object [ ("id", quoted "0000000012884905987-0000000001");
           ("paging_token", quoted "12884905987-1");
           ("account", quoted "GABC");
           ("type", quoted "trade");
           ("type_i", "33");
           ("seller", quoted "GDEF");
           ("offer_id", "8");
           ("sold_amount", quoted "1.0000000");
           ("sold_asset_type", quoted "native");
           ("bought_amount", quoted "2.0000000");
           ("bought_asset_type", quoted "credit_alphanum4");
           ("bought_asset_code", quoted "USD");
           ("bought_asset_issuer", quoted "GXYZ") ].

Definition payment_operation : string :=
  object [ ("id", quoted "12884905988");
           ("paging_token", quoted "12884905988");
           ("source_account", quoted "GABC");
           ("type", quoted "payment");
           ("type_i", "1");
           ("created_at", quoted "2017-03-20T19:50:52Z");
           ("transaction_hash", quoted "17a6");
           ("asset_type", quoted "native");
           ("from", quoted "GABC");
           ("to", quoted "GDEF");
           ("amount", quoted "10.0000000") ].

(** The declarations of the package's main file: [Link], [Asset], [Price]. *)
Definition Link : GoType :=
  TStruct [ field "Href" "href" TString;
            field "Templated" "templated" TBool ].

Definition Asset : GoType :=
  TStruct [ field "Type" "asset_type" TString;
            field "Code" "asset_code" TString;
            field "Issuer" "asset_issuer" TString ].

Definition Price : GoType :=
  TStruct [ field "N" "n" int32;
            field "D" "d" int32 ].

(** A time of the shape 2006-01-02T15:04:05Z. *)
Definition time_Parse (s : string) : bool :=
  (Nat.eqb (String.length s) 20
   && forallb
        (fun i =>
           match String.get i s with
           | Some c =>
               if (Nat.eqb i 4 || Nat.eqb i 7)%bool then Ascii.eqb c "-"%char
               else if Nat.eqb i 10 then Ascii.eqb c "T"%char
               else if (Nat.eqb i 13 || Nat.eqb i 16)%bool then Ascii.eqb c ":"%char
               else if Nat.eqb i 19 then Ascii.eqb c "Z"%char
               else is_digit c
           | None => false
           end)
        (seq 0 20))%bool.

(** A target is rejected when it holds a control character. *)
Definition url_Parse (target : string) : option error :=
  if forallb (fun c => Nat.leb 32 (nat_of_ascii c)) (list_ascii_of_string target)
  then None
  else Some (foreign "net/url: invalid control character in URL").

(** *** Runs of [stream] *)

Definition effects_URL : string := "https://horizon.example/effects".

(** [stream] with the frame parser and the JSON reader above. *)
Definition run (ctx_Done : list step -> bool)
    (handler : list step -> string -> option error)
    (script : list (Response + error)) (cursor : option string)
  : list step * outcome :=
  stream url_Parse parseEvent json_syntax ctx_Done effects_URL handler script cursor.

(** The request [stream] sends to a target. *)
Definition request (target : string) : Request :=
  mkRequest "GET" target [("Accept", "text/event-stream")].

(** A record with an identifier and a position. *)
Definition record (id position : string) : string :=
  object [ ("id", quoted id); ("paging_token", quoted position) ].

Definition is_Handled (ev : step) : bool :=
  match ev with
  | Handled _ _ => true
  | _ => false
  end.

(** A context that is never cancelled, and one that is cancelled once the
    handler has been called [n] times. *)
Definition never_done (log : list step) : bool := false.

Definition done_after (n : nat) (log : list step) : bool :=
  Nat.leb n (List.length (filter is_Handled log)).

(** A handler that takes every object, and one that fails from its [n]th
    call on. *)
Definition take_all (log : list step) (data : string) : option error := None.

Definition disk_full : error := foreign "handler: disk full".

Definition fail_at (n : nat) (log : list step) (data : string) : option error :=
  if Nat.leb n (S (List.length (filter is_Handled log)))
  then Some disk_full else None.

(** Two records, then the connection is lost; on the next connection a
    third record, then the server closes the stream. *)
Definition lost_after_two : list (Response + error) :=
  [ inl (mkResponse [ data_frame (record "1" "10"); data_frame (record "2" "11") ]
           (Some io_ErrUnexpectedEOF));
    inl (mkResponse [ data_frame (record "3" "12") ] None) ].

Definition first_connection : list step :=
  [ Sent (request "https://horizon.example/effects?");
    Polled false; Handled (record "1" "10") None;
    Polled false; Handled (record "2" "11") None ].

Definition second_connection : list step :=
  [ Polled false; Handled (record "3" "12") None;
    Sent (request "https://horizon.example/effects?cursor=12") ].

(** What a run does up to the fourth call of the handler. *)
Definition before_fourth : list step :=
  [ Sent (request "https://horizon.example/effects?");
    Polled false; Handled (record "1" "10") None;
    Polled false; Handled (record "2" "11") None;
    Polled false; Handled (record "3" "12") None;
    Polled false ].

(** Five records on one connection. *)
Definition five_records : list (Response + error) :=
  [ inl (mkResponse [ data_frame (record "1" "10"); data_frame (record "2" "11");
                      data_frame (record "3" "12"); data_frame (record "4" "13");
                      data_frame (record "5" "14") ] None) ].

(** A record without a position, then the server closes the stream. *)
Definition no_position : list (Response + error) :=
  [ inl (mkResponse [ data_frame (object [ ("id", quoted "1") ]) ] None);
    inl (mkResponse [ data_frame (record "2" "11") ] None) ].

(** A body that ends before any frame, and one that holds an event that
    is no message and is then lost; a record waits on the next connection. *)
Definition open_frame : string :=
  String.append "event: open" (String newline "data: hello").

Definition nothing_sent : list (Response + error) :=
  [ inl (mkResponse [] None);
    inl (mkResponse [ data_frame (record "1" "101") ] None) ].

Definition open_then_lost : list (Response + error) :=
  [ inl (mkResponse [ open_frame ] (Some io_ErrUnexpectedEOF));
    inl (mkResponse [ data_frame (record "1" "101") ] None) ].

(** A line without a colon, then a record. *)
Definition malformed_frame : list (Response + error) :=
  [ inl (mkResponse [ "garbage"; data_frame (record "1" "10") ] None) ].

(** A record, then a read error that is no unexpected EOF. *)
Definition timed_out : error := foreign "read tcp: i/o timeout".

Definition read_error : list (Response + error) :=
  [ inl (mkResponse [ data_frame (record "1" "10") ] (Some timed_out));
    inl (mkResponse [ data_frame (record "2" "11") ] None) ].

(** [xdr.OperationType], as Stellar's XDR numbers the operations. *)
Definition xdr : xdr_constants := mk_xdr 0 1 2 3 4 5 6 7 8 9 10.

End Concrete.


(** * More of the package *)

(** ** More of what a document says *)

(** The integer held by the last member named [name] that holds an integer
    literal; [acc] if there is none. *)
Fixpoint last_int (name : string) (ms : list (string * json)) (acc : Z) : Z :=
  match ms with
  | [] => acc
  | (k, JInt z) :: rest =>
      if key_matches k name then last_int name rest z
      else last_int name rest acc
  | _ :: rest => last_int name rest acc
  end.

(** The integer a document stores under [name]; zero when it stores none. *)
Definition member_int (name : string) (doc : json) : Z :=
  match doc with
  | JObject ms => last_int name ms 0
  | _ => 0
  end.

(** The document has a member named [name]. *)
Definition has_member (name : string) (doc : json) : bool :=
  match doc with
  | JObject ms => existsb (fun m => key_matches (fst m) name) ms
  | _ => false
  end.

Definition is_TInt (t : GoType) : bool :=
  match t with
  | TInt _ => true
  | _ => false
  end.

(** [string_field_ok], for a field whose type is of the kind [kind]. *)
Definition field_ok (kind : GoType -> bool) (name key : string) (fs : list Field)
  : bool :=
  (String.eqb (foldName key) key
   && existsb (fun f => String.eqb (field_key f) key) fs
   && forallb (fun f => String.eqb (foldName (field_key f)) (field_key f)) fs
   && forallb (fun f => Bool.eqb (String.eqb (field_name f) name)
                                 (String.eqb (field_key f) key)) fs
   && forallb (fun f => if String.eqb (field_key f) key
                        then kind (field_type f) else true) fs)%bool.

(** ** The client and its URL *)

(** [strings.TrimRight(s, cutset)] for a cutset of ASCII characters: [s]
    without the characters of the cutset at its end.  Go works on code points;
    on bytes the result is the same for such a cutset, since no byte of a
    longer code point is an ASCII character. *)
Definition in_cutset (c : ascii) (cutset : string) : bool :=
  existsb (Ascii.eqb c) (list_ascii_of_string cutset).

Fixpoint strings_TrimRight (s cutset : string) : string :=
  match s with
  | EmptyString => EmptyString
  | String c rest =>
      match strings_TrimRight rest cutset with
      | EmptyString =>
          if in_cutset c cutset then EmptyString else String c EmptyString
      | String c' rest' => String c (String c' rest')
      end
  end.

(** [n] slashes. *)
Fixpoint slashes (n : nat) : string :=
  match n with
  | O => EmptyString
  | S n => String "/"%char (slashes n)
  end.

(** The fields of [Client] that the functions below use: [URL], and
    [fixURLOnce], a [sync.Once], which is the fact that it has run. *)
Record Client : Type := mkClient {
  Client_URL : string;
  fixURLOnce : bool
}.

(** [func (c *Client) fixURL()]. *)
Definition fixURL (c : Client) : Client :=
  mkClient (strings_TrimRight (Client_URL c) "/") (fixURLOnce c).

(** [c.fixURLOnce.Do(f)]: [f] runs if the [Once] has not run yet. *)
Definition fixURLOnce_Do (f : Client -> Client) (c : Client) : Client :=
  if fixURLOnce c then c else mkClient (Client_URL (f c)) true.

(** ** The streams of the client *)

Section Streams.

Variable url_Parse : string -> option error.
Variable parseEvent : string -> sse_Event + error.
Variable json_syntax : string -> option json.
Variable ctx_Done : list step -> bool.

(** [Link], [Asset], [Price], [Ledger], [Payment] and [Transaction] are
    declared in another file of the package. *)
Variables Link Asset Price Ledger Payment Transaction : GoType.
Variable time_Parse : string -> bool.
Variable xdr : xdr_constants.

(** The closure that [StreamLedgers], [StreamPayments], [StreamTransactions]
    and [StreamAllTransactions] give to [stream], for a value of type [T]:
    the error it returns.  When it returns nil it has called the caller's
    handler with the value decoded. *)
Definition unmarshal_data (T : GoType) (log : list step) (data : string)
  : option error :=
  match json_Unmarshal json_syntax data T with
  | (_, Some err) => Some (withMessage err "error unmarshaling data")
  | (_, None) => None
  end.

(** [func (c *Client) StreamLedgers(ctx, cursor, handler) error]. *)
Definition StreamLedgers (c : Client) (script : list (Response + error))
    (cursor : option string) : Client * (list step * outcome) :=
  let c := fixURLOnce_Do fixURL c in
  let url := String.append (Client_URL c) "/ledgers" in
  (c, stream url_Parse parseEvent json_syntax ctx_Done url
        (unmarshal_data Ledger) script cursor).

(** [func (c *Client) StreamPayments(ctx, accountID, cursor, handler) error]. *)
Definition StreamPayments (c : Client) (accountID : string)
    (script : list (Response + error)) (cursor : option string)
  : Client * (list step * outcome) :=
  let c := fixURLOnce_Do fixURL c in
  let url := String.append (Client_URL c)
               (String.append "/accounts/" (String.append accountID "/payments")) in
  (c, stream url_Parse parseEvent json_syntax ctx_Done url
        (unmarshal_data Payment) script cursor).

(** [func (c *Client) StreamAllTransactions(ctx, cursor, handler) error]. *)
Definition StreamAllTransactions (c : Client) (script : list (Response + error))
    (cursor : option string) : Client * (list step * outcome) :=
  let c := fixURLOnce_Do fixURL c in
  let url := String.append (Client_URL c) "/transactions" in
  (c, stream url_Parse parseEvent json_syntax ctx_Done url
        (unmarshal_data Transaction) script cursor).

(** [func (c *Client) StreamTransactions(ctx, accountID, cursor, handler) error]. *)
Definition StreamTransactions (c : Client) (accountID : string)
    (script : list (Response + error)) (cursor : option string)
  : Client * (list step * outcome) :=
  let c := fixURLOnce_Do fixURL c in
  let url := String.append (Client_URL c)
               (String.append "/accounts/"
                  (String.append accountID "/transactions")) in
  (c, stream url_Parse parseEvent json_syntax ctx_Done url
        (unmarshal_data Transaction) script cursor).

(** The closure of [StreamAllOperations]: the error it returns.  When it
    returns nil it has called the caller's handler with the operation that
    [UnmarshalOperation] returned. *)
Definition unmarshal_operation (log : list step) (data : string) : option error :=
  match UnmarshalOperation Link Asset Price time_Parse xdr json_syntax data with
  | (_, Some err) => Some (withMessage err "error unmarshaling data")
  | (_, None) => None
  end.

(** [func (c *Client) StreamAllOperations(ctx, cursor, handler) error]. *)
Definition StreamAllOperations (c : Client) (script : list (Response + error))
    (cursor : option string) : Client * (list step * outcome) :=
  let c := fixURLOnce_Do fixURL c in
  let url := String.append (Client_URL c) "/operations" in
  (c, stream url_Parse parseEvent json_syntax ctx_Done url
        unmarshal_operation script cursor).

(** The closure of [StreamAllEffects]. *)
Definition unmarshal_effect (log : list step) (data : string) : option error :=
  match UnmarshalEffect Link json_syntax data with
  | (_, Some err) => Some (withMessage err "error unmarshaling data")
  | (_, None) => None
  end.

(** [func (c *Client) StreamAllEffects(ctx, cursor, handler) error]. *)
Definition StreamAllEffects (c : Client) (script : list (Response + error))
    (cursor : option string) : Client * (list step * outcome) :=
  let c := fixURLOnce_Do fixURL c in
  let url := String.append (Client_URL c) "/effects" in
  (c, stream url_Parse parseEvent json_syntax ctx_Done url
        unmarshal_effect script cursor).

(** The calls of the caller's [EffectHandler] in a run of [StreamAllEffects]
    with this log, in order: one for each object for which the closure
    returned nil, with the effect decoded from the object. *)
Fixpoint EffectHandler_calls (log : list step) : list (option Effect) :=
  match log with
  | [] => []
  | Handled data None :: rest =>
      fst (UnmarshalEffect Link json_syntax data) :: EffectHandler_calls rest
  | _ :: rest => EffectHandler_calls rest
  end.

(** The calls of the caller's [OperationHandler] in a run of
    [StreamAllOperations] with this log. *)
Fixpoint OperationHandler_calls (log : list step) : list (option Operation) :=
  match log with
  | [] => []
  | Handled data None :: rest =>
      fst (UnmarshalOperation Link Asset Price time_Parse xdr json_syntax data)
      :: OperationHandler_calls rest
  | _ :: rest => OperationHandler_calls rest
  end.

(** The URL a Stream function builds its target from: [c.URL] without the
    slashes at its end when the client is used for the first time, [c.URL]
    as it is afterwards. *)
Definition client_base (c : Client) : string :=
  if fixURLOnce c then Client_URL c else strings_TrimRight (Client_URL c) "/".

(** Every request of the log goes to [base], with the cursor the run was
    started at or with a position that is not empty. *)
Definition targets (base : string) (cursor : option string) (log : list step)
  : Prop :=
  forall pre req post,
    log = pre ++ Sent req :: post ->
    (pre = [] -> URL req = first_URL base cursor) /\
    (pre <> [] ->
     exists position,
       position <> EmptyString /\ URL req = cursor_URL base position).

End Streams.

(** ** The requests of the client *)

(** [func (v Values) Add(key, value string)]: the key has one more value,
    after those it had. *)
Fixpoint Values_Add (v : Values) (key value : string) : Values :=
  match v with
  | [] => [(key, [value])]
  | (k, vs) :: rest =>
      match String.compare key k with
      | Eq => (k, vs ++ [value]) :: rest
      | Lt => (key, [value]) :: (k, vs) :: rest
      | Gt => (k, vs) :: Values_Add rest key value
      end
  end.

(** [strconv.Itoa] on a 64-bit [int]: the decimal digits, after a minus sign
    for a negative number.  Twenty digits are enough for 64 bits. *)
Definition digit_char (d : Z) : ascii := ascii_of_nat (48 + Z.to_nat d).

Fixpoint decimal (fuel : nat) (n : Z) (acc : string) : string :=
  match fuel with
  | O => acc
  | S fuel =>
      let acc := String (digit_char (n mod 10)) acc in
      if n <? 10 then acc else decimal fuel (n / 10) acc
  end.

Definition strconv_Itoa (i : Z) : string :=
  if i <? 0 then String "-"%char (decimal 20 (- i) EmptyString)
  else decimal 20 i EmptyString.

(** [strconv.ParseUint(s, 10, 64)].  Its error is a [*NumError], told here
    by its field [Err]. *)
Definition strconv_ErrSyntax : error := foreign "strconv.ErrSyntax".
Definition strconv_ErrRange : error := foreign "strconv.ErrRange".

Definition maxUint64 : Z := 2 ^ 64 - 1.

(** The value of a byte as a digit: [None] for the [default] of the switch. *)
Definition digit_value (d : ascii) : option Z :=
  let n := Z.of_nat (nat_of_ascii d) in
  if (48 <=? n) && (n <=? 57) then Some (n - 48)
  else if (97 <=? n) && (n <=? 122) then Some (n - 97 + 10)
  else if (65 <=? n) && (n <=? 90) then Some (n - 65 + 10)
  else None.

(** The loop of [ParseUint] for base 10 and 64 bits, from the byte at [i]
    on, with the number [n] read so far. *)
Fixpoint ParseUint_loop (s : string) (n : Z) : Z * option error :=
  match s with
  | EmptyString => (n, None)
  | String d rest =>
      match digit_value d with
      | None => (0, Some strconv_ErrSyntax)
      | Some v =>
          if v >=? 10 then (0, Some strconv_ErrSyntax)
          else if n >=? maxUint64 / 10 + 1 then (maxUint64, Some strconv_ErrRange)
          else
            let n := (n * 10) mod 2 ^ 64 in
            let n1 := (n + v) mod 2 ^ 64 in
            if (n1 <? n) || (n1 >? maxUint64)
            then (maxUint64, Some strconv_ErrRange)
            else ParseUint_loop rest n1
      end
  end.

Definition strconv_ParseUint (s : string) : Z * option error :=
  match s with
  | EmptyString => (0, Some strconv_ErrSyntax)
  | _ => ParseUint_loop s 0
  end.

(** The number that a string of decimal digits writes after the digits of
    [acc]; [None] if a byte is no decimal digit. *)
Fixpoint digits_value (s : string) (acc : Z) : option Z :=
  match s with
  | EmptyString => Some acc
  | String d rest =>
      let n := Z.of_nat (nat_of_ascii d) in
      if (48 <=? n) && (n <=? 57) then digits_value rest (acc * 10 + (n - 48))
      else None
  end.

(** The number a string writes in decimal digits, if it is one or more
    decimal digits and nothing else. *)
Definition decimal_number (s : string) : option Z :=
  match s with
  | EmptyString => None
  | _ => digits_value s 0
  end.

(** The values of the variadic [params ...interface{}]: [At], [Limit],
    [Order] and [Cursor] are declared in another file of the package; a
    [Limit] is given by the number [int(param)], and a value of any other
    type by what the verbs [%T] and [%+v] print for it. *)
Inductive param : Type :=
| At (endpoint : string)
| Limit (n : Z)
| Order (s : string)
| Cursor (s : string)
| other (T v : string).

Definition param_T (p : param) : string :=
  match p with
  | At _ => "horizon.At"
  | Limit _ => "horizon.Limit"
  | Order _ => "horizon.Order"
  | Cursor _ => "horizon.Cursor"
  | other T _ => T
  end.

Definition param_v (p : param) : string :=
  match p with
  | At s => s
  | Limit n => strconv_Itoa n
  | Order s => s
  | Cursor s => s
  | other _ v => v
  end.

(** [fmt.Errorf("Undefined parameter (%T): %+v", param, param)], an error of
    the standard library, told by its text. *)
Definition Undefined_parameter (p : param) : error :=
  foreign (String.append "Undefined parameter ("
             (String.append (param_T p)
                (String.append "): " (param_v p)))).

(** The [for] loop of [LoadAccountOffers]: the endpoint and the query after
    the parameters, or the error of the first parameter of another type. *)
Fixpoint offers_params (params : list param) (endpoint : string) (query : Values)
  : string * Values + error :=
  match params with
  | [] => inl (endpoint, query)
  | At s :: rest => offers_params rest s query
  | Limit n :: rest =>
      offers_params rest endpoint (Values_Add query "limit" (strconv_Itoa n))
  | Order s :: rest => offers_params rest endpoint (Values_Add query "order" s)
  | Cursor s :: rest => offers_params rest endpoint (Values_Add query "cursor" s)
  | other T v :: _ => inr (Undefined_parameter (other T v))
  end.

(** The [for] loop of [LoadOrderBook]. *)
Fixpoint order_book_params (params : list param) (query : Values)
  : Values + error :=
  match params with
  | [] => inl query
  | Limit n :: rest =>
      order_book_params rest (Values_Add query "limit" (strconv_Itoa n))
  | p :: _ => inr (Undefined_parameter p)
  end.

(** What a call leaves: the client, the targets of the requests it has sent,
    the value of its first result and its error. *)
Definition call (A : Type) : Type := (Client * list string * (A * option error))%type.

Section Requests.

(** [url.Parse], as far as its error goes. *)
Variable url_Parse : string -> option error.

(** The transport: what [c.HTTP.Get] and [c.HTTP.PostForm] return for a
    target, and the status code of a response. *)
Variable http_Response : Type.
Variable HTTP_Get : string -> http_Response + error.
Variable HTTP_PostForm : string -> Values -> http_Response + error.
Variable StatusCode : http_Response -> Z.

(** [decodeResponse(resp, &object)], of another file of the package, for an
    object of the type given that holds its zero value: the object
    afterwards, and the error. *)
Variable decodeResponse : http_Response -> GoType -> GoValue * option error.

(** [Root], [Account], [OffersPage], [OrderBookSummary] and
    [TransactionSuccess] are declared in another file of the package, and
    [xdr.SequenceNumber] in another package. *)
Variables Root_type Account OffersPage OrderBookSummary TransactionSuccess : GoType.
Variable xdr_SequenceNumber : Z -> Z.

(** [func (c *Client) Root() (root Root, err error)]. *)
Definition Root (c : Client) : call GoValue :=
  let c := fixURLOnce_Do fixURL c in
  match HTTP_Get (Client_URL c) with
  | inr err => (c, [Client_URL c], (zero Root_type, Some err))
  | inl resp => (c, [Client_URL c], decodeResponse resp Root_type)
  end.

(** [func (c *Client) LoadAccount(accountID string) (account Account, err error)]. *)
Definition LoadAccount (c : Client) (accountID : string) : call GoValue :=
  let c := fixURLOnce_Do fixURL c in
  let target := String.append (Client_URL c) (String.append "/accounts/" accountID) in
  match HTTP_Get target with
  | inr err => (c, [target], (zero Account, Some err))
  | inl resp => (c, [target], decodeResponse resp Account)
  end.

(** [func (c *Client) HomeDomainForAccount(aid string) (string, error)]. *)
Definition HomeDomainForAccount (c : Client) (aid : string) : call string :=
  match LoadAccount c aid with
  | (c, sent, (a, Some err)) =>
      (c, sent, (EmptyString, Some (withMessage err "load account failed")))
  | (c, sent, (a, None)) => (c, sent, (string_field a "HomeDomain", None))
  end.

(** [func (c *Client) SequenceForAccount(accountID string)
    (xdr.SequenceNumber, error)]. *)
Definition SequenceForAccount (c : Client) (accountID : string) : call Z :=
  match LoadAccount c accountID with
  | (c, sent, (a, Some err)) =>
      (c, sent, (0, Some (withMessage err "load account failed")))
  | (c, sent, (a, None)) =>
      match strconv_ParseUint (string_field a "Sequence") with
      | (seq, Some err) =>
          (c, sent, (0, Some (withMessage err "parse sequence failed")))
      | (seq, None) => (c, sent, (xdr_SequenceNumber seq, None))
      end
  end.

(** [func (c *Client) LoadAccountOffers(accountID string,
    params ...interface{}) (offers OffersPage, err error)]. *)
Definition LoadAccountOffers (c : Client) (accountID : string)
    (params : list param) : call GoValue :=
  let c := fixURLOnce_Do fixURL c in
  match offers_params params EmptyString [] with
  | inr err => (c, [], (zero OffersPage, Some err))
  | inl (endpoint, query) =>
      let endpoint :=
        if String.eqb endpoint EmptyString
        then String.append (Client_URL c)
               (String.append "/accounts/"
                  (String.append accountID
                     (String.append "/offers?" (Values_Encode query))))
        else endpoint in
      match url_Parse endpoint with
      | Some err =>
          (c, [], (zero OffersPage,
                   Some (withMessage err "failed to parse endpoint")))
      | None =>
          match HTTP_Get endpoint with
          | inr err =>
              (c, [endpoint],
               (zero OffersPage, Some (withMessage err "failed to load endpoint")))
          | inl resp => (c, [endpoint], decodeResponse resp OffersPage)
          end
      end
  end.

(** The query of [LoadOrderBook] before its loop. *)
Definition order_book_query (selling buying : GoValue) : Values :=
  let query := [] in
  let query := Values_Add query "selling_asset_type" (string_field selling "Type") in
  let query := Values_Add query "selling_asset_code" (string_field selling "Code") in
  let query :=
    Values_Add query "selling_asset_issuer" (string_field selling "Issuer") in
  let query := Values_Add query "buying_asset_type" (string_field buying "Type") in
  let query := Values_Add query "buying_asset_code" (string_field buying "Code") in
  Values_Add query "buying_asset_issuer" (string_field buying "Issuer").

(** [func (c *Client) LoadOrderBook(selling Asset, buying Asset,
    params ...interface{}) (orderBook OrderBookSummary, err error)]. *)
Definition LoadOrderBook (c : Client) (selling buying : GoValue)
    (params : list param) : call GoValue :=
  let c := fixURLOnce_Do fixURL c in
  match order_book_params params (order_book_query selling buying) with
  | inr err => (c, [], (zero OrderBookSummary, Some err))
  | inl query =>
      let target :=
        String.append (Client_URL c)
          (String.append "/order_book?" (Values_Encode query)) in
      match HTTP_Get target with
      | inr err => (c, [target], (zero OrderBookSummary, Some err))
      | inl resp => (c, [target], decodeResponse resp OrderBookSummary)
      end
  end.

(** [func (c *Client) SubmitTransaction(transactionEnvelopeXdr string)
    (response TransactionSuccess, err error)]. *)
Definition SubmitTransaction (c : Client) (transactionEnvelopeXdr : string)
  : call GoValue :=
  let c := fixURLOnce_Do fixURL c in
  let v := Values_Set [] "tx" transactionEnvelopeXdr in
  let target := String.append (Client_URL c) "/transactions" in
  match HTTP_PostForm target v with
  | inr err =>
      (c, [target], (zero TransactionSuccess, Some (withMessage err "http post failed")))
  | inl resp =>
      match decodeResponse resp TransactionSuccess with
      | (response, Some err) => (c, [target], (response, Some err))
      | (response, None) =>
          if StatusCode resp =? 200 then (c, [target], (response, None))
          else (c, [target], (response, Some (errors_New "Invalid response code")))
      end
  end.

End Requests.

(** The parameters that [LoadAccountOffers] knows, and what they say. *)
Definition defined (p : param) : bool :=
  match p with
  | other _ _ => false
  | _ => true
  end.

Definition is_Limit (p : param) : bool :=
  match p with
  | Limit _ => true
  | _ => false
  end.

(** The [At] given last; empty if there is none. *)
Fixpoint last_At (params : list param) (acc : string) : string :=
  match params with
  | [] => acc
  | At s :: rest => last_At rest s
  | _ :: rest => last_At rest acc
  end.

(** The values of the parameters of one kind, in the order given. *)
Definition limits (params : list param) : list string :=
  flat_map (fun p => match p with Limit n => [strconv_Itoa n] | _ => [] end) params.

Definition orders (params : list param) : list string :=
  flat_map (fun p => match p with Order s => [s] | _ => [] end) params.

Definition cursors (params : list param) : list string :=
  flat_map (fun p => match p with Cursor s => [s] | _ => [] end) params.

(** A key with its values, if it has any. *)
Definition key_values (key : string) (values : list string) : Values :=
  match values with
  | [] => []
  | _ => [(key, values)]
  end.

(** The query of [LoadAccountOffers] holds its values by kind. *)
Definition offers_query (cs ls os : list string) : Values :=
  key_values "cursor" cs ++ key_values "limit" ls ++ key_values "order" os.

(** The query of [LoadOrderBook] holds the assets and the limits. *)
Definition assets_query (selling buying : GoValue) (ls : list string) : Values :=
  [ ("buying_asset_code", [string_field buying "Code"]);
    ("buying_asset_issuer", [string_field buying "Issuer"]);
    ("buying_asset_type", [string_field buying "Type"]) ]
  ++ key_values "limit" ls
  ++ [ ("selling_asset_code", [string_field selling "Code"]);
       ("selling_asset_issuer", [string_field selling "Issuer"]);
       ("selling_asset_type", [string_field selling "Type"]) ].

(** ** The resources of the server *)

(** [strings.Split(s, sep)] for a separator of one byte: the parts of [s]
    between the separators, one more than there are separators. *)
Fixpoint strings_Split (s : string) (sep : ascii) : list string :=
  match s with
  | EmptyString => [EmptyString]
  | String c rest =>
      if Ascii.eqb c sep then EmptyString :: strings_Split rest sep
      else
        match strings_Split rest sep with
        | [] => [String c EmptyString]
        | part :: parts => String c part :: parts
        end
  end.

(** How often a byte occurs in a string. *)
Fixpoint count_byte (s : string) (b : ascii) : nat :=
  match s with
  | EmptyString => O
  | String c rest =>
      if Ascii.eqb c b then S (count_byte rest b) else count_byte rest b
  end.

(** [int32(x)]: the 32 low bits, read with a sign. *)
Definition to_int32 (x : Z) : Z := (x + 2 ^ 31) mod 2 ^ 32 - 2 ^ 31.

(** [func (b *Base) populateType(row)], of the packages [effects] and
    [operations]: the fields [TypeI] and [Type] that it assigns.  [TypeNames]
    is a map of the package, declared in another file. *)
Definition populateType (TypeNames : Z -> option string) (row_Type : Z)
  : Z * string :=
  (to_int32 row_Type,
   match TypeNames row_Type with
   | Some name => name
   | None => "unknown"
   end).

(** [null.Int] and [null.String]. *)
Record null_Int : Type := mk_null_Int { Int64 : Z; Int_Valid : bool }.
Record null_String : Type := mk_null_String { String_ : string; String_Valid : bool }.

Module history.

(** The fields of [history.Transaction] that [Populate] reads, and what its
    method [PagingToken()] returns. *)
Record Transaction (Time : Type) : Type := mkTransaction {
  TransactionHash : string;
  PagingToken : string;
  LedgerSequence : Z;
  LedgerCloseTime : Time;
  Account : string;
  AccountSequence : string;
  FeePaid : Z;
  OperationCount : Z;
  TxEnvelope : string;
  TxResult : string;
  TxMeta : string;
  TxFeeMeta : string;
  MemoType : string;
  Memo : null_String;
  SignatureString : string;
  ValidBefore : null_Int;
  ValidAfter : null_Int;
  ApplicationOrder : Z
}.

End history.

Module resource.

Section Transaction.

(** [time.Time], and [hal.Link] with the methods of the [hal.LinkBuilder]
    made for the context: [Link] and [PagedLink] take the parts of a path,
    [Linkf] a format and its argument. *)
Variable Time : Type.
Variable hal_Link : Type.
Variable lb_Link : list string -> hal_Link.
Variable lb_PagedLink : list string -> hal_Link.
Variable lb_Linkf : string -> string -> hal_Link.

(** [time.Unix(sec, 0).UTC().Format(time.RFC3339)]. *)
Variable time_Format : Z -> string.

Record Links : Type := mkLinks {
  Links_Account : hal_Link;
  Links_Ledger : hal_Link;
  Links_Operations : hal_Link;
  Links_Effects : hal_Link;
  Links_Self : hal_Link;
  Links_Succeeds : hal_Link;
  Links_Precedes : hal_Link
}.

(** The fields of [Transaction] that [Populate] assigns. *)
Record Transaction : Type := mkTransaction {
  ID : string;
  PT : string;
  Hash : string;
  Ledger : Z;
  LedgerCloseTime : Time;
  Account : string;
  AccountSequence : string;
  FeePaid : Z;
  OperationCount : Z;
  EnvelopeXdr : string;
  ResultXdr : string;
  ResultMetaXdr : string;
  FeeMetaXdr : string;
  MemoType : string;
  Memo : string;
  Signatures : list string;
  ValidBefore : string;
  ValidAfter : string;
  Order : Z;
  Transaction_Links : Links
}.

(** [func (t *Transaction) timeString(in null.Int) string]. *)
Definition timeString (i : null_Int) : string :=
  if negb (Int_Valid i) then EmptyString else time_Format (Int64 i).

(** [func (t *Transaction) Populate(ctx, row) (err error)]: the resource
    afterwards; the error is always nil. *)
Definition Populate (row : history.Transaction Time) : Transaction * option error :=
  let ID := history.TransactionHash Time row in
  let PT := history.PagingToken Time row in
  let Ledger := history.LedgerSequence Time row in
  let Account := history.Account Time row in
  (mkTransaction
     ID
     PT
     (history.TransactionHash Time row)
     Ledger
     (history.LedgerCloseTime Time row)
     Account
     (history.AccountSequence Time row)
     (history.FeePaid Time row)
     (history.OperationCount Time row)
     (history.TxEnvelope Time row)
     (history.TxResult Time row)
     (history.TxMeta Time row)
     (history.TxFeeMeta Time row)
     (history.MemoType Time row)
     (String_ (history.Memo Time row))
     (strings_Split (history.SignatureString Time row) ","%char)
     (timeString (history.ValidBefore Time row))
     (timeString (history.ValidAfter Time row))
     (history.ApplicationOrder Time row)
     (mkLinks
        (lb_Link ["/accounts"; Account])
        (lb_Link ["/ledgers"; strconv_Itoa Ledger])
        (lb_PagedLink ["/transactions"; ID; "operations"])
        (lb_PagedLink ["/transactions"; ID; "effects"])
        (lb_Link ["/transactions"; ID])
        (lb_Linkf "/transactions?order=desc&cursor=%s" PT)
        (lb_Linkf "/transactions?order=asc&cursor=%s" PT)),
   None).

(** [func (t Transaction) PagingToken() string]. *)
Definition PagingToken (t : Transaction) : string := PT t.

End Transaction.

End resource.

(** ** What the extra properties are run on *)
Module Samples.

(** A payload with neither "type" nor "type_i". *)
Definition untyped_record : string :=
  Concrete.object [ ("id", Concrete.quoted "1");
                    ("paging_token", Concrete.quoted "10") ].

(** An effect that the server names "unknown". *)
Definition unknown_effect : string :=
  Concrete.object [ ("id", Concrete.quoted "0000000012884905989-0000000001");
                    ("paging_token", Concrete.quoted "12884905989-1");
                    ("type", Concrete.quoted "unknown");
                    ("type_i", "99") ].

(** A client that has not been used, with two slashes after its URL. *)
Definition client : Client := mkClient "https://horizon.example//" false.

(** The Stream functions with the frame parser and the JSON reader of
    [Concrete], and a context that is never cancelled. *)
Definition effects (script : list (Response + error)) (cursor : option string)
  : Client * (list step * outcome) :=
  StreamAllEffects Concrete.url_Parse Concrete.parseEvent Concrete.json_syntax
    Concrete.never_done Concrete.Link client script cursor.

Definition operations (script : list (Response + error)) (cursor : option string)
  : Client * (list step * outcome) :=
  StreamAllOperations Concrete.url_Parse Concrete.parseEvent Concrete.json_syntax
    Concrete.never_done Concrete.Link Concrete.Asset Concrete.Price
    Concrete.time_Parse Concrete.xdr client script cursor.

(** An effect that the decoder takes, then one that it refuses, then one
    more. *)
Definition refused_second : list (Response + error) :=
  [ inl (mkResponse [ Concrete.data_frame Concrete.trade_effect;
                      Concrete.data_frame Concrete.sequence_bumped_effect;
                      Concrete.data_frame Concrete.trade_effect ] None) ].

(** The same for operations. *)
Definition refused_second_operation : list (Response + error) :=
  [ inl (mkResponse [ Concrete.data_frame Concrete.payment_operation;
                      Concrete.data_frame Concrete.bump_sequence_operation;
                      Concrete.data_frame Concrete.payment_operation ] None) ].

(** An effect, then the connection is lost; nothing on the next one. *)
Definition lost_after_trade : list (Response + error) :=
  [ inl (mkResponse [ Concrete.data_frame Concrete.trade_effect ]
           (Some io_ErrUnexpectedEOF));
    inl (mkResponse [] None) ].

Definition lost_after_payment : list (Response + error) :=
  [ inl (mkResponse [ Concrete.data_frame Concrete.payment_operation ]
           (Some io_ErrUnexpectedEOF));
    inl (mkResponse [] None) ].

(** A transport to run the requests on: a response is a status code and a
    body; every GET is answered with the account below, every POST with an
    empty object; and, in the place of [decodeResponse], the body decoded
    into the object. *)
Definition http_Response : Type := (Z * string)%type.

Definition account_body : string :=
  Concrete.object [ ("id", Concrete.quoted "GABC");
                    ("sequence", Concrete.quoted "12884901889");
                    ("home_domain", Concrete.quoted "example.org") ].

Definition HTTP_Get (target : string) : http_Response + error :=
  inl (200, account_body).

Definition HTTP_PostForm (target : string) (form : Values) : http_Response + error :=
  inl (200, Concrete.object []).

Definition StatusCode (resp : http_Response) : Z := fst resp.

Definition decodeResponse (resp : http_Response) (T : GoType)
  : GoValue * option error :=
  json_Unmarshal Concrete.json_syntax (snd resp) T.

Definition Account : GoType :=
  TStruct [ field "ID" "id" TString;
            field "Sequence" "sequence" TString;
            field "HomeDomain" "home_domain" TString ].

Definition OffersPage : GoType := TStruct [].
Definition OrderBookSummary : GoType := TStruct [].
Definition TransactionSuccess : GoType := TStruct [].

(** [xdr.SequenceNumber] as a 64-bit integer with a sign. *)
Definition xdr_SequenceNumber (seq : Z) : Z := (seq + 2 ^ 63) mod 2 ^ 64 - 2 ^ 63.

(** Two assets. *)
Definition native : GoValue :=
  VStruct [ ("Type", VString "native"); ("Code", VString EmptyString);
            ("Issuer", VString EmptyString) ].

Definition usd : GoValue :=
  VStruct [ ("Type", VString "credit_alphanum4"); ("Code", VString "USD");
            ("Issuer", VString "GXYZ") ].

(** What the JSON reader of [Concrete] makes of a payload. *)
Definition document (data : string) : json :=
  match json_scan Concrete.json_syntax data with
  | Some doc => doc
  | None => JNull
  end.

(** The records that the decoders return for three payloads of [Concrete]. *)
Definition trade : Effect :=
  EffectPtr TradeEffect
    (fst (json_Unmarshal Concrete.json_syntax Concrete.trade_effect
            (TStruct (effect_fields Concrete.Link TradeEffect)))).

Definition thresholds : Effect :=
  EffectPtr AccountCreatedEffect
    (fst (json_Unmarshal Concrete.json_syntax
            Concrete.account_thresholds_updated_effect
            (TStruct (effect_fields Concrete.Link AccountCreatedEffect)))).

Definition payment : Operation :=
  OperationPtr PaymentOperation
    (fst (json_Unmarshal Concrete.json_syntax Concrete.payment_operation
            (TStruct (operation_fields Concrete.Link Concrete.Asset Concrete.Price
                        Concrete.time_Parse PaymentOperation)))).

(** The errors of the two payloads that the decoders refuse. *)
Definition unknown_effect_type : error :=
  errors_Errorf "unknown effect type %d" (VString "sequence_bumped").

Definition unknown_operation_type : error :=
  errors_Errorf "unknown operation type %d" (VInt 11).

(** The runs of the Stream functions on the scripts above: up to the record
    refused, and up to the second request. *)
Definition effects_taken : list step :=
  [ Sent (Concrete.request "https://horizon.example/effects?");
    Polled false; Handled Concrete.trade_effect None;
    Polled false ].

Definition operations_taken : list step :=
  [ Sent (Concrete.request "https://horizon.example/operations?");
    Polled false; Handled Concrete.payment_operation None;
    Polled false ].

Definition effects_first_connection : list step :=
  [ Sent (Concrete.request "https://horizon.example/effects?");
    Polled false; Handled Concrete.trade_effect None ].

Definition operations_first_connection : list step :=
  [ Sent (Concrete.request "https://horizon.example/operations?");
    Polled false; Handled Concrete.payment_operation None ].

(** How both runs over a lost connection end: the second body is empty. *)
Definition empty_body : outcome :=
  Returned (Some (withMessage json_SyntaxError "error unmarshaling objectBytes")).

(** A row of a transaction without signatures and without time bounds, and
    a link builder to fill a resource with: a link is its text. *)
Definition unsigned_row : history.Transaction unit :=
  history.mkTransaction unit "17a6" "12884905984" 3 tt "GABC" "12884901889"
    100 1 "AAAA" "AAAA" "AAAA" "AAAA" "none"
    (mk_null_String EmptyString false) EmptyString
    (mk_null_Int 0 false) (mk_null_Int 0 false) 1.

Definition lb_Link (parts : list string) : string := String.concat "/" parts.

Definition lb_Linkf (format arg : string) : string :=
  String.append format (String.append " " arg).

(** A server that has no name for any type. *)
Definition no_names (row_Type : Z) : option string := None.

End Samples.

(** ** Proof steps *)

(** A property of every field of a list of fields: one case for each field,
    settled by computation when the field has the type asked for. *)
Ltac each_field Hin f :=
  repeat (destruct Hin as [Hin|Hin];
          [subst f; intros Hty; cbn in Hty;
           try discriminate Hty; try subst; vm_compute; reflexivity|]);
  contradiction.

(** * Properties *)

(** ** Struct values *)

Lemma get_set_same (fs : list (string * GoValue)) (name : string) (old v : GoValue) :
  get fs name = Some old -> get (set fs name v) name = Some v.
Proof.
  induction fs as [|[n w] fs IH]; simpl; [discriminate|].
  destruct (String.eqb n name) eqn:E; simpl; rewrite E; auto.
Qed.

Lemma get_set_other (fs : list (string * GoValue)) (name other : string) (v : GoValue) :
  name <> other -> get (set fs name v) other = get fs other.
Proof.
  intros Hne. induction fs as [|[n w] fs IH]; simpl; [reflexivity|].
  destruct (String.eqb n name) eqn:E; simpl.
  - apply String.eqb_eq in E. subst n.
    destruct (String.eqb name other) eqn:E'; [|reflexivity].
    apply String.eqb_eq in E'. contradiction.
  - now rewrite IH.
Qed.

(** The zero value of a struct holds the zero value of the first field of
    each name. *)
Lemma get_zero (fs : list Field) (name : string) :
  get (struct_fields (zero (TStruct fs))) name =
  option_map (fun f => zero (field_type f))
    (find (fun f => String.eqb (field_name f) name) fs).
Proof.
  simpl. induction fs as [|[[n k] t] fs IH]; simpl; [reflexivity|].
  unfold field_name at 1. simpl.
  destruct (String.eqb n name); [reflexivity|]. exact IH.
Qed.

(** ** Which field a member goes to *)

Section StringField.

Variables (name key : string) (fs : list Field).
Hypothesis Hok : string_field_ok name key fs = true.

Lemma ok_key_normal : foldName key = key.
Proof.
  unfold string_field_ok in Hok.
  repeat (apply andb_prop in Hok; destruct Hok as [Hok ?]).
  now apply String.eqb_eq.
Qed.

Lemma ok_field (f : Field) :
  In f fs ->
  foldName (field_key f) = field_key f /\
  (field_name f = name <-> field_key f = key) /\
  (field_key f = key -> field_type f = TString).
Proof.
  intros Hin. unfold string_field_ok in Hok.
  repeat (apply andb_prop in Hok; destruct Hok as [Hok ?]).
  repeat match goal with
         | H : forallb _ fs = true |- _ =>
             rewrite forallb_forall in H; specialize (H f Hin)
         end.
  split; [now apply String.eqb_eq|]. split.
  - apply Bool.eqb_prop in H0. rewrite <- !String.eqb_eq. rewrite H0. tauto.
  - intros Hk. apply String.eqb_eq in Hk. rewrite Hk in H.
    destruct (field_type f); try discriminate; reflexivity.
Qed.

Lemma ok_exists : exists f, In f fs /\ field_key f = key.
Proof.
  unfold string_field_ok in Hok.
  repeat (apply andb_prop in Hok; destruct Hok as [Hok ?]).
  apply existsb_exists in H2. destruct H2 as [f [Hin Hk]].
  exists f. split; [assumption|now apply String.eqb_eq].
Qed.

(** A member whose key names the field goes to it. *)
Lemma find_field_matches (k : string) :
  key_matches k key = true ->
  exists f, find_field fs k = Some f /\ field_name f = name /\ field_type f = TString.
Proof.
  intros Hm.
  assert (Hfold : foldName k = key).
  { unfold key_matches in Hm. apply orb_prop in Hm. destruct Hm as [H|H];
      apply String.eqb_eq in H.
    - subst k. apply ok_key_normal.
    - rewrite ok_key_normal in H. exact H. }
  unfold find_field.
  destruct (find (fun f => String.eqb (field_key f) k) fs) as [f|] eqn:Ef.
  - apply find_some in Ef. destruct Ef as [Hin Hk]. apply String.eqb_eq in Hk.
    destruct (ok_field f Hin) as [Hn [Hnk Ht]].
    assert (field_key f = key) by (rewrite <- Hn, Hk; exact Hfold).
    exists f. split; [reflexivity|]. split; [now apply Hnk | now apply Ht].
  - destruct ok_exists as [g [Hg Hgk]].
    destruct (find (fun f => String.eqb (foldName (field_key f)) (foldName k)) fs)
      as [f|] eqn:Ef2.
    + apply find_some in Ef2. destruct Ef2 as [Hin Hk]. apply String.eqb_eq in Hk.
      destruct (ok_field f Hin) as [Hn [Hnk Ht]].
      assert (field_key f = key) by (rewrite <- Hn, Hk; exact Hfold).
      exists f. split; [reflexivity|]. split; [now apply Hnk | now apply Ht].
    + exfalso. eapply find_none in Ef2; [|exact Hg]. simpl in Ef2.
      destruct (ok_field g Hg) as [Hn _].
      rewrite Hn, Hgk, Hfold in Ef2. rewrite String.eqb_refl in Ef2. discriminate.
Qed.

(** A member that goes to the field has a key that names it. *)
Lemma find_field_named (k : string) (f : Field) :
  find_field fs k = Some f -> field_name f = name -> key_matches k key = true.
Proof.
  intros Hf Hname. unfold find_field in Hf. unfold key_matches.
  destruct (find (fun f => String.eqb (field_key f) k) fs) as [g|] eqn:Ef.
  - inversion Hf; subst g. apply find_some in Ef. destruct Ef as [Hin Hk].
    apply String.eqb_eq in Hk. destruct (ok_field f Hin) as [_ [Hnk _]].
    apply Hnk in Hname. rewrite <- Hk, Hname, String.eqb_refl. reflexivity.
  - apply find_some in Hf. destruct Hf as [Hin Hk]. apply String.eqb_eq in Hk.
    destruct (ok_field f Hin) as [_ [Hnk _]]. apply Hnk in Hname.
    rewrite Hname in Hk. rewrite <- Hk, String.eqb_refl. apply orb_true_r.
Qed.

End StringField.

(** ** The decoder and the members of the document *)

Lemma first_error_None (a b : option error) :
  first_error a b = None -> a = None /\ b = None.
Proof. destruct a; simpl; intros H; [discriminate|auto]. Qed.

(** An error met is never forgotten. *)
Lemma object_members_error dec fs ms cur e :
  snd (object_members dec fs ms cur (Some e)) = Some e.
Proof.
  revert cur. induction ms as [|[k m] ms IH]; intros cur; simpl; [reflexivity|].
  destruct (find_field fs k) as [f|]; [|apply IH].
  destruct (dec m (field_type f) _) as [v e']. simpl. apply IH.
Qed.

Lemma decode_TString (j : json) (old : GoValue) (v : GoValue) :
  decode j TString old = (v, None) ->
  match j with
  | JString s => v = VString s
  | JNull => v = old
  | _ => False
  end.
Proof. destruct j; simpl; unfold mismatch; intros H; inversion H; auto. Qed.

(** Decoding an object leaves in a string field the last string the
    document stores under the field's name. *)
Lemma object_members_string (name key : string) (fs : list Field) :
  string_field_ok name key fs = true ->
  forall ms cur err cur' acc,
    get cur name = Some (VString acc) ->
    object_members decode fs ms cur err = (cur', None) ->
    get cur' name = Some (VString (last_string key ms acc)).
Proof.
  intros Hok. induction ms as [|[k m] ms IH]; intros cur err cur' acc Hget Hrun.
  - simpl in *. inversion Hrun; subst. exact Hget.
  - simpl in Hrun.
    destruct (find_field fs k) as [f|] eqn:Ef.
    + destruct (decode m (field_type f) _) as [v e] eqn:Ed.
      assert (Herr : first_error err e = None).
      { destruct (first_error err e) as [x|] eqn:E; [|reflexivity].
        pose proof (object_members_error decode fs ms (set cur (field_name f) v) x) as P.
        rewrite Hrun in P. simpl in P. discriminate. }
      apply first_error_None in Herr. destruct Herr as [-> ->].
      destruct (String.eqb (field_name f) name) eqn:En.
      * apply String.eqb_eq in En.
        pose proof (find_field_named name key fs Hok k f Ef En) as Hm.
        destruct (find_field_matches name key fs Hok k Hm) as [g [Hg [_ Ht]]].
        rewrite Ef in Hg. inversion Hg; subst g.
        rewrite En, Hget, Ht in Ed. apply decode_TString in Ed.
        rewrite En in Hrun.
        destruct m; try contradiction; subst v; simpl; [|rewrite Hm].
        -- eapply IH; [|exact Hrun]. eapply get_set_same; exact Hget.
        -- eapply IH; [|exact Hrun]. eapply get_set_same; exact Hget.
      * assert (Hm : key_matches k key = false).
        { destruct (key_matches k key) eqn:Hm; [|reflexivity].
          destruct (find_field_matches name key fs Hok k Hm) as [g [Hg [Hn _]]].
          rewrite Ef in Hg. inversion Hg; subst g.
          rewrite Hn, String.eqb_refl in En. discriminate. }
        assert (Hl : last_string key ((k, m) :: ms) acc = last_string key ms acc).
        { simpl. destruct m; try reflexivity. now rewrite Hm. }
        rewrite Hl. eapply IH; [|exact Hrun].
        rewrite get_set_other; [exact Hget|].
        intros Heq. rewrite Heq, String.eqb_refl in En. discriminate.
    + assert (Hm : key_matches k key = false).
      { destruct (key_matches k key) eqn:Hm; [|reflexivity].
        destruct (find_field_matches name key fs Hok k Hm) as [g [Hg _]].
        rewrite Ef in Hg. discriminate. }
      assert (Hl : last_string key ((k, m) :: ms) acc = last_string key ms acc).
      { simpl. destruct m; try reflexivity. now rewrite Hm. }
      rewrite Hl. eapply IH; [exact Hget|exact Hrun].
Qed.

(** [json.Unmarshal] into a struct that has a string field named [key]
    leaves in it the string the document stores under [key]. *)
Lemma decode_member_string (name key : string) (fs : list Field) (doc : json)
    (v : GoValue) :
  string_field_ok name key fs = true ->
  decode doc (TStruct fs) (zero (TStruct fs)) = (v, None) ->
  string_field v name = member_string key doc.
Proof.
  intros Hok Hd.
  assert (Hz : get (struct_fields (zero (TStruct fs))) name = Some (VString EmptyString)).
  { rewrite get_zero.
    destruct (ok_exists name key fs Hok) as [g [Hg Hgk]].
    destruct (find (fun f => String.eqb (field_name f) name) fs) as [f|] eqn:Ef.
    - apply find_some in Ef. destruct Ef as [Hin Hn]. apply String.eqb_eq in Hn.
      destruct (ok_field name key fs Hok f Hin) as [_ [Hnk Ht]].
      simpl. rewrite Ht; [reflexivity|now apply Hnk].
    - eapply find_none in Ef; [|exact Hg]. simpl in Ef.
      destruct (ok_field name key fs Hok g Hg) as [_ [Hnk _]].
      apply Hnk in Hgk. rewrite Hgk, String.eqb_refl in Ef. discriminate. }
  destruct doc; simpl in Hd; unfold mismatch in Hd; try discriminate.
  - inversion Hd; subst v. unfold string_field. simpl in Hz |- *. now rewrite Hz.
  - destruct (object_members decode fs members _ None) as [cur' err] eqn:Em.
    inversion Hd; subst v err. unfold string_field, member_string. simpl.
    erewrite object_members_string; eauto.
Qed.

Lemma json_Unmarshal_member_string (json_syntax : string -> option json)
    (name key : string) (fs : list Field) (data : string) (v : GoValue) :
  string_field_ok name key fs = true ->
  json_Unmarshal json_syntax data (TStruct fs) = (v, None) ->
  exists doc, json_scan json_syntax data = Some doc /\
              string_field v name = member_string key doc.
Proof.
  intros Hok Hu. unfold json_Unmarshal in Hu.
  destruct (json_scan json_syntax data) as [doc|]; [|inversion Hu].
  exists doc. split; [reflexivity|]. eapply decode_member_string; eauto.
Qed.

(** ** The record decoder *)

Lemma switch_not_in {K A : Type} (eqb : K -> K -> bool) (tag : K)
    (cases : list (K * A)) :
  (forall a b, eqb a b = true -> a = b) ->
  ~ In tag (map fst cases) -> switch eqb tag cases = None.
Proof.
  intros Heq. induction cases as [|[c a] cases IH]; simpl; intros Hn; [reflexivity|].
  destruct (eqb tag c) eqn:E.
  - apply Heq in E. subst. exfalso. apply Hn. now left.
  - apply IH. intros H. apply Hn. now right.
Qed.

Lemma errors_Wrap_None (err : option error) (msg : string) :
  errors_Wrap err msg = None -> err = None.
Proof. destruct err; simpl; [discriminate|reflexivity]. Qed.

Lemma effect_fields_Type (Link : GoType) (T : EffectStruct) :
  string_field_ok "Type" "type" (effect_fields Link T) = true.
Proof. destruct T; vm_compute; reflexivity. Qed.


Lemma switch_agree {A : Type} (k t : string) (l1 l2 : list (string * A)) :
  Forall2 (fun a b => fst a = fst b /\ (fst a <> k -> snd a = snd b)) l1 l2 ->
  t <> k -> switch String.eqb t l1 = switch String.eqb t l2.
Proof.
  intros H Hne. induction H as [|[c1 a1] [c2 a2] l1 l2 [Hc Ha] _ IH]; [reflexivity|].
  simpl in *. subst c2. destruct (String.eqb t c1) eqn:E; [|exact IH].
  apply String.eqb_eq in E. subst c1. now rewrite Ha.
Qed.

(** Every case of [UnmarshalEffect] but one allocates the struct named after
    its discriminator. *)
Lemma other_effect_cases_match (t : string) :
  t <> "account_thresholds_updated" ->
  switch String.eqb t UnmarshalEffect_cases = switch String.eqb t effect_variant_named.
Proof.
  apply switch_agree.
  repeat (constructor;
          [split; [reflexivity|intros H; try reflexivity; now contradiction H]|]).
  constructor.
Qed.

Section Decoder.

Variables Link Asset Price : GoType.
Variable time_Parse : string -> bool.
Variable xdr : xdr_constants.
Variable json_syntax : string -> option json.

(** C1, as the code has it: a payload whose discriminator has no case in
    the [switch] gives no record; [UnmarshalEffect] and [UnmarshalOperation]
    return nil and an "unknown effect type" or "unknown operation type"
    error. *)
Theorem unknown_discriminator_is_an_error (data : string) (discriminator : GoValue) :
  (json_Unmarshal json_syntax data (TStruct [ field "Type" "type" TString ])
     = (discriminator, None) ->
   ~ In (string_field discriminator "Type") (map fst UnmarshalEffect_cases) ->
   UnmarshalEffect Link json_syntax data =
     (None, Some (errors_Errorf "unknown effect type %d"
                    (VString (string_field discriminator "Type")))))
  /\
  (json_Unmarshal json_syntax data (TStruct [ field "TypeI" "type_i" int32 ])
     = (discriminator, None) ->
   ~ In (int_field discriminator "TypeI") (map fst (UnmarshalOperation_cases xdr)) ->
   UnmarshalOperation Link Asset Price time_Parse xdr json_syntax data =
     (None, Some (errors_Errorf "unknown operation type %d"
                    (VInt (int_field discriminator "TypeI"))))).
Proof.
  split; intros Hd Hn.
  - unfold UnmarshalEffect. rewrite Hd.
    rewrite switch_not_in; [reflexivity| |exact Hn].
    intros a b. apply String.eqb_eq.
  - unfold UnmarshalOperation. rewrite Hd.
    rewrite switch_not_in; [reflexivity| |exact Hn].
    intros a b. apply Z.eqb_eq.
Qed.


End Decoder.

(** ** Logs *)

Lemma split_last {A : Type} (l pre post : list A) (x y : A) :
  l ++ [x] = pre ++ y :: post ->
  (post = [] /\ pre = l /\ y = x) \/
  (exists post', post = post' ++ [x] /\ l = pre ++ y :: post').
Proof.
  intros H. induction post as [|z post' _] using rev_ind.
  - left. apply app_inj_tail in H. destruct H as [-> ->]. auto.
  - right. exists post'.
    rewrite app_comm_cons, app_assoc in H.
    apply app_inj_tail in H. destruct H as [H ->]. auto.
Qed.

Lemma last_handled_app (l : list step) (ev : step) (acc : option string) :
  last_handled (l ++ [ev]) acc =
  match ev with
  | Handled data _ => Some data
  | _ => last_handled l acc
  end.
Proof.
  revert acc. induction l as [|e l IH]; intros acc; simpl.
  - destruct ev; reflexivity.
  - destruct e; apply IH.
Qed.

Lemma last_delivered_app (l : list step) (ev : step) :
  last_delivered (l ++ [ev]) =
  match ev with
  | Handled data _ => Some data
  | _ => last_delivered l
  end.
Proof. apply last_handled_app. Qed.

Lemma count_sent_app (l : list step) (ev : step) :
  count_sent (l ++ [ev]) = (count_sent l + if is_Sent ev then 1 else 0)%nat.
Proof.
  unfold count_sent. rewrite filter_app, length_app. simpl.
  destruct (is_Sent ev); reflexivity.
Qed.

Lemma calm_app (l : list step) (ev : step) :
  Forall calm l -> calm ev -> Forall calm (l ++ [ev]).
Proof. intros Hl He. apply Forall_app. split; [assumption|]. now constructor. Qed.

Lemma not_calm_last (l : list step) (ev : step) :
  Forall calm (l ++ [ev]) -> calm ev.
Proof.
  intros H. apply Forall_app in H. destruct H as [_ H]. now inversion H.
Qed.

Section Logs.

Variable json_syntax : string -> option json.
Variable ctx_Done : list step -> bool.
Variable baseURL : string.
Variable handler : list step -> string -> option error.
Variable cursor : option string.

Lemma log_ok_nil : log_ok json_syntax ctx_Done baseURL handler cursor [].
Proof. intros pre ev post H. destruct pre; discriminate H. Qed.

Lemma log_ok_app (log : list step) (ev : step) :
  log_ok json_syntax ctx_Done baseURL handler cursor log ->
  step_ok json_syntax ctx_Done baseURL handler cursor log ev ->
  log_ok json_syntax ctx_Done baseURL handler cursor (log ++ [ev]).
Proof.
  intros Hlog Hev pre e post Heq. apply split_last in Heq.
  destruct Heq as [[_ [-> ->]]|[post' [_ ->]]]; [exact Hev|].
  eapply Hlog. reflexivity.
Qed.

End Logs.

(** ** The frame loop *)

Section StreamProperties.

Variable url_Parse : string -> option error.
Variable parseEvent : string -> sse_Event + error.
Variable json_syntax : string -> option json.
Variable ctx_Done : list step -> bool.
Variable baseURL : string.
Variable handler : list step -> string -> option error.
Variable cursor : option string.

Lemma app_not_nil (log : list step) (ev : step) : log ++ [ev] <> [].
Proof. intros H. now apply app_eq_nil in H. Qed.

(** A step that is no request can be counted with what the loop did. *)
Lemma scan_ok_step (log log' : list step) (ev : step) (ex : scan_exit) :
  is_Sent ev = false ->
  scan_ok json_syntax ctx_Done baseURL handler cursor (log ++ [ev]) log' ex ->
  scan_ok json_syntax ctx_Done baseURL handler cursor log log' ex.
Proof.
  intros Hev [H1 [H2 [H3 H4]]]. rewrite count_sent_app, Hev in H2.
  split; [assumption|]. split; [lia|]. split; [|assumption].
  intros _. apply H3, app_not_nil.
Qed.

Lemma scan_ok_stop (log : list step) (r : option error) :
  log_ok json_syntax ctx_Done baseURL handler cursor log ->
  ended_ok log (Returned r) ->
  scan_ok json_syntax ctx_Done baseURL handler cursor log log (Return r).
Proof.
  intros H1 H2. split; [assumption|]. split; [reflexivity|].
  split; [auto|exact H2].
Qed.

(** The frame loop keeps the log in order, sends nothing, and leaves in
    [objectBytes] the last object it gave to the handler. *)
Lemma stream_scan_ok (bodyFrames : list string) :
  forall (objectBytes : string) (log log' : list step) (ex : scan_exit),
    stream_scan parseEvent ctx_Done handler bodyFrames objectBytes log = (log', ex) ->
    log_ok json_syntax ctx_Done baseURL handler cursor log ->
    Forall calm log ->
    (objectBytes <> EmptyString -> last_delivered log = Some objectBytes) ->
    scan_ok json_syntax ctx_Done baseURL handler cursor log log' ex.
Proof.
  induction bodyFrames as [|bytes rest IH]; intros ob log log' ex Hrun Hlog Hcalm Hob.
  - simpl in Hrun. inversion Hrun; subst.
    split; [assumption|]. split; [reflexivity|]. split; auto.
  - simpl in Hrun. destruct (ctx_Done log) eqn:Hc.
    + inversion Hrun; subst.
      apply scan_ok_step with (ev := Polled true); [reflexivity|].
      apply scan_ok_stop.
      * apply log_ok_app; [assumption|]. split; [assumption|]. now rewrite Hc.
      * right. left. now exists log.
    + apply scan_ok_step with (ev := Polled false); [reflexivity|].
      assert (Hlog1 : log_ok json_syntax ctx_Done baseURL handler cursor
                        (log ++ [Polled false])).
      { apply log_ok_app; [assumption|]. split; [assumption|]. now rewrite Hc. }
      assert (Hcalm1 : Forall calm (log ++ [Polled false])).
      { apply calm_app; simpl; auto. }
      assert (Hob1 : ob <> EmptyString ->
                     last_delivered (log ++ [Polled false]) = Some ob).
      { intros H. rewrite last_delivered_app. auto. }
      assert (Hdeliver : forall data,
                 match handler (log ++ [Polled false]) data with
                 | Some _ =>
                     ((log ++ [Polled false]) ++
                        [Handled data (handler (log ++ [Polled false]) data)],
                      Return (handler (log ++ [Polled false]) data))
                 | None =>
                     stream_scan parseEvent ctx_Done handler rest data
                       ((log ++ [Polled false]) ++
                          [Handled data (handler (log ++ [Polled false]) data)])
                 end = (log', ex) ->
                 scan_ok json_syntax ctx_Done baseURL handler cursor
                   (log ++ [Polled false]) log' ex).
      { intros data Hd.
        apply scan_ok_step
          with (ev := Handled data (handler (log ++ [Polled false]) data));
          [reflexivity|].
        assert (Hlog2 : log_ok json_syntax ctx_Done baseURL handler cursor
                          ((log ++ [Polled false]) ++
                             [Handled data (handler (log ++ [Polled false]) data)])).
        { apply log_ok_app; [assumption|].
          split; [assumption|]. split; [reflexivity|]. now exists log. }
        destruct (handler (log ++ [Polled false]) data) as [e|] eqn:Hh.
        - inversion Hd; subst. apply scan_ok_stop; [assumption|].
          right. right. now exists (log ++ [Polled false]), data, e.
        - eapply IH; [exact Hd|assumption| |].
          + apply calm_app; simpl; auto.
          + intros _. now rewrite last_delivered_app. }
      destruct (Nat.eqb (String.length bytes) 0).
      { eapply IH; eauto. }
      destruct (parseEvent bytes) as [ev|err].
      2:{ inversion Hrun; subst. apply scan_ok_stop; [assumption|now left]. }
      destruct (negb (String.eqb (Event ev) "message")).
      { eapply IH; eauto. }
      destruct (Data ev) as [data|data|].
      * apply (Hdeliver data). exact Hrun.
      * apply (Hdeliver data). exact Hrun.
      * inversion Hrun; subst. apply scan_ok_stop; [assumption|now left].
Qed.

(** ** The loop of requests *)

(** An object from which a position is read is not empty. *)
Lemma paging_token_not_empty (data position : string) :
  paging_token json_syntax data = Some position -> data <> EmptyString.
Proof. intros H ->. discriminate H. Qed.

Lemma paging_token_Unmarshal (data : string) (object : GoValue) :
  json_Unmarshal json_syntax data (TStruct [ field "PT" "paging_token" TString ])
    = (object, None) ->
  paging_token json_syntax data = Some (string_field object "PT").
Proof. intros H. unfold paging_token. now rewrite H. Qed.

(** The position read from an object is the string its document stores
    under "paging_token". *)
Lemma paging_token_member (data position : string) :
  paging_token json_syntax data = Some position ->
  exists doc, json_scan json_syntax data = Some doc /\
              position = member_string "paging_token" doc.
Proof.
  unfold paging_token.
  destruct (json_Unmarshal json_syntax data
              (TStruct [ field "PT" "paging_token" TString ]))
    as [object [err|]] eqn:Hu; [discriminate|].
  intros H. inversion H; subst position.
  apply json_Unmarshal_member_string with (name := "PT") (key := "paging_token") in Hu;
    [exact Hu|reflexivity].
Qed.

(** The request of a turn of the loop is as [step_ok] says, and the query
    holds no key but [cursor]. *)
Lemma sent_ok (query : Values) (log : list step) (req : Request) :
  log_ok json_syntax ctx_Done baseURL handler cursor log ->
  Forall calm log ->
  query_ok json_syntax cursor query log ->
  http_NewRequest url_Parse "GET"
    (String.append baseURL (String.append "?" (Values_Encode query))) = inl req ->
  log_ok json_syntax ctx_Done baseURL handler cursor
    (log ++ [Sent (Header_Set req "Accept" "text/event-stream")]) /\
  Forall calm (log ++ [Sent (Header_Set req "Accept" "text/event-stream")]) /\
  forall c, Values_Set query "cursor" c = [("cursor", [c])].
Proof.
  intros Hlog Hcalm Hq Hreq. unfold http_NewRequest in Hreq.
  destruct (url_Parse _); [discriminate|]. inversion Hreq; subst req. clear Hreq.
  assert (Hshape : (log = [] /\
                    query = match cursor with
                            | Some c => [("cursor", [c])]
                            | None => []
                            end) \/
                   (log <> [] /\
                    exists data position,
                      last_delivered log = Some data /\
                      paging_token json_syntax data = Some position /\
                      position <> EmptyString /\
                      query = [("cursor", [position])])).
  { destruct log as [|e l]; simpl in Hq.
    - left. split; [reflexivity|]. destruct cursor; exact Hq.
    - right. split; [discriminate|exact Hq]. }
  split; [|split].
  - apply log_ok_app; [assumption|]. split; [assumption|].
    split; [reflexivity|]. split; [reflexivity|].
    unfold Header_Set. cbn [URL]. split.
    + intros Hnil. destruct Hshape as [[_ ->]|[Hne _]]; [|contradiction].
      unfold first_URL, cursor_URL. destruct cursor; reflexivity.
    + intros Hne. destruct Hshape as [[Hnil _]|[_ [data [position [H1 [H2 [H3 ->]]]]]]];
        [contradiction|].
      exists data, position. repeat split; auto.
  - apply calm_app; simpl; auto.
  - intros c. destruct Hshape as [[_ ->]|[_ [data [position [_ [_ [_ ->]]]]]]].
    + destruct cursor; reflexivity.
    + reflexivity.
Qed.

(** Whatever the script, the log of the loop is in order, and a
    cancellation seen or an error of the handler ends it. *)
Lemma stream_loop_ok (script : list (Response + error)) :
  forall (query : Values) (log log' : list step) (out : outcome),
    stream_loop url_Parse parseEvent json_syntax ctx_Done baseURL handler
      script query log = (log', out) ->
    log_ok json_syntax ctx_Done baseURL handler cursor log ->
    Forall calm log ->
    query_ok json_syntax cursor query log ->
    log_ok json_syntax ctx_Done baseURL handler cursor log' /\
    ended_ok log' out.
Proof.
  induction script as [|answer rest IH]; intros query log log' out Hrun Hlog Hcalm Hq;
    cbn [stream_loop] in Hrun;
    destruct (http_NewRequest url_Parse "GET"
                (String.append baseURL (String.append "?" (Values_Encode query))))
      as [req|err] eqn:Hreq;
    try (inversion Hrun; subst; split; [assumption|now left]);
    destruct (sent_ok query log req Hlog Hcalm Hq Hreq) as [Hlog1 [Hcalm1 Hset]].
  - inversion Hrun; subst. split; [assumption|now left].
  - destruct answer as [resp|err]; [|inversion Hrun; subst; split; [assumption|now left]].
    destruct (stream_scan parseEvent ctx_Done handler (frames resp) EmptyString
                (log ++ [Sent (Header_Set req "Accept" "text/event-stream")]))
      as [log2 ex] eqn:Hscan.
    apply stream_scan_ok in Hscan; [|assumption|assumption|intros H; now contradiction H].
    destruct Hscan as [Hlog2 [_ [Hne2 Hex]]].
    destruct ex as [r|ob].
    + inversion Hrun; subst. auto.
    + destruct Hex as [Hcalm2 Hob].
      destruct (is_nil (scanner_Err resp) || is_ErrUnexpectedEOF (scanner_Err resp))%bool;
        [|inversion Hrun; subst; split; [assumption|now left]].
      destruct (json_Unmarshal json_syntax ob
                  (TStruct [ field "PT" "paging_token" TString ]))
        as [object [e|]] eqn:Hu;
        [inversion Hrun; subst; split; [assumption|now left]|].
      apply paging_token_Unmarshal in Hu.
      destruct (String.eqb (string_field object "PT") EmptyString) eqn:Hpt; simpl in Hrun;
        [inversion Hrun; subst; split; [assumption|now left]|].
      eapply IH; [exact Hrun|assumption|assumption|].
      rewrite Hset.
      destruct log2 as [|e l] eqn:El; [exfalso; apply Hne2; [apply app_not_nil|reflexivity]|].
      simpl. exists ob, (string_field object "PT").
      repeat split; auto.
      * rewrite <- El in *. apply Hob. eapply paging_token_not_empty; eauto.
      * intros H. rewrite H in Hpt. discriminate.
Qed.

(** The log of a run is in order. *)
Lemma stream_ok (script : list (Response + error)) (log : list step) (out : outcome) :
  stream url_Parse parseEvent json_syntax ctx_Done baseURL handler script cursor
    = (log, out) ->
  log_ok json_syntax ctx_Done baseURL handler cursor log /\ ended_ok log out.
Proof.
  intros Hrun. unfold stream in Hrun.
  eapply stream_loop_ok; [exact Hrun|apply log_ok_nil|constructor|reflexivity].
Qed.

(** ** What the frame loop leaves behind *)

Lemma last_handled_acc (evs : list step) (acc : option string) :
  last_handled evs acc =
  match last_handled evs None with
  | Some data => Some data
  | None => acc
  end.
Proof.
  revert acc. induction evs as [|ev evs IH]; intros acc; simpl; [reflexivity|].
  destruct ev; try apply IH.
  rewrite (IH (Some data)). destruct (last_handled evs None); reflexivity.
Qed.

(** The frame loop adds steps to the log, none of them a request, and when
    the body is read to its end [objectBytes] is the object of the last call
    of the handler in these steps. *)
Lemma stream_scan_adds (bodyFrames : list string) :
  forall (objectBytes : string) (log log' : list step) (ex : scan_exit),
    stream_scan parseEvent ctx_Done handler bodyFrames objectBytes log = (log', ex) ->
    exists evs,
      log' = log ++ evs /\
      filter is_Sent evs = [] /\
      forall ob, ex = Exhausted ob ->
                 ob = match last_delivered evs with
                      | Some data => data
                      | None => objectBytes
                      end.
Proof.
  induction bodyFrames as [|bytes rest IH]; intros ob0 log log' ex Hrun.
  - simpl in Hrun. inversion Hrun; subst. exists []. rewrite app_nil_r.
    repeat split. intros ob H. now inversion H.
  - simpl in Hrun. destruct (ctx_Done log).
    { inversion Hrun; subst. exists [Polled true]. repeat split. discriminate. }
    assert (Hnext : forall ob1,
               stream_scan parseEvent ctx_Done handler rest ob1 (log ++ [Polled false])
                 = (log', ex) ->
               ob1 = ob0 ->
               exists evs,
                 log' = log ++ evs /\ filter is_Sent evs = [] /\
                 forall ob, ex = Exhausted ob ->
                            ob = match last_delivered evs with
                                 | Some data => data
                                 | None => ob0
                                 end).
    { intros ob1 H ->. apply IH in H. destruct H as [evs [-> [Hf Hob]]].
      exists (Polled false :: evs). rewrite <- app_assoc. repeat split; auto. }
    assert (Hstop : forall r,
               (log ++ [Polled false], Return r) = (log', ex) ->
               exists evs,
                 log' = log ++ evs /\ filter is_Sent evs = [] /\
                 forall ob, ex = Exhausted ob ->
                            ob = match last_delivered evs with
                                 | Some data => data
                                 | None => ob0
                                 end).
    { intros r H. inversion H; subst. exists [Polled false]. repeat split. discriminate. }
    assert (Hdeliver : forall data,
               match handler (log ++ [Polled false]) data with
               | Some _ =>
                   ((log ++ [Polled false]) ++
                      [Handled data (handler (log ++ [Polled false]) data)],
                    Return (handler (log ++ [Polled false]) data))
               | None =>
                   stream_scan parseEvent ctx_Done handler rest data
                     ((log ++ [Polled false]) ++
                        [Handled data (handler (log ++ [Polled false]) data)])
               end = (log', ex) ->
               exists evs,
                 log' = log ++ evs /\ filter is_Sent evs = [] /\
                 forall ob, ex = Exhausted ob ->
                            ob = match last_delivered evs with
                                 | Some data => data
                                 | None => ob0
                                 end).
    { intros data Hd. destruct (handler (log ++ [Polled false]) data) as [e|].
      - inversion Hd; subst. exists [Polled false; Handled data (Some e)].
        rewrite <- app_assoc. repeat split. discriminate.
      - apply IH in Hd. destruct Hd as [evs [-> [Hf Hob]]].
        exists (Polled false :: Handled data None :: evs).
        rewrite <- !app_assoc. repeat split; auto.
        intros ob H. rewrite (Hob ob H). unfold last_delivered. simpl.
        rewrite (last_handled_acc evs (Some data)).
        destruct (last_handled evs None); reflexivity. }
    destruct (Nat.eqb (String.length bytes) 0); [now apply (Hnext ob0)|].
    destruct (parseEvent bytes) as [ev|err]; [|now apply (Hstop (Some err))].
    destruct (negb (String.eqb (Event ev) "message")); [now apply (Hnext ob0)|].
    destruct (Data ev) as [data|data|].
    + now apply (Hdeliver data).
    + now apply (Hdeliver data).
    + eapply Hstop; exact Hrun.
Qed.

Lemma stream_scan_sends_nothing (bodyFrames : list string) (objectBytes : string)
    (log log' : list step) (ex : scan_exit) :
  stream_scan parseEvent ctx_Done handler bodyFrames objectBytes log = (log', ex) ->
  count_sent log' = count_sent log.
Proof.
  intros H. apply stream_scan_adds in H. destruct H as [evs [-> [Hf _]]].
  unfold count_sent. rewrite filter_app, length_app, Hf. simpl. lia.
Qed.

(** Frames read to their end without a [return] can be read first. *)
Lemma stream_scan_app (before after : list string) :
  forall (objectBytes ob : string) (log log' : list step),
    stream_scan parseEvent ctx_Done handler before objectBytes log
      = (log', Exhausted ob) ->
    stream_scan parseEvent ctx_Done handler (before ++ after) objectBytes log
      = stream_scan parseEvent ctx_Done handler after ob log'.
Proof.
  induction before as [|bytes rest IH]; intros ob0 ob log log' Hrun.
  - simpl in Hrun. inversion Hrun; subst. reflexivity.
  - simpl in Hrun |- *. destruct (ctx_Done log); [discriminate|].
    destruct (Nat.eqb (String.length bytes) 0); [now apply IH|].
    destruct (parseEvent bytes) as [ev|err]; [|discriminate].
    destruct (negb (String.eqb (Event ev) "message")); [now apply IH|].
    destruct (Data ev) as [data|data|]; [| |discriminate];
      (destruct (handler (log ++ [Polled false]) data); [discriminate|now apply IH]).
Qed.

(** A step that cannot be followed is the last of the log. *)
Lemma not_calm_is_last (log pre post : list step) (ev : step) :
  log_ok json_syntax ctx_Done baseURL handler cursor log ->
  log = pre ++ ev :: post ->
  ~ calm ev ->
  post = [].
Proof.
  intros Hlog Heq Hev. destruct post as [|ev' post]; [reflexivity|].
  exfalso. apply Hev.
  assert (H : log = (pre ++ [ev]) ++ ev' :: post) by (rewrite <- app_assoc; exact Heq).
  apply Hlog in H. destruct H as [H _]. now apply not_calm_last in H.
Qed.

Lemma ended_with (log pre : list step) (ev : step) (out : outcome) :
  ended_ok log out ->
  log = pre ++ [ev] ->
  ~ calm ev ->
  match ev with
  | Polled _ => out = Returned None
  | Handled _ ret => out = Returned ret
  | Sent _ => False
  end.
Proof.
  intros Hend Heq Hev. subst log.
  destruct Hend as [H|[[l [H ->]]|[l [data [e [H ->]]]]]].
  - apply not_calm_last in H. contradiction.
  - apply app_inj_tail in H. destruct H as [_ ->]. reflexivity.
  - apply app_inj_tail in H. destruct H as [_ ->]. reflexivity.
Qed.

(** ** The claims about the stream *)

(** C3: in every run, the cursor of a request that is not the first is the
    "paging_token" of the object most recently given to the handler. *)
Theorem reconnect_resumes_at_the_last_delivered_record
    (script : list (Response + error)) (log : list step) (out : outcome)
    (pre post : list step) (req : Request) :
  stream url_Parse parseEvent json_syntax ctx_Done baseURL handler script cursor
    = (log, out) ->
  log = pre ++ Sent req :: post ->
  pre <> [] ->
  exists data doc,
    last_delivered pre = Some data /\
    json_scan json_syntax data = Some doc /\
    member_string "paging_token" doc <> EmptyString /\
    URL req = cursor_URL baseURL (member_string "paging_token" doc).
Proof.
  intros Hrun Heq Hne. apply stream_ok in Hrun. destruct Hrun as [Hlog _].
  apply Hlog in Heq. destruct Heq as [_ [_ [_ [_ H]]]].
  destruct (H Hne) as [data [position [H1 [H2 [H3 H4]]]]].
  destruct (paging_token_member data position H2) as [doc [Hd ->]].
  now exists data, doc.
Qed.

(** After a record: when a body is read to its end and the scanner reports
    no error or an unexpected EOF, and the handler was given an object on
    that connection whose "paging_token" can be read, what follows is decided
    by the last such object: with a "paging_token" that is not empty the loop
    goes on with it as the cursor; with an empty one, or none, the run
    returns the error "no paging_token in object: cannot continue". *)
Theorem resumption_follows_the_last_object_of_the_connection
    (resp : Response) (rest : list (Response + error)) (query : Values)
    (log evs : list step) (req : Request) (objectBytes data position : string) :
  http_NewRequest url_Parse "GET"
    (String.append baseURL (String.append "?" (Values_Encode query))) = inl req ->
  stream_scan parseEvent ctx_Done handler (frames resp) EmptyString
    (log ++ [Sent (Header_Set req "Accept" "text/event-stream")])
    = ((log ++ [Sent (Header_Set req "Accept" "text/event-stream")]) ++ evs,
       Exhausted objectBytes) ->
  last_delivered evs = Some data ->
  scanner_Err resp = None \/ scanner_Err resp = Some io_ErrUnexpectedEOF ->
  paging_token json_syntax data = Some position ->
  (position <> EmptyString ->
   stream_loop url_Parse parseEvent json_syntax ctx_Done baseURL handler
     (inl resp :: rest) query log
   = stream_loop url_Parse parseEvent json_syntax ctx_Done baseURL handler
       rest (Values_Set query "cursor" position)
       ((log ++ [Sent (Header_Set req "Accept" "text/event-stream")]) ++ evs))
  /\
  (position = EmptyString ->
   stream_loop url_Parse parseEvent json_syntax ctx_Done baseURL handler
     (inl resp :: rest) query log
   = ((log ++ [Sent (Header_Set req "Accept" "text/event-stream")]) ++ evs,
      Returned (Some (errors_New "no paging_token in object: cannot continue")))).
Proof.
  intros Hreq Hscan Hlast Herr Hpt.
  assert (Hob : objectBytes = data).
  { pose proof (stream_scan_adds _ _ _ _ _ Hscan) as [evs' [Heq [_ Hob]]].
    apply app_inv_head in Heq. subst evs'.
    rewrite (Hob objectBytes eq_refl), Hlast. reflexivity. }
  subst objectBytes.
  assert (Hres : (is_nil (scanner_Err resp)
                  || is_ErrUnexpectedEOF (scanner_Err resp))%bool = true).
  { destruct Herr as [-> | ->]; reflexivity. }
  unfold paging_token in Hpt.
  destruct (json_Unmarshal json_syntax data
              (TStruct [ field "PT" "paging_token" TString ]))
    as [object [e|]] eqn:Hu; [discriminate|].
  assert (Hp : string_field object "PT" = position) by congruence. clear Hpt.
  split; intros H; cbn [stream_loop]; rewrite Hreq, Hscan, Hres, Hu, Hp.
  - destruct (String.eqb position EmptyString) eqn:E; [|reflexivity].
    apply String.eqb_eq in E. contradiction.
  - rewrite H. reflexivity.
Qed.

(** Without a record: when a body is read to its end, the scanner reports
    no error or an unexpected EOF, and the handler was given no object on
    that connection, [objectBytes] is still nil, [json.Unmarshal] refuses
    it, and the run returns "error unmarshaling objectBytes", whatever the
    query holds and whatever the script has next. *)
Lemma body_without_a_record_ends_the_run
    (resp : Response) (rest : list (Response + error)) (query : Values)
    (log evs : list step) (req : Request) (objectBytes : string) :
  http_NewRequest url_Parse "GET"
    (String.append baseURL (String.append "?" (Values_Encode query))) = inl req ->
  stream_scan parseEvent ctx_Done handler (frames resp) EmptyString
    (log ++ [Sent (Header_Set req "Accept" "text/event-stream")])
    = ((log ++ [Sent (Header_Set req "Accept" "text/event-stream")]) ++ evs,
       Exhausted objectBytes) ->
  last_delivered evs = None ->
  scanner_Err resp = None \/ scanner_Err resp = Some io_ErrUnexpectedEOF ->
  stream_loop url_Parse parseEvent json_syntax ctx_Done baseURL handler
    (inl resp :: rest) query log
  = ((log ++ [Sent (Header_Set req "Accept" "text/event-stream")]) ++ evs,
     Returned (Some (withMessage json_SyntaxError "error unmarshaling objectBytes"))).
Proof.
  intros Hreq Hscan Hlast Herr.
  assert (Hob : objectBytes = EmptyString).
  { pose proof (stream_scan_adds _ _ _ _ _ Hscan) as [evs' [Heq [_ Hob]]].
    apply app_inv_head in Heq. subst evs'.
    rewrite (Hob objectBytes eq_refl), Hlast. reflexivity. }
  subst objectBytes.
  assert (Hres : (is_nil (scanner_Err resp)
                  || is_ErrUnexpectedEOF (scanner_Err resp))%bool = true).
  { destruct Herr as [-> | ->]; reflexivity. }
  cbn [stream_loop]. rewrite Hreq, Hscan, Hres. reflexivity.
Qed.

(** C5, as the code has it: a frame that [parseEvent] refuses ends the
    run, which returns the error of [parseEvent]; the frames after it are
    not read. *)
Theorem parse_error_ends_the_run
    (resp : Response) (rest : list (Response + error)) (query : Values)
    (log log' : list step) (req : Request)
    (before after : list string) (bytes objectBytes : string) (err : error) :
  http_NewRequest url_Parse "GET"
    (String.append baseURL (String.append "?" (Values_Encode query))) = inl req ->
  frames resp = before ++ bytes :: after ->
  stream_scan parseEvent ctx_Done handler before EmptyString
    (log ++ [Sent (Header_Set req "Accept" "text/event-stream")])
    = (log', Exhausted objectBytes) ->
  ctx_Done log' = false ->
  bytes <> EmptyString ->
  parseEvent bytes = inr err ->
  stream_loop url_Parse parseEvent json_syntax ctx_Done baseURL handler
    (inl resp :: rest) query log
  = (log' ++ [Polled false], Returned (Some err)).
Proof.
  intros Hreq Hfr Hscan Hc Hne Hp.
  cbn [stream_loop]. rewrite Hreq, Hfr.
  rewrite (stream_scan_app _ _ _ _ _ _ Hscan).
  cbn [stream_scan]. rewrite Hc, Hp.
  destruct bytes; [contradiction|reflexivity].
Qed.

(** C6: in every run, an error returned by the handler is the last step:
    the run returns that error, the handler is not called again and no
    request follows. *)
Theorem handler_error_ends_the_run
    (script : list (Response + error)) (log : list step) (out : outcome)
    (pre post : list step) (data : string) (e : error) :
  stream url_Parse parseEvent json_syntax ctx_Done baseURL handler script cursor
    = (log, out) ->
  log = pre ++ Handled data (Some e) :: post ->
  handler pre data = Some e /\ post = [] /\ out = Returned (Some e).
Proof.
  intros Hrun Heq. apply stream_ok in Hrun. destruct Hrun as [Hlog Hend].
  assert (Hpost : post = []).
  { eapply not_calm_is_last; [exact Hlog|exact Heq|]. simpl. auto. }
  subst post. split; [|split; [reflexivity|]].
  - apply Hlog in Heq. destruct Heq as [_ [H _]]. now symmetry.
  - eapply (ended_with log pre (Handled data (Some e))); eauto.
Qed.

(** C7: in every run, the handler is called only after a poll that found
    the context open; a poll says what the context is at that time; and a
    poll that finds it closed is the last step, after which the run has
    returned nil.  In the frame loop, a closed context is seen before the
    frame at hand is looked at. *)
Theorem cancellation_is_polled_before_each_frame
    (script : list (Response + error)) (log : list step) (out : outcome) :
  stream url_Parse parseEvent json_syntax ctx_Done baseURL handler script cursor
    = (log, out) ->
  (forall pre data ret post,
      log = pre ++ Handled data ret :: post ->
      exists pre', pre = pre' ++ [Polled false] /\ ctx_Done pre' = false)
  /\
  (forall pre post,
      log = pre ++ Polled true :: post ->
      ctx_Done pre = true /\ post = [] /\ out = Returned None)
  /\
  (forall bytes rest objectBytes l,
      ctx_Done l = true ->
      stream_scan parseEvent ctx_Done handler (bytes :: rest) objectBytes l
      = (l ++ [Polled true], Return None)).
Proof.
  intros Hrun. apply stream_ok in Hrun. destruct Hrun as [Hlog Hend].
  split; [|split].
  - intros pre data ret post Heq. pose proof (Hlog _ _ _ Heq) as [_ [_ [pre' Hp]]].
    exists pre'. split; [assumption|].
    subst pre. rewrite <- app_assoc in Heq. simpl in Heq.
    apply Hlog in Heq. destruct Heq as [_ H]. now symmetry.
  - intros pre post Heq.
    assert (Hpost : post = []).
    { eapply not_calm_is_last; [exact Hlog|exact Heq|]. simpl. auto. }
    subst post. split; [|split; [reflexivity|]].
    + apply Hlog in Heq. destruct Heq as [_ H]. now symmetry.
    + eapply (ended_with log pre (Polled true)); eauto.
  - intros bytes rest ob l Hc. cbn [stream_scan]. now rewrite Hc.
Qed.

(** The requests of the loop beyond the first tell how the bodies before
    them ended. *)
Lemma reconnects_after_resumable_errors (script : list (Response + error)) :
  forall (query : Values) (log log' : list step) (out : outcome) (k : nat),
    stream_loop url_Parse parseEvent json_syntax ctx_Done baseURL handler
      script query log = (log', out) ->
    (count_sent log + S k < count_sent log')%nat ->
    exists resp,
      nth_error script k = Some (inl resp) /\
      (scanner_Err resp = None \/ scanner_Err resp = Some io_ErrUnexpectedEOF).
Proof.
  induction script as [|answer rest IH]; intros query log log' out k Hrun Hk;
    cbn [stream_loop] in Hrun;
    destruct (http_NewRequest url_Parse "GET"
                (String.append baseURL (String.append "?" (Values_Encode query))))
      as [req|err];
    try (inversion Hrun; subst; lia).
  - inversion Hrun; subst. rewrite count_sent_app in Hk. simpl in Hk. lia.
  - destruct answer as [resp|err].
    2:{ inversion Hrun; subst. rewrite count_sent_app in Hk. simpl in Hk. lia. }
    destruct (stream_scan parseEvent ctx_Done handler (frames resp) EmptyString
                (log ++ [Sent (Header_Set req "Accept" "text/event-stream")]))
      as [log2 ex] eqn:Hscan.
    apply stream_scan_sends_nothing in Hscan.
    rewrite count_sent_app in Hscan. simpl in Hscan.
    destruct ex as [r|ob]; [inversion Hrun; subst; lia|].
    destruct (scanner_Err resp) as [e|] eqn:He.
    + destruct e; simpl in Hrun; try (inversion Hrun; subst; lia).
      destruct (json_Unmarshal json_syntax ob _) as [object [e|]];
        [inversion Hrun; subst; lia|].
      destruct (negb (String.eqb (string_field object "PT") EmptyString));
        [|inversion Hrun; subst; lia].
      destruct k as [|k].
      * exists resp. rewrite He. auto.
      * apply (IH _ _ _ _ k) in Hrun; [|lia].
        destruct Hrun as [resp' [H1 H2]]. exists resp'. auto.
    + simpl in Hrun.
      destruct (json_Unmarshal json_syntax ob _) as [object [e|]];
        [inversion Hrun; subst; lia|].
      destruct (negb (String.eqb (string_field object "PT") EmptyString));
        [|inversion Hrun; subst; lia].
      destruct k as [|k].
      * exists resp. rewrite He. auto.
      * apply (IH _ _ _ _ k) in Hrun; [|lia].
        destruct Hrun as [resp' [H1 H2]]. exists resp'. auto.
Qed.

(** C8: when a body is read to its end and the scanner reports an error
    other than an unexpected EOF, the run returns that error at once; and in
    every run a request beyond the first is sent only after a body whose
    scanner reported no error or an unexpected EOF. *)
Theorem other_scanner_errors_end_the_run
    (script : list (Response + error)) (log : list step) (out : outcome) :
  (forall resp rest query l l' req objectBytes e,
      http_NewRequest url_Parse "GET"
        (String.append baseURL (String.append "?" (Values_Encode query))) = inl req ->
      stream_scan parseEvent ctx_Done handler (frames resp) EmptyString
        (l ++ [Sent (Header_Set req "Accept" "text/event-stream")])
        = (l', Exhausted objectBytes) ->
      scanner_Err resp = Some e ->
      e <> io_ErrUnexpectedEOF ->
      stream_loop url_Parse parseEvent json_syntax ctx_Done baseURL handler
        (inl resp :: rest) query l
      = (l', Returned (Some e)))
  /\
  (stream url_Parse parseEvent json_syntax ctx_Done baseURL handler script cursor
     = (log, out) ->
   forall k,
     (S k < count_sent log)%nat ->
     exists resp,
       nth_error script k = Some (inl resp) /\
       (scanner_Err resp = None \/ scanner_Err resp = Some io_ErrUnexpectedEOF)).
Proof.
  split.
  - intros resp rest query l l' req ob e Hreq Hscan He Hne.
    cbn [stream_loop]. rewrite Hreq, Hscan, He.
    destruct e; try reflexivity. contradiction.
  - intros Hrun k Hk. unfold stream in Hrun.
    eapply reconnects_after_resumable_errors; [exact Hrun|]. simpl. exact Hk.
Qed.

(** C9, as the code has it: every request is a GET with the header
    [Accept: text/event-stream]; the first one carries the caller's cursor
    as the [cursor] parameter, even an empty one, and carries no [cursor]
    parameter when the caller gave no cursor; every later one carries a
    position that is not empty. *)
Theorem every_request_is_a_GET_for_an_event_stream
    (script : list (Response + error)) (log : list step) (out : outcome)
    (pre post : list step) (req : Request) :
  stream url_Parse parseEvent json_syntax ctx_Done baseURL handler script cursor
    = (log, out) ->
  log = pre ++ Sent req :: post ->
  Method req = "GET" /\
  Header_Get req "Accept" = Some "text/event-stream" /\
  (pre = [] ->
   URL req = match cursor with
             | Some c => cursor_URL baseURL c
             | None => String.append baseURL "?"
             end) /\
  (pre <> [] ->
   exists position,
     position <> EmptyString /\ URL req = cursor_URL baseURL position).
Proof.
  intros Hrun Heq. apply stream_ok in Hrun. destruct Hrun as [Hlog _].
  apply Hlog in Heq. destruct Heq as [_ [H1 [H2 [H3 H4]]]].
  repeat split; auto.
  intros Hne. destruct (H4 Hne) as [data [position [_ [_ [H5 H6]]]]].
  now exists position.
Qed.

End StreamProperties.

(** ** The decoder, run on payloads *)

(** C1, as the specification has it, fails: an effect of a kind without a
    case ("sequence_bumped") is not decoded into a record tagged "unknown";
    [UnmarshalEffect] returns nil and an error. *)
Lemma unknown_effect_type_is_refused :
  UnmarshalEffect Concrete.Link Concrete.json_syntax Concrete.sequence_bumped_effect
  = (None, Some (errors_Errorf "unknown effect type %d" (VString "sequence_bumped"))).
Proof. vm_compute. reflexivity. Qed.

(** The theorem for C1 at that effect, and at an operation numbered 11
    ("bump_sequence"), for which [UnmarshalOperation] has no case. *)
Lemma unknown_discriminator_witness :
  UnmarshalEffect Concrete.Link Concrete.json_syntax Concrete.sequence_bumped_effect
  = (None, Some (errors_Errorf "unknown effect type %d" (VString "sequence_bumped")))
  /\
  UnmarshalOperation Concrete.Link Concrete.Asset Concrete.Price Concrete.time_Parse
    Concrete.xdr Concrete.json_syntax Concrete.bump_sequence_operation
  = (None, Some (errors_Errorf "unknown operation type %d" (VInt 11))).
Proof.
  split.
  - apply (proj1 (unknown_discriminator_is_an_error
                    Concrete.Link Concrete.Asset Concrete.Price Concrete.time_Parse
                    Concrete.xdr Concrete.json_syntax
                    Concrete.sequence_bumped_effect
                    (VStruct [("Type", VString "sequence_bumped")]))).
    + vm_compute. reflexivity.
    + vm_compute. intros Hin.
      repeat (destruct Hin as [Hin|Hin]; [discriminate Hin|]). exact Hin.
  - apply (proj2 (unknown_discriminator_is_an_error
                    Concrete.Link Concrete.Asset Concrete.Price Concrete.time_Parse
                    Concrete.xdr Concrete.json_syntax
                    Concrete.bump_sequence_operation
                    (VStruct [("TypeI", VInt 11)]))).
    + vm_compute. reflexivity.
    + vm_compute. intros Hin.
      repeat (destruct Hin as [Hin|Hin]; [discriminate Hin|]). exact Hin.
Defined.

(** C2 fails for one discriminator: for "account_thresholds_updated" the
    struct named after it is [AccountThresholdsUpdatedEffect], the case of
    the [switch] allocates an [AccountCreatedEffect], and so [UnmarshalEffect]
    returns, without an error, an [AccountCreatedEffect], which has no field
    for the thresholds the payload carries. *)
Theorem account_thresholds_updated_is_decoded_as_account_created :
  switch String.eqb "account_thresholds_updated" effect_variant_named
    = Some AccountThresholdsUpdatedEffect
  /\ switch String.eqb "account_thresholds_updated" UnmarshalEffect_cases
     = Some AccountCreatedEffect
  /\ snd (UnmarshalEffect Concrete.Link Concrete.json_syntax
            Concrete.account_thresholds_updated_effect) = None
  /\ option_map effect_struct
       (fst (UnmarshalEffect Concrete.Link Concrete.json_syntax
               Concrete.account_thresholds_updated_effect))
     = Some AccountCreatedEffect
  /\ option_map (fun e => get (struct_fields (effect_value e)) "LowThreshold")
       (fst (UnmarshalEffect Concrete.Link Concrete.json_syntax
               Concrete.account_thresholds_updated_effect))
     = Some None.
Proof. vm_compute. repeat split. Qed.


(** ** The stream, run on scripts *)

(** The theorem for C3 at a run that loses its connection after two
    records: the second request asks for the position of the second record. *)
Lemma reconnect_resumes_witness :
  exists data doc,
    last_delivered Concrete.first_connection = Some data /\
    json_scan Concrete.json_syntax data = Some doc /\
    member_string "paging_token" doc <> EmptyString /\
    URL (Concrete.request "https://horizon.example/effects?cursor=11")
    = cursor_URL Concrete.effects_URL (member_string "paging_token" doc).
Proof.
  apply (reconnect_resumes_at_the_last_delivered_record
           Concrete.url_Parse Concrete.parseEvent Concrete.json_syntax
           Concrete.never_done Concrete.effects_URL Concrete.take_all None
           Concrete.lost_after_two
           (Concrete.first_connection
              ++ Sent (Concrete.request "https://horizon.example/effects?cursor=11")
              :: Concrete.second_connection)
           Waiting
           Concrete.first_connection Concrete.second_connection
           (Concrete.request "https://horizon.example/effects?cursor=11")).
  - vm_compute. reflexivity.
  - reflexivity.
  - discriminate.
Defined.

(** C4 fails on the code, by a slip: the run starts at the position "100";
    on the first connection the handler is given nothing, because the body
    ends before any frame or holds only an event that is no message, and the
    body ends without an error or by a lost connection.  The position held
    is not empty, a record waits on the next connection, and yet the run does
    not reconnect: [stream] reads the position from the object of the
    connection, of which there is none, and returns "error unmarshaling
    objectBytes" after one request.  The comment in [stream] says that it
    starts streaming from the next object if there was no error or if the
    connection was lost, and after a record it does. *)
Theorem held_position_is_not_resumed_without_a_record :
  Concrete.run Concrete.never_done Concrete.take_all Concrete.nothing_sent
    (Some "100")
  = ([ Sent (Concrete.request "https://horizon.example/effects?cursor=100") ],
     Returned (Some (withMessage json_SyntaxError "error unmarshaling objectBytes")))
  /\
  Concrete.run Concrete.never_done Concrete.take_all Concrete.open_then_lost
    (Some "100")
  = ([ Sent (Concrete.request "https://horizon.example/effects?cursor=100");
       Polled false ],
     Returned (Some (withMessage json_SyntaxError "error unmarshaling objectBytes"))).
Proof. vm_compute. split; reflexivity. Qed.

(** A record without a "paging_token" ends the run with the error made for
    it, also when the run was started at a position: the run starts at
    "100", the handler takes such a record, the server closes the stream,
    and the run returns the error with one request sent. *)
Lemma record_without_a_position_ends_the_run :
  Concrete.run Concrete.never_done Concrete.take_all Concrete.no_position (Some "100")
  = ([ Sent (Concrete.request "https://horizon.example/effects?cursor=100");
       Polled false;
       Handled (Concrete.object [ ("id", Concrete.quoted "1") ]) None ],
     Returned (Some (errors_New "no paging_token in object: cannot continue"))).
Proof. vm_compute. reflexivity. Qed.

(** After a record the loop goes on: at a script that loses its connection
    after two records, the loop goes on after the first body with the cursor
    "11". *)
Lemma resumption_after_two_records :
  stream_loop Concrete.url_Parse Concrete.parseEvent Concrete.json_syntax
    Concrete.never_done Concrete.effects_URL Concrete.take_all
    Concrete.lost_after_two [] []
  = stream_loop Concrete.url_Parse Concrete.parseEvent Concrete.json_syntax
      Concrete.never_done Concrete.effects_URL Concrete.take_all
      [ inl (mkResponse [ Concrete.data_frame (Concrete.record "3" "12") ] None) ]
      (Values_Set [] "cursor" "11")
      (([] ++ [ Sent (Header_Set
                        (mkRequest "GET" "https://horizon.example/effects?" [])
                        "Accept" "text/event-stream") ])
         ++ [ Polled false; Handled (Concrete.record "1" "10") None;
              Polled false; Handled (Concrete.record "2" "11") None ]).
Proof.
  apply (proj1 (resumption_follows_the_last_object_of_the_connection
                  Concrete.url_Parse Concrete.parseEvent Concrete.json_syntax
                  Concrete.never_done Concrete.effects_URL Concrete.take_all
                  (mkResponse [ Concrete.data_frame (Concrete.record "1" "10");
                                Concrete.data_frame (Concrete.record "2" "11") ]
                     (Some io_ErrUnexpectedEOF))
                  [ inl (mkResponse [ Concrete.data_frame (Concrete.record "3" "12") ]
                           None) ]
                  [] []
                  [ Polled false; Handled (Concrete.record "1" "10") None;
                    Polled false; Handled (Concrete.record "2" "11") None ]
                  (mkRequest "GET" "https://horizon.example/effects?" [])
                  (Concrete.record "2" "11") (Concrete.record "2" "11") "11"
                  ltac:(vm_compute; reflexivity)
                  ltac:(vm_compute; reflexivity)
                  ltac:(vm_compute; reflexivity)
                  ltac:(right; reflexivity)
                  ltac:(vm_compute; reflexivity))).
  discriminate.
Defined.

(** C5, as the specification has it, fails: a frame that is no label:value
    line is not skipped; the run returns the error of the frame parser, and
    the record in the next frame never reaches the handler. *)
Lemma malformed_frame_ends_the_run :
  Concrete.run Concrete.never_done Concrete.take_all Concrete.malformed_frame None
  = ([ Sent (Concrete.request "https://horizon.example/effects?"); Polled false ],
     Returned (Some Concrete.FramingError)).
Proof. vm_compute. reflexivity. Qed.

(** The theorem for C5 at that script. *)
Lemma parse_error_witness :
  stream_loop Concrete.url_Parse Concrete.parseEvent Concrete.json_syntax
    Concrete.never_done Concrete.effects_URL Concrete.take_all
    Concrete.malformed_frame [] []
  = ([ Sent (Concrete.request "https://horizon.example/effects?") ] ++ [ Polled false ],
     Returned (Some Concrete.FramingError)).
Proof.
  apply (parse_error_ends_the_run
           Concrete.url_Parse Concrete.parseEvent Concrete.json_syntax
           Concrete.never_done Concrete.effects_URL Concrete.take_all
           (mkResponse [ "garbage"; Concrete.data_frame (Concrete.record "1" "10") ] None)
           [] [] []
           [ Sent (Concrete.request "https://horizon.example/effects?") ]
           (mkRequest "GET" "https://horizon.example/effects?" [])
           [] [ Concrete.data_frame (Concrete.record "1" "10") ]
           "garbage" EmptyString Concrete.FramingError).
  - vm_compute. reflexivity.
  - reflexivity.
  - vm_compute. reflexivity.
  - reflexivity.
  - discriminate.
  - vm_compute. reflexivity.
Defined.

(** The theorem for C6 at a run of five records whose handler fails at the
    fourth. *)
Lemma handler_error_witness :
  Concrete.fail_at 4 Concrete.before_fourth (Concrete.record "4" "13")
    = Some Concrete.disk_full
  /\ @nil step = []
  /\ snd (Concrete.run Concrete.never_done (Concrete.fail_at 4)
            Concrete.five_records None)
     = Returned (Some Concrete.disk_full).
Proof.
  apply (handler_error_ends_the_run
           Concrete.url_Parse Concrete.parseEvent Concrete.json_syntax
           Concrete.never_done Concrete.effects_URL (Concrete.fail_at 4) None
           Concrete.five_records
           (fst (Concrete.run Concrete.never_done (Concrete.fail_at 4)
                   Concrete.five_records None))
           (snd (Concrete.run Concrete.never_done (Concrete.fail_at 4)
                   Concrete.five_records None))
           Concrete.before_fourth [] (Concrete.record "4" "13") Concrete.disk_full).
  - apply surjective_pairing.
  - vm_compute. reflexivity.
Defined.

(** The theorem for C7 at a run of five records whose context is cancelled
    once two records are handled. *)
Lemma cancellation_witness :
  Concrete.done_after 2 Concrete.first_connection = true
  /\ @nil step = []
  /\ snd (Concrete.run (Concrete.done_after 2) Concrete.take_all
            Concrete.five_records None)
     = Returned None.
Proof.
  apply (proj1 (proj2 (cancellation_is_polled_before_each_frame
           Concrete.url_Parse Concrete.parseEvent Concrete.json_syntax
           (Concrete.done_after 2) Concrete.effects_URL Concrete.take_all None
           Concrete.five_records
           (fst (Concrete.run (Concrete.done_after 2) Concrete.take_all
                   Concrete.five_records None))
           (snd (Concrete.run (Concrete.done_after 2) Concrete.take_all
                   Concrete.five_records None))
           (surjective_pairing _)))).
  vm_compute. reflexivity.
Defined.

(** The theorem for C8 at a body that ends with a timeout, and at the run
    that loses its connection after two records. *)
Lemma other_scanner_errors_witness :
  stream_loop Concrete.url_Parse Concrete.parseEvent Concrete.json_syntax
    Concrete.never_done Concrete.effects_URL Concrete.take_all
    Concrete.read_error [] []
  = ([ Sent (Concrete.request "https://horizon.example/effects?");
       Polled false; Handled (Concrete.record "1" "10") None ],
     Returned (Some Concrete.timed_out))
  /\
  exists resp,
    nth_error Concrete.lost_after_two 0 = Some (inl resp) /\
    (scanner_Err resp = None \/ scanner_Err resp = Some io_ErrUnexpectedEOF).
Proof.
  split.
  - apply (proj1 (other_scanner_errors_end_the_run
                    Concrete.url_Parse Concrete.parseEvent Concrete.json_syntax
                    Concrete.never_done Concrete.effects_URL Concrete.take_all None
                    [] [] Waiting)
             (mkResponse [ Concrete.data_frame (Concrete.record "1" "10") ]
                (Some Concrete.timed_out))
             [ inl (mkResponse [ Concrete.data_frame (Concrete.record "2" "11") ] None) ]
             [] []
             [ Sent (Concrete.request "https://horizon.example/effects?");
               Polled false; Handled (Concrete.record "1" "10") None ]
             (mkRequest "GET" "https://horizon.example/effects?" [])
             (Concrete.record "1" "10") Concrete.timed_out).
    + vm_compute. reflexivity.
    + vm_compute. reflexivity.
    + reflexivity.
    + discriminate.
  - apply (proj2 (other_scanner_errors_end_the_run
                    Concrete.url_Parse Concrete.parseEvent Concrete.json_syntax
                    Concrete.never_done Concrete.effects_URL Concrete.take_all None
                    Concrete.lost_after_two
                    (fst (Concrete.run Concrete.never_done Concrete.take_all
                            Concrete.lost_after_two None))
                    (snd (Concrete.run Concrete.never_done Concrete.take_all
                            Concrete.lost_after_two None)))
             (surjective_pairing _) 0%nat).
    vm_compute. lia.
Defined.

(** C9, as the specification has it, fails: a caller that passes a pointer
    to an empty cursor gets a request with a [cursor] parameter, although
    the position is empty. *)
Lemma empty_cursor_is_sent :
  Concrete.run Concrete.never_done Concrete.take_all [] (Some EmptyString)
  = ([ Sent (Concrete.request "https://horizon.example/effects?cursor=") ], Waiting).
Proof. vm_compute. reflexivity. Qed.

(** The theorem for C9 at the second request of the run that loses its
    connection after two records. *)
Lemma every_request_witness :
  Method (Concrete.request "https://horizon.example/effects?cursor=11") = "GET" /\
  Header_Get (Concrete.request "https://horizon.example/effects?cursor=11") "Accept"
    = Some "text/event-stream" /\
  (Concrete.first_connection = [] ->
   URL (Concrete.request "https://horizon.example/effects?cursor=11")
   = String.append Concrete.effects_URL "?") /\
  (Concrete.first_connection <> [] ->
   exists position,
     position <> EmptyString /\
     URL (Concrete.request "https://horizon.example/effects?cursor=11")
     = cursor_URL Concrete.effects_URL position).
Proof.
  apply (every_request_is_a_GET_for_an_event_stream
           Concrete.url_Parse Concrete.parseEvent Concrete.json_syntax
           Concrete.never_done Concrete.effects_URL Concrete.take_all None
           Concrete.lost_after_two
           (Concrete.first_connection
              ++ Sent (Concrete.request "https://horizon.example/effects?cursor=11")
              :: Concrete.second_connection)
           Waiting
           Concrete.first_connection Concrete.second_connection
           (Concrete.request "https://horizon.example/effects?cursor=11")).
  - vm_compute. reflexivity.
  - reflexivity.
Defined.

(** * More properties *)

(** ** Fields of either kind *)

Section FieldOk.

Variable kind : GoType -> bool.
Variables (name key : string) (fs : list Field).
Hypothesis Hok : field_ok kind name key fs = true.

Lemma field_ok_parts :
  foldName key = key /\
  (exists f, In f fs /\ field_key f = key) /\
  forall f, In f fs ->
            foldName (field_key f) = field_key f /\
            (field_name f = name <-> field_key f = key) /\
            (field_key f = key -> kind (field_type f) = true).
Proof.
  unfold field_ok in Hok.
  apply andb_prop in Hok. destruct Hok as [H H5].
  apply andb_prop in H. destruct H as [H H4].
  apply andb_prop in H. destruct H as [H H3].
  apply andb_prop in H. destruct H as [H1 H2].
  split; [now apply String.eqb_eq|]. split.
  - apply existsb_exists in H2. destruct H2 as [f [Hin Hk]].
    exists f. split; [assumption|now apply String.eqb_eq].
  - intros f Hin.
    rewrite forallb_forall in H3, H4, H5.
    specialize (H3 f Hin). specialize (H4 f Hin). specialize (H5 f Hin).
    split; [now apply String.eqb_eq|]. split.
    + apply Bool.eqb_prop in H4. rewrite <- !String.eqb_eq. rewrite H4. tauto.
    + intros Hk. apply String.eqb_eq in Hk. now rewrite Hk in H5.
Qed.

(** A member whose key names the field goes to it. *)
Lemma field_ok_matches (k : string) :
  key_matches k key = true ->
  exists f, find_field fs k = Some f /\ field_name f = name /\
            kind (field_type f) = true.
Proof.
  intros Hm. destruct field_ok_parts as [Hkey [[g [Hg Hgk]] Hall]].
  assert (Hfold : foldName k = key).
  { unfold key_matches in Hm. apply orb_prop in Hm. destruct Hm as [H|H];
      apply String.eqb_eq in H.
    - subst k. exact Hkey.
    - rewrite Hkey in H. exact H. }
  unfold find_field.
  destruct (find (fun f => String.eqb (field_key f) k) fs) as [f|] eqn:Ef.
  - apply find_some in Ef. destruct Ef as [Hin Hk]. apply String.eqb_eq in Hk.
    destruct (Hall f Hin) as [Hn [Hnk Ht]].
    assert (field_key f = key) by (rewrite <- Hn, Hk; exact Hfold).
    exists f. split; [reflexivity|]. split; [now apply Hnk | now apply Ht].
  - destruct (find (fun f => String.eqb (foldName (field_key f)) (foldName k)) fs)
      as [f|] eqn:Ef2.
    + apply find_some in Ef2. destruct Ef2 as [Hin Hk]. apply String.eqb_eq in Hk.
      destruct (Hall f Hin) as [Hn [Hnk Ht]].
      assert (field_key f = key) by (rewrite <- Hn, Hk; exact Hfold).
      exists f. split; [reflexivity|]. split; [now apply Hnk | now apply Ht].
    + exfalso. eapply find_none in Ef2; [|exact Hg]. simpl in Ef2.
      destruct (Hall g Hg) as [Hn _].
      rewrite Hn, Hgk, Hfold in Ef2. rewrite String.eqb_refl in Ef2. discriminate.
Qed.

(** A member that goes to the field has a key that names it. *)
Lemma field_ok_named (k : string) (f : Field) :
  find_field fs k = Some f -> field_name f = name -> key_matches k key = true.
Proof.
  intros Hf Hname. destruct field_ok_parts as [Hkey [_ Hall]].
  unfold find_field in Hf. unfold key_matches.
  destruct (find (fun f => String.eqb (field_key f) k) fs) as [g|] eqn:Ef.
  - inversion Hf; subst g. apply find_some in Ef. destruct Ef as [Hin Hk].
    apply String.eqb_eq in Hk. destruct (Hall f Hin) as [_ [Hnk _]].
    apply Hnk in Hname. rewrite <- Hk, Hname, String.eqb_refl. reflexivity.
  - apply find_some in Hf. destruct Hf as [Hin Hk]. apply String.eqb_eq in Hk.
    destruct (Hall f Hin) as [_ [Hnk _]]. apply Hnk in Hname.
    rewrite Hname in Hk. rewrite <- Hk, String.eqb_refl. apply orb_true_r.
Qed.

(** The struct has a first field of that name, of that kind. *)
Lemma field_ok_first :
  exists f, find (fun f => String.eqb (field_name f) name) fs = Some f /\
            kind (field_type f) = true.
Proof.
  destruct field_ok_parts as [_ [[g [Hg Hgk]] Hall]].
  destruct (find (fun f => String.eqb (field_name f) name) fs) as [f|] eqn:Ef.
  - exists f. split; [reflexivity|].
    apply find_some in Ef. destruct Ef as [Hin Hn]. apply String.eqb_eq in Hn.
    destruct (Hall f Hin) as [_ [Hnk Ht]]. apply Ht. now apply Hnk.
  - eapply find_none in Ef; [|exact Hg]. simpl in Ef.
    destruct (Hall g Hg) as [_ [Hnk _]].
    apply Hnk in Hgk. rewrite Hgk, String.eqb_refl in Ef. discriminate.
Qed.

End FieldOk.

Lemma is_TInt_inv (t : GoType) : is_TInt t = true -> exists bits, t = TInt bits.
Proof. destruct t; simpl; try discriminate. intros _. now exists bits. Qed.

Lemma decode_TInt (j : json) (bits : Z) (old v : GoValue) :
  decode j (TInt bits) old = (v, None) ->
  match j with
  | JInt z => v = VInt z
  | JNull => v = old
  | _ => False
  end.
Proof.
  destruct j; simpl; unfold mismatch; intros H; try (inversion H; auto; fail).
  destruct (fits bits z); inversion H; auto.
Qed.

(** Decoding an object leaves in an integer field the last integer the
    document stores under the field's name. *)
Lemma object_members_int (name key : string) (fs : list Field) :
  field_ok is_TInt name key fs = true ->
  forall ms cur err cur' acc,
    get cur name = Some (VInt acc) ->
    object_members decode fs ms cur err = (cur', None) ->
    get cur' name = Some (VInt (last_int key ms acc)).
Proof.
  intros Hok. induction ms as [|[k m] ms IH]; intros cur err cur' acc Hget Hrun.
  - simpl in *. inversion Hrun; subst. exact Hget.
  - simpl in Hrun.
    destruct (find_field fs k) as [f|] eqn:Ef.
    + destruct (decode m (field_type f) _) as [v e] eqn:Ed.
      assert (Herr : first_error err e = None).
      { destruct (first_error err e) as [x|] eqn:E; [|reflexivity].
        pose proof (object_members_error decode fs ms (set cur (field_name f) v) x) as P.
        rewrite Hrun in P. simpl in P. discriminate. }
      apply first_error_None in Herr. destruct Herr as [-> ->].
      destruct (String.eqb (field_name f) name) eqn:En.
      * apply String.eqb_eq in En.
        pose proof (field_ok_named is_TInt name key fs Hok k f Ef En) as Hm.
        destruct (field_ok_matches is_TInt name key fs Hok k Hm) as [g [Hg [_ Ht]]].
        rewrite Ef in Hg. inversion Hg; subst g.
        apply is_TInt_inv in Ht. destruct Ht as [bits Ht].
        rewrite En, Hget, Ht in Ed. apply decode_TInt in Ed.
        rewrite En in Hrun.
        destruct m; try contradiction; subst v; simpl; [|rewrite Hm].
        -- eapply IH; [|exact Hrun]. eapply get_set_same; exact Hget.
        -- eapply IH; [|exact Hrun]. eapply get_set_same; exact Hget.
      * assert (Hm : key_matches k key = false).
        { destruct (key_matches k key) eqn:Hm; [|reflexivity].
          destruct (field_ok_matches is_TInt name key fs Hok k Hm) as [g [Hg [Hn _]]].
          rewrite Ef in Hg. inversion Hg; subst g.
          rewrite Hn, String.eqb_refl in En. discriminate. }
        assert (Hl : last_int key ((k, m) :: ms) acc = last_int key ms acc).
        { simpl. destruct m; try reflexivity. now rewrite Hm. }
        rewrite Hl. eapply IH; [|exact Hrun].
        rewrite get_set_other; [exact Hget|].
        intros Heq. rewrite Heq, String.eqb_refl in En. discriminate.
    + assert (Hm : key_matches k key = false).
      { destruct (key_matches k key) eqn:Hm; [|reflexivity].
        destruct (field_ok_matches is_TInt name key fs Hok k Hm) as [g [Hg _]].
        rewrite Ef in Hg. discriminate. }
      assert (Hl : last_int key ((k, m) :: ms) acc = last_int key ms acc).
      { simpl. destruct m; try reflexivity. now rewrite Hm. }
      rewrite Hl. eapply IH; [exact Hget|exact Hrun].
Qed.

Lemma decode_member_int (name key : string) (fs : list Field) (doc : json)
    (v : GoValue) :
  field_ok is_TInt name key fs = true ->
  decode doc (TStruct fs) (zero (TStruct fs)) = (v, None) ->
  int_field v name = member_int key doc.
Proof.
  intros Hok Hd.
  assert (Hz : get (struct_fields (zero (TStruct fs))) name = Some (VInt 0)).
  { rewrite get_zero.
    destruct (field_ok_first is_TInt name key fs Hok) as [f [-> Ht]].
    apply is_TInt_inv in Ht. destruct Ht as [bits Ht]. simpl. now rewrite Ht. }
  destruct doc; simpl in Hd; unfold mismatch in Hd; try discriminate.
  - inversion Hd; subst v. unfold int_field. simpl in Hz |- *. now rewrite Hz.
  - destruct (object_members decode fs members _ None) as [cur' err] eqn:Em.
    inversion Hd; subst v err. unfold int_field, member_int. simpl.
    erewrite object_members_int; eauto.
Qed.

Lemma json_Unmarshal_member_int (json_syntax : string -> option json)
    (name key : string) (fs : list Field) (data : string) (v : GoValue) :
  field_ok is_TInt name key fs = true ->
  json_Unmarshal json_syntax data (TStruct fs) = (v, None) ->
  exists doc, json_scan json_syntax data = Some doc /\
              int_field v name = member_int key doc.
Proof.
  intros Hok Hu. unfold json_Unmarshal in Hu.
  destruct (json_scan json_syntax data) as [doc|]; [|inversion Hu].
  exists doc. split; [reflexivity|]. eapply decode_member_int; eauto.
Qed.

(** ** The record decoder, field by field *)

Lemma switch_result_in {K A : Type} (eqb : K -> K -> bool) (tag : K)
    (cases : list (K * A)) (a : A) :
  switch eqb tag cases = Some a -> In a (map snd cases).
Proof.
  induction cases as [|[c x] cases IH]; simpl; [discriminate|].
  destruct (eqb tag c).
  - intros H. inversion H. now left.
  - intros H. right. now apply IH.
Qed.

(** What [UnmarshalEffect] did when it returns an effect. *)
Lemma UnmarshalEffect_inv (Link : GoType) (json_syntax : string -> option json)
    (data : string) (e : Effect) (err : option error) :
  UnmarshalEffect Link json_syntax data = (Some e, err) ->
  exists d verr,
    json_Unmarshal json_syntax data (TStruct [ field "Type" "type" TString ])
      = (d, None) /\
    switch String.eqb (string_field d "Type") UnmarshalEffect_cases
      = Some (effect_struct e) /\
    json_Unmarshal json_syntax data (TStruct (effect_fields Link (effect_struct e)))
      = (effect_value e, verr) /\
    err = errors_Wrap verr "error unmarshaling effect".
Proof.
  unfold UnmarshalEffect.
  destruct (json_Unmarshal json_syntax data (TStruct [field "Type" "type" TString]))
    as [d [derr|]]; [simpl; discriminate|].
  destruct (switch String.eqb (string_field d "Type") UnmarshalEffect_cases)
    as [T|] eqn:Hs; [|discriminate].
  destruct (json_Unmarshal json_syntax data (TStruct (effect_fields Link T)))
    as [v verr] eqn:Hv.
  intros H. inversion H; subst. exists d, verr. simpl. auto.
Qed.

(** What [UnmarshalOperation] did when it returns an operation. *)
Lemma UnmarshalOperation_inv (Link Asset Price : GoType)
    (time_Parse : string -> bool) (xdr : xdr_constants)
    (json_syntax : string -> option json)
    (data : string) (o : Operation) (err : option error) :
  UnmarshalOperation Link Asset Price time_Parse xdr json_syntax data = (Some o, err) ->
  exists d verr,
    json_Unmarshal json_syntax data (TStruct [ field "TypeI" "type_i" int32 ])
      = (d, None) /\
    switch Z.eqb (int_field d "TypeI") (UnmarshalOperation_cases xdr)
      = Some (operation_struct o) /\
    json_Unmarshal json_syntax data
      (TStruct (operation_fields Link Asset Price time_Parse (operation_struct o)))
      = (operation_value o, verr) /\
    err = errors_Wrap verr "error unmarshaling operation".
Proof.
  unfold UnmarshalOperation.
  destruct (json_Unmarshal json_syntax data (TStruct [field "TypeI" "type_i" int32]))
    as [d [derr|]]; [simpl; discriminate|].
  destruct (switch Z.eqb (int_field d "TypeI") (UnmarshalOperation_cases xdr))
    as [T|] eqn:Hs; [|discriminate].
  destruct (json_Unmarshal json_syntax data
              (TStruct (operation_fields Link Asset Price time_Parse T)))
    as [v verr] eqn:Hv.
  intros H. inversion H; subst. exists d, verr. simpl. auto.
Qed.

(** Every string field of an effect struct takes the members of its JSON
    name, and no other member. *)
Lemma effect_string_fields (Link : GoType) (T : EffectStruct) (f : Field) :
  In f (effect_fields Link T) ->
  field_type f = TString ->
  string_field_ok (field_name f) (field_key f) (effect_fields Link T) = true.
Proof. intros Hin. destruct T; cbn in Hin; each_field Hin f. Qed.

Lemma operation_string_fields (Link Asset Price : GoType)
    (time_Parse : string -> bool) (T : OperationStruct) (f : Field) :
  In f (operation_fields Link Asset Price time_Parse T) ->
  field_type f = TString ->
  string_field_ok (field_name f) (field_key f)
    (operation_fields Link Asset Price time_Parse T) = true.
Proof. intros Hin. destruct T; cbn in Hin; each_field Hin f. Qed.

Lemma effect_int_fields (Link : GoType) (T : EffectStruct) (f : Field) (bits : Z) :
  In f (effect_fields Link T) ->
  field_type f = TInt bits ->
  field_ok is_TInt (field_name f) (field_key f) (effect_fields Link T) = true.
Proof. intros Hin. destruct T; cbn in Hin; each_field Hin f. Qed.

Lemma operation_int_fields (Link Asset Price : GoType)
    (time_Parse : string -> bool) (T : OperationStruct) (f : Field) (bits : Z) :
  In f (operation_fields Link Asset Price time_Parse T) ->
  field_type f = TInt bits ->
  field_ok is_TInt (field_name f) (field_key f)
    (operation_fields Link Asset Price time_Parse T) = true.
Proof. intros Hin. destruct T; cbn in Hin; each_field Hin f. Qed.

Section DecoderFields.

Variables Link Asset Price : GoType.
Variable time_Parse : string -> bool.
Variable xdr : xdr_constants.
Variable json_syntax : string -> option json.

(** X1: after a decode without error, every string field of the struct
    [UnmarshalEffect] or [UnmarshalOperation] returns holds the string the
    payload stores under the field's JSON name. *)
Theorem string_fields_hold_the_payload (data : string) (doc : json) :
  json_scan json_syntax data = Some doc ->
  (forall e f,
      UnmarshalEffect Link json_syntax data = (Some e, None) ->
      In f (effect_fields Link (effect_struct e)) ->
      field_type f = TString ->
      string_field (effect_value e) (field_name f) = member_string (field_key f) doc)
  /\
  (forall o f,
      UnmarshalOperation Link Asset Price time_Parse xdr json_syntax data
        = (Some o, None) ->
      In f (operation_fields Link Asset Price time_Parse (operation_struct o)) ->
      field_type f = TString ->
      string_field (operation_value o) (field_name f)
      = member_string (field_key f) doc).
Proof.
  intros Hscan. split.
  - intros e f He Hin Hty. apply UnmarshalEffect_inv in He.
    destruct He as [d [verr [_ [_ [Hv Herr]]]]]. symmetry in Herr.
    apply errors_Wrap_None in Herr. subst verr.
    destruct (json_Unmarshal_member_string json_syntax _ _ _ data _
                (effect_string_fields Link _ f Hin Hty) Hv) as [doc' [Hs Hm]].
    rewrite Hscan in Hs. inversion Hs; subst doc'. exact Hm.
  - intros o f Ho Hin Hty. apply UnmarshalOperation_inv in Ho.
    destruct Ho as [d [verr [_ [_ [Hv Herr]]]]]. symmetry in Herr.
    apply errors_Wrap_None in Herr. subst verr.
    destruct (json_Unmarshal_member_string json_syntax _ _ _ data _
                (operation_string_fields Link Asset Price time_Parse _ f Hin Hty) Hv)
      as [doc' [Hs Hm]].
    rewrite Hscan in Hs. inversion Hs; subst doc'. exact Hm.
Qed.

(** X2: after a decode without error, every integer field of the struct
    returned holds the integer the payload stores under the field's JSON
    name, and zero when the payload stores none. *)
Theorem int_fields_hold_the_payload (data : string) (doc : json) :
  json_scan json_syntax data = Some doc ->
  (forall e f bits,
      UnmarshalEffect Link json_syntax data = (Some e, None) ->
      In f (effect_fields Link (effect_struct e)) ->
      field_type f = TInt bits ->
      int_field (effect_value e) (field_name f) = member_int (field_key f) doc)
  /\
  (forall o f bits,
      UnmarshalOperation Link Asset Price time_Parse xdr json_syntax data
        = (Some o, None) ->
      In f (operation_fields Link Asset Price time_Parse (operation_struct o)) ->
      field_type f = TInt bits ->
      int_field (operation_value o) (field_name f) = member_int (field_key f) doc).
Proof.
  intros Hscan. split.
  - intros e f bits He Hin Hty. apply UnmarshalEffect_inv in He.
    destruct He as [d [verr [_ [_ [Hv Herr]]]]]. symmetry in Herr.
    apply errors_Wrap_None in Herr. subst verr.
    destruct (json_Unmarshal_member_int json_syntax _ _ _ data _
                (effect_int_fields Link _ f bits Hin Hty) Hv) as [doc' [Hs Hm]].
    rewrite Hscan in Hs. inversion Hs; subst doc'. exact Hm.
  - intros o f bits Ho Hin Hty. apply UnmarshalOperation_inv in Ho.
    destruct Ho as [d [verr [_ [_ [Hv Herr]]]]]. symmetry in Herr.
    apply errors_Wrap_None in Herr. subst verr.
    destruct (json_Unmarshal_member_int json_syntax _ _ _ data _
                (operation_int_fields Link Asset Price time_Parse _ f bits Hin Hty) Hv)
      as [doc' [Hs Hm]].
    rewrite Hscan in Hs. inversion Hs; subst doc'. exact Hm.
Qed.

(** The struct of an effect returned without error is the one the
    [switch] pairs with its [EffectType()]. *)
Lemma effect_struct_agrees (data : string) (e : Effect) :
  UnmarshalEffect Link json_syntax data = (Some e, None) ->
  switch String.eqb (EffectType e) UnmarshalEffect_cases = Some (effect_struct e).
Proof.
  intros He. apply UnmarshalEffect_inv in He.
  destruct He as [d [verr [Hd [Hs [Hv Herr]]]]]. symmetry in Herr.
  apply errors_Wrap_None in Herr. subst verr.
  apply json_Unmarshal_member_string with (name := "Type") (key := "type") in Hd;
    [|reflexivity].
  apply json_Unmarshal_member_string with (name := "Type") (key := "type") in Hv;
    [|apply effect_fields_Type].
  destruct Hd as [doc [Hscan Hd]]. destruct Hv as [doc' [Hscan' Hv]].
  rewrite Hscan in Hscan'. inversion Hscan'; subst doc'.
  unfold EffectType. rewrite Hv, <- Hd. exact Hs.
Qed.

Lemma operation_struct_agrees (data : string) (o : Operation) :
  UnmarshalOperation Link Asset Price time_Parse xdr json_syntax data
    = (Some o, None) ->
  switch Z.eqb (int_field (operation_value o) "TypeI")
    (UnmarshalOperation_cases xdr)
  = Some (operation_struct o).
Proof.
  intros Ho. apply UnmarshalOperation_inv in Ho.
  destruct Ho as [d [verr [Hd [Hs [Hv Herr]]]]]. symmetry in Herr.
  apply errors_Wrap_None in Herr. subst verr.
  apply json_Unmarshal_member_int with (name := "TypeI") (key := "type_i") in Hd;
    [|reflexivity].
  apply json_Unmarshal_member_int with (name := "TypeI") (key := "type_i") in Hv.
  - destruct Hd as [doc [Hscan Hd]]. destruct Hv as [doc' [Hscan' Hv]].
    rewrite Hscan in Hscan'. inversion Hscan'; subst doc'.
    rewrite Hv, <- Hd. exact Hs.
  - destruct (operation_struct o); vm_compute; reflexivity.
Qed.

(** X3: the struct of a record returned without error is the one the
    [switch] pairs with the record's own field: with [EffectType()] for an
    effect, which is therefore one of the labels of the cases, and with the
    field [TypeI] for an operation. *)
Theorem struct_agrees_with_the_discriminator_field (data : string) :
  (forall e,
      UnmarshalEffect Link json_syntax data = (Some e, None) ->
      switch String.eqb (EffectType e) UnmarshalEffect_cases = Some (effect_struct e))
  /\
  (forall o,
      UnmarshalOperation Link Asset Price time_Parse xdr json_syntax data
        = (Some o, None) ->
      switch Z.eqb (int_field (operation_value o) "TypeI")
        (UnmarshalOperation_cases xdr)
      = Some (operation_struct o)).
Proof.
  split.
  - intros e. apply effect_struct_agrees.
  - intros o. apply operation_struct_agrees.
Qed.

(** X4: whatever the payload, and with or without an error beside it,
    [UnmarshalEffect] never returns an [AccountThresholdsUpdatedEffect]. *)
Theorem no_effect_is_an_AccountThresholdsUpdatedEffect
    (data : string) (e : Effect) (err : option error) :
  UnmarshalEffect Link json_syntax data = (Some e, err) ->
  effect_struct e <> AccountThresholdsUpdatedEffect.
Proof.
  intros He. apply UnmarshalEffect_inv in He.
  destruct He as [d [verr [_ [Hs _]]]].
  apply switch_result_in in Hs. intros Heq. rewrite Heq in Hs.
  simpl in Hs. repeat (destruct Hs as [Hs|Hs]; [discriminate Hs|]). exact Hs.
Qed.

End DecoderFields.

(** ** A payload without a discriminator *)

Lemma find_field_single_none (f : Field) (k : string) :
  key_matches k (field_key f) = false -> find_field [f] k = None.
Proof.
  unfold key_matches, find_field. intros H. apply orb_false_elim in H.
  destruct H as [H1 H2]. simpl.
  rewrite (String.eqb_sym (field_key f) k), H1.
  rewrite (String.eqb_sym (foldName (field_key f)) (foldName k)), H2. reflexivity.
Qed.

(** Members that go to no field change nothing. *)
Lemma object_members_no_match dec (fs : list Field) (ms : list (string * json))
    (cur : list (string * GoValue)) (err : option error) :
  (forall m, In m ms -> find_field fs (fst m) = None) ->
  object_members dec fs ms cur err = (cur, err).
Proof.
  induction ms as [|[k m] ms IH]; intros H; simpl; [reflexivity|].
  pose proof (H (k, m) (or_introl eq_refl)) as Hk. simpl in Hk.
  rewrite Hk. apply IH.
  intros m' Hin. apply H. now right.
Qed.

(** A document that is [null], or an object without a member named as the
    only field of a struct, decodes into the zero value of the struct. *)
Lemma decode_single_absent (f : Field) (doc : json) :
  doc = JNull \/ (exists ms, doc = JObject ms) ->
  has_member (field_key f) doc = false ->
  decode doc (TStruct [f]) (zero (TStruct [f])) = (zero (TStruct [f]), None).
Proof.
  intros [->|[ms ->]] Hm; [reflexivity|].
  cbn [decode]. rewrite object_members_no_match; [reflexivity|].
  intros m Hin. apply find_field_single_none.
  simpl in Hm. destruct (key_matches (fst m) (field_key f)) eqn:E; [|reflexivity].
  assert (Hex : existsb (fun m => key_matches (fst m) (field_key f)) ms = true).
  { apply existsb_exists. now exists m. }
  rewrite Hex in Hm. discriminate.
Qed.

Section MissingDiscriminator.

Variables Link Asset Price : GoType.
Variable time_Parse : string -> bool.
Variable xdr : xdr_constants.
Variable json_syntax : string -> option json.

(** X5: a payload that is [null] or an object, and that has no member
    "type", is refused by [UnmarshalEffect] as an effect of the unknown type
    with the empty name; one that has no member "type_i" is decoded by
    [UnmarshalOperation] as if "type_i" were 0. *)
Theorem missing_discriminator_reads_as_zero (data : string) (doc : json) :
  json_scan json_syntax data = Some doc ->
  doc = JNull \/ (exists ms, doc = JObject ms) ->
  (has_member "type" doc = false ->
   UnmarshalEffect Link json_syntax data
   = (None, Some (errors_Errorf "unknown effect type %d" (VString EmptyString))))
  /\
  (has_member "type_i" doc = false ->
   option_map operation_struct
     (fst (UnmarshalOperation Link Asset Price time_Parse xdr json_syntax data))
   = switch Z.eqb 0 (UnmarshalOperation_cases xdr)).
Proof.
  intros Hscan Hdoc. split; intros Hm.
  - unfold UnmarshalEffect, json_Unmarshal. rewrite Hscan.
    rewrite (decode_single_absent (field "Type" "type" TString) doc Hdoc Hm).
    reflexivity.
  - unfold UnmarshalOperation, json_Unmarshal. rewrite Hscan.
    rewrite (decode_single_absent (field "TypeI" "type_i" int32) doc Hdoc Hm).
    change (int_field (zero (TStruct [field "TypeI" "type_i" int32])) "TypeI") with 0.
    destruct (switch Z.eqb 0 (UnmarshalOperation_cases xdr)) as [T|]; [|reflexivity].
    destruct (decode doc (TStruct (operation_fields Link Asset Price time_Parse T)) _).
    reflexivity.
Qed.

End MissingDiscriminator.

(** ** Strings *)

Lemma append_nil_r (s : string) : String.append s EmptyString = s.
Proof. induction s as [|c s IH]; simpl; [reflexivity|now rewrite IH]. Qed.

Lemma append_assoc (a b c : string) :
  String.append (String.append a b) c = String.append a (String.append b c).
Proof. induction a as [|x a IH]; simpl; [reflexivity|now rewrite IH]. Qed.

Lemma slashes_snoc (n : nat) :
  slashes (S n) = String.append (slashes n) "/".
Proof. induction n as [|n IH]; [reflexivity|]. simpl in *. now rewrite <- IH. Qed.

(** ** The URL of the client *)

(** [TrimRight] takes slashes off the end, and nothing else. *)
Lemma TrimRight_slashes (s : string) :
  exists n, s = String.append (strings_TrimRight s "/") (slashes n).
Proof.
  induction s as [|c s [n IH]]; [now exists 0%nat|].
  simpl. destruct (strings_TrimRight s "/") as [|c' r] eqn:E.
  - unfold in_cutset. simpl. destruct (Ascii.eqb c "/") eqn:Ec.
    + apply Ascii.eqb_eq in Ec. subst c. exists (S n). simpl. now rewrite IH at 1.
    + exists n. simpl. now rewrite IH at 1.
  - exists n. simpl. now rewrite IH at 1.
Qed.

(** What [TrimRight] leaves does not end with a slash. *)
Lemma TrimRight_no_slash (s p : string) :
  strings_TrimRight s "/" <> String.append p "/".
Proof.
  revert p. induction s as [|c s IH]; intros p; simpl.
  - destruct p; discriminate.
  - destruct (strings_TrimRight s "/") as [|c' r] eqn:E.
    + unfold in_cutset. simpl. destruct (Ascii.eqb c "/") eqn:Ec.
      * destruct p; discriminate.
      * destruct p as [|x p]; simpl; intros H; inversion H; subst.
        -- rewrite Ascii.eqb_refl in Ec. discriminate.
        -- destruct p; discriminate.
    + destruct p as [|x p]; simpl; intros H; inversion H; subst.
      now apply (IH p).
Qed.

(** A string that does not end with a slash is left as it is. *)
Lemma TrimRight_fixed (s : string) :
  (forall p, s <> String.append p "/") -> strings_TrimRight s "/" = s.
Proof.
  intros H. destruct (TrimRight_slashes s) as [[|n] Hn].
  - simpl in Hn. rewrite append_nil_r in Hn. now symmetry.
  - exfalso. rewrite slashes_snoc, <- append_assoc in Hn. now apply H in Hn.
Qed.

(** X6: [fixURL] takes the slashes off the end of [Client.URL], all of them
    and nothing else, and applied again it changes nothing. *)
Theorem fixURL_removes_the_trailing_slashes (c : Client) :
  (exists n, Client_URL c = String.append (Client_URL (fixURL c)) (slashes n)) /\
  (forall p, Client_URL (fixURL c) <> String.append p "/") /\
  fixURL (fixURL c) = fixURL c.
Proof.
  split; [apply TrimRight_slashes|]. split; [apply TrimRight_no_slash|].
  unfold fixURL. simpl. f_equal. apply TrimRight_fixed. apply TrimRight_no_slash.
Qed.

(** ** The streams of the client *)

Lemma EffectHandler_calls_app Link json_syntax (l1 l2 : list step) :
  EffectHandler_calls json_syntax Link (l1 ++ l2)
  = EffectHandler_calls json_syntax Link l1 ++ EffectHandler_calls json_syntax Link l2.
Proof.
  induction l1 as [|ev l1 IH]; simpl; [reflexivity|].
  destruct ev as [req|done|data [e|]]; simpl; now rewrite IH.
Qed.

Lemma OperationHandler_calls_app Link Asset Price time_Parse xdr json_syntax
    (l1 l2 : list step) :
  OperationHandler_calls json_syntax Link Asset Price time_Parse xdr (l1 ++ l2)
  = OperationHandler_calls json_syntax Link Asset Price time_Parse xdr l1
    ++ OperationHandler_calls json_syntax Link Asset Price time_Parse xdr l2.
Proof.
  induction l1 as [|ev l1 IH]; simpl; [reflexivity|].
  destruct ev as [req|done|data [e|]]; simpl; now rewrite IH.
Qed.

(** The object handled last is in the log. *)
Lemma last_delivered_split (log : list step) (data : string) :
  last_delivered log = Some data ->
  exists pre ret post,
    log = pre ++ Handled data ret :: post /\
    forall ev, In ev post -> match ev with Handled _ _ => False | _ => True end.
Proof.
  induction log as [|ev log IH] using rev_ind; [discriminate|].
  rewrite last_delivered_app. destruct ev as [req|done|d r].
  - intros H. destruct (IH H) as [pre [ret [post [-> Hp]]]].
    exists pre, ret, (post ++ [Sent req]). rewrite <- app_assoc. split; [reflexivity|].
    intros ev Hin. apply in_app_or in Hin. destruct Hin as [Hin|[<-|[]]]; [now apply Hp|exact I].
  - intros H. destruct (IH H) as [pre [ret [post [-> Hp]]]].
    exists pre, ret, (post ++ [Polled done]). rewrite <- app_assoc.
    split; [reflexivity|].
    intros ev Hin. apply in_app_or in Hin. destruct Hin as [Hin|[<-|[]]]; [now apply Hp|exact I].
  - intros H. inversion H; subst. exists log, r, []. split; [reflexivity|].
    intros ev [].
Qed.

Lemma EffectHandler_calls_in Link json_syntax (log : list step) (x : option Effect) :
  In x (EffectHandler_calls json_syntax Link log) ->
  exists pre data post,
    log = pre ++ Handled data None :: post /\
    x = fst (UnmarshalEffect Link json_syntax data).
Proof.
  induction log as [|ev log IH]; simpl; [contradiction|].
  assert (Hrest : In x (EffectHandler_calls json_syntax Link log) ->
                  exists pre data post,
                    ev :: log = pre ++ Handled data None :: post /\
                    x = fst (UnmarshalEffect Link json_syntax data)).
  { intros H. destruct (IH H) as [pre [data [post [-> Hx]]]].
    now exists (ev :: pre), data, post. }
  destruct ev as [req|done|data [e|]]; auto.
  intros [<-|H]; [|auto]. now exists [], data, log.
Qed.

Lemma OperationHandler_calls_in Link Asset Price time_Parse xdr json_syntax
    (log : list step) (x : option Operation) :
  In x (OperationHandler_calls json_syntax Link Asset Price time_Parse xdr log) ->
  exists pre data post,
    log = pre ++ Handled data None :: post /\
    x = fst (UnmarshalOperation Link Asset Price time_Parse xdr json_syntax data).
Proof.
  induction log as [|ev log IH]; simpl; [contradiction|].
  assert (Hrest : In x (OperationHandler_calls json_syntax Link Asset Price
                          time_Parse xdr log) ->
                  exists pre data post,
                    ev :: log = pre ++ Handled data None :: post /\
                    x = fst (UnmarshalOperation Link Asset Price time_Parse xdr
                               json_syntax data)).
  { intros H. destruct (IH H) as [pre [data [post [-> Hx]]]].
    now exists (ev :: pre), data, post. }
  destruct ev as [req|done|data [e|]]; auto.
  intros [<-|H]; [|auto]. now exists [], data, log.
Qed.

(** Without an error there is an effect. *)
Lemma UnmarshalEffect_not_nil Link json_syntax (data : string) (x : option Effect) :
  UnmarshalEffect Link json_syntax data = (x, None) -> exists e, x = Some e.
Proof.
  unfold UnmarshalEffect.
  destruct (json_Unmarshal json_syntax data _) as [d [derr|]]; [simpl; discriminate|].
  destruct (switch String.eqb _ _) as [T|]; [|discriminate].
  destruct (json_Unmarshal json_syntax data _) as [v verr].
  intros H. inversion H. now exists (EffectPtr T v).
Qed.

Lemma UnmarshalOperation_not_nil Link Asset Price time_Parse xdr json_syntax
    (data : string) (x : option Operation) :
  UnmarshalOperation Link Asset Price time_Parse xdr json_syntax data = (x, None) ->
  exists o, x = Some o.
Proof.
  unfold UnmarshalOperation.
  destruct (json_Unmarshal json_syntax data _) as [d [derr|]]; [simpl; discriminate|].
  destruct (switch Z.eqb _ _) as [T|]; [|discriminate].
  destruct (json_Unmarshal json_syntax data _) as [v verr].
  intros H. inversion H. now exists (OperationPtr T v).
Qed.

Lemma effect_fields_PT (Link : GoType) (T : EffectStruct) :
  string_field_ok "PT" "paging_token" (effect_fields Link T) = true.
Proof. destruct T; vm_compute; reflexivity. Qed.

Lemma operation_fields_PT (Link Asset Price : GoType) (time_Parse : string -> bool)
    (T : OperationStruct) :
  string_field_ok "PT" "paging_token"
    (operation_fields Link Asset Price time_Parse T) = true.
Proof. destruct T; vm_compute; reflexivity. Qed.

Section StreamsProperties.

Variable url_Parse : string -> option error.
Variable parseEvent : string -> sse_Event + error.
Variable json_syntax : string -> option json.
Variable ctx_Done : list step -> bool.
Variables Link Asset Price Ledger Payment Transaction : GoType.
Variable time_Parse : string -> bool.
Variable xdr : xdr_constants.

Lemma Do_fixURL_base (c : Client) :
  Client_URL (fixURLOnce_Do fixURL c) = client_base c.
Proof. unfold fixURLOnce_Do, client_base. destruct (fixURLOnce c); reflexivity. Qed.

(** The requests of a run of [stream] go to its [baseURL]. *)
Lemma stream_targets (base : string) (handler : list step -> string -> option error)
    (script : list (Response + error)) (cursor : option string) :
  targets base cursor
    (fst (stream url_Parse parseEvent json_syntax ctx_Done base handler script cursor)).
Proof.
  destruct (stream url_Parse parseEvent json_syntax ctx_Done base handler script cursor)
    as [log out] eqn:Hrun.
  apply stream_ok in Hrun. destruct Hrun as [Hlog _].
  intros pre req post Heq. apply Hlog in Heq.
  destruct Heq as [_ [_ [_ [H3 H4]]]]. split; [exact H3|].
  intros Hne. destruct (H4 Hne) as [data [position [_ [_ [H5 H6]]]]].
  now exists position.
Qed.

(** What the handler answered is in the log, and an error it answered ends
    the run. *)
Lemma handled_by (base : string) (handler : list step -> string -> option error)
    (script : list (Response + error)) (cursor : option string)
    (log : list step) (out : outcome) (pre post : list step)
    (data : string) (ret : option error) :
  stream url_Parse parseEvent json_syntax ctx_Done base handler script cursor
    = (log, out) ->
  log = pre ++ Handled data ret :: post ->
  ret = handler pre data /\
  (ret <> None -> post = [] /\ out = Returned ret).
Proof.
  intros Hrun Heq. apply stream_ok in Hrun. destruct Hrun as [Hlog Hend].
  split.
  - apply Hlog in Heq. now destruct Heq as [_ [H _]].
  - intros Hne.
    assert (Hnc : ~ calm (Handled data ret)).
    { destruct ret; [simpl; auto|contradiction]. }
    assert (Hpost : post = []) by (eapply not_calm_is_last; eauto).
    subst post. split; [reflexivity|].
    apply (ended_with log pre (Handled data ret) out Hend Heq Hnc).
Qed.

(** X7: every request of a Stream function goes to the collection the
    function names, under [c.URL] without the slashes at its end if the
    client is used for the first time and under [c.URL] as it is
    otherwise; the account identifier is put in the path as it is given. *)
Theorem stream_functions_target_their_collection
    (c : Client) (accountID : string)
    (script : list (Response + error)) (cursor : option string) :
  targets (String.append (client_base c) "/ledgers") cursor
    (fst (snd (StreamLedgers url_Parse parseEvent json_syntax ctx_Done Ledger
                 c script cursor)))
  /\
  targets (String.append (client_base c)
             (String.append "/accounts/" (String.append accountID "/payments")))
    cursor
    (fst (snd (StreamPayments url_Parse parseEvent json_syntax ctx_Done Payment
                 c accountID script cursor)))
  /\
  targets (String.append (client_base c) "/transactions") cursor
    (fst (snd (StreamAllTransactions url_Parse parseEvent json_syntax ctx_Done
                 Transaction c script cursor)))
  /\
  targets (String.append (client_base c)
             (String.append "/accounts/" (String.append accountID "/transactions")))
    cursor
    (fst (snd (StreamTransactions url_Parse parseEvent json_syntax ctx_Done
                 Transaction c accountID script cursor)))
  /\
  targets (String.append (client_base c) "/operations") cursor
    (fst (snd (StreamAllOperations url_Parse parseEvent json_syntax ctx_Done
                 Link Asset Price time_Parse xdr c script cursor)))
  /\
  targets (String.append (client_base c) "/effects") cursor
    (fst (snd (StreamAllEffects url_Parse parseEvent json_syntax ctx_Done Link
                 c script cursor))).
Proof.
  unfold StreamLedgers, StreamPayments, StreamAllTransactions, StreamTransactions,
    StreamAllOperations, StreamAllEffects.
  cbn [fst snd]. rewrite Do_fixURL_base.
  repeat (split; [apply stream_targets|]). apply stream_targets.
Qed.

(** X8: in [StreamAllEffects] and [StreamAllOperations] a record that the
    decoder returns an error for ends the run: the run returns that error
    wrapped as "error unmarshaling data", nothing follows in the log, and
    the caller's handler is not called for the record. *)
Theorem refused_record_ends_the_stream
    (c : Client) (script : list (Response + error)) (cursor : option string)
    (c' : Client) (log : list step) (out : outcome)
    (pre post : list step) (data : string) (ret : option error) (err : error) :
  log = pre ++ Handled data ret :: post ->
  (StreamAllEffects url_Parse parseEvent json_syntax ctx_Done Link c script cursor
     = (c', (log, out)) ->
   snd (UnmarshalEffect Link json_syntax data) = Some err ->
   ret = Some (withMessage err "error unmarshaling data") /\
   post = [] /\ out = Returned ret /\
   EffectHandler_calls json_syntax Link log = EffectHandler_calls json_syntax Link pre)
  /\
  (StreamAllOperations url_Parse parseEvent json_syntax ctx_Done
     Link Asset Price time_Parse xdr c script cursor = (c', (log, out)) ->
   snd (UnmarshalOperation Link Asset Price time_Parse xdr json_syntax data)
     = Some err ->
   ret = Some (withMessage err "error unmarshaling data") /\
   post = [] /\ out = Returned ret /\
   OperationHandler_calls json_syntax Link Asset Price time_Parse xdr log
   = OperationHandler_calls json_syntax Link Asset Price time_Parse xdr pre).
Proof.
  intros Heq. split; intros Hrun Herr.
  - unfold StreamAllEffects in Hrun. inversion Hrun as [[Hc Hs]]. clear Hrun.
    destruct (handled_by _ _ _ _ _ _ _ _ _ _ Hs Heq) as [Hret Hstop].
    assert (Hr : ret = Some (withMessage err "error unmarshaling data")).
    { rewrite Hret. unfold unmarshal_effect.
      destruct (UnmarshalEffect Link json_syntax data) as [x e]. simpl in Herr.
      now rewrite Herr. }
    destruct Hstop as [-> ->]; [rewrite Hr; discriminate|].
    repeat split; auto. rewrite Heq, EffectHandler_calls_app, Hr. simpl.
    apply app_nil_r.
  - unfold StreamAllOperations in Hrun. inversion Hrun as [[Hc Hs]]. clear Hrun.
    destruct (handled_by _ _ _ _ _ _ _ _ _ _ Hs Heq) as [Hret Hstop].
    assert (Hr : ret = Some (withMessage err "error unmarshaling data")).
    { rewrite Hret. unfold unmarshal_operation.
      destruct (UnmarshalOperation Link Asset Price time_Parse xdr json_syntax data)
        as [x e]. simpl in Herr. now rewrite Herr. }
    destruct Hstop as [-> ->]; [rewrite Hr; discriminate|].
    repeat split; auto. rewrite Heq, OperationHandler_calls_app, Hr. simpl.
    apply app_nil_r.
Qed.

(** The effect that the caller's handler was called with for an object of
    the log. *)
Lemma effect_handed (c : Client) (script : list (Response + error))
    (cursor : option string) (c' : Client) (log : list step) (out : outcome)
    (pre post : list step) (data : string) :
  StreamAllEffects url_Parse parseEvent json_syntax ctx_Done Link c script cursor
    = (c', (log, out)) ->
  log = pre ++ Handled data None :: post ->
  exists e, UnmarshalEffect Link json_syntax data = (Some e, None).
Proof.
  intros Hrun Heq. unfold StreamAllEffects in Hrun. inversion Hrun as [[Hc Hs]].
  destruct (handled_by _ _ _ _ _ _ _ _ _ _ Hs Heq) as [Hret _].
  unfold unmarshal_effect in Hret.
  destruct (UnmarshalEffect Link json_syntax data) as [x [e|]] eqn:Hu; [discriminate|].
  destruct (UnmarshalEffect_not_nil _ _ _ _ Hu) as [e ->]. now exists e.
Qed.

Lemma operation_handed (c : Client) (script : list (Response + error))
    (cursor : option string) (c' : Client) (log : list step) (out : outcome)
    (pre post : list step) (data : string) :
  StreamAllOperations url_Parse parseEvent json_syntax ctx_Done
    Link Asset Price time_Parse xdr c script cursor = (c', (log, out)) ->
  log = pre ++ Handled data None :: post ->
  exists o, UnmarshalOperation Link Asset Price time_Parse xdr json_syntax data
            = (Some o, None).
Proof.
  intros Hrun Heq. unfold StreamAllOperations in Hrun. inversion Hrun as [[Hc Hs]].
  destruct (handled_by _ _ _ _ _ _ _ _ _ _ Hs Heq) as [Hret _].
  unfold unmarshal_operation in Hret.
  destruct (UnmarshalOperation Link Asset Price time_Parse xdr json_syntax data)
    as [x [e|]] eqn:Hu; [discriminate|].
  destruct (UnmarshalOperation_not_nil _ _ _ _ _ _ _ _ Hu) as [o ->]. now exists o.
Qed.

(** X9: the caller's handler of [StreamAllEffects] is never called with a
    nil effect, and every effect it is called with has the struct that the
    [switch] pairs with its [EffectType()]; likewise for the handler of
    [StreamAllOperations] and the field [TypeI]. *)
Theorem handlers_get_well_typed_records
    (c : Client) (script : list (Response + error)) (cursor : option string)
    (c' : Client) (log : list step) (out : outcome) :
  (StreamAllEffects url_Parse parseEvent json_syntax ctx_Done Link c script cursor
     = (c', (log, out)) ->
   forall x, In x (EffectHandler_calls json_syntax Link log) ->
             exists e, x = Some e /\
                       switch String.eqb (EffectType e) UnmarshalEffect_cases
                       = Some (effect_struct e))
  /\
  (StreamAllOperations url_Parse parseEvent json_syntax ctx_Done
     Link Asset Price time_Parse xdr c script cursor = (c', (log, out)) ->
   forall x, In x (OperationHandler_calls json_syntax Link Asset Price
                     time_Parse xdr log) ->
             exists o, x = Some o /\
                       switch Z.eqb (int_field (operation_value o) "TypeI")
                         (UnmarshalOperation_cases xdr)
                       = Some (operation_struct o)).
Proof.
  split; intros Hrun x Hin.
  - apply EffectHandler_calls_in in Hin. destruct Hin as [pre [data [post [Heq ->]]]].
    destruct (effect_handed _ _ _ _ _ _ _ _ _ Hrun Heq) as [e He].
    exists e. rewrite He. split; [reflexivity|].
    eapply effect_struct_agrees; eauto.
  - apply OperationHandler_calls_in in Hin.
    destruct Hin as [pre [data [post [Heq ->]]]].
    destruct (operation_handed _ _ _ _ _ _ _ _ _ Hrun Heq) as [o Ho].
    exists o. rewrite Ho. split; [reflexivity|].
    eapply operation_struct_agrees; eauto.
Qed.

(** The last call of the handler is for the object handled last. *)
Lemma EffectHandler_last_call (pre : list step) (data : string) :
  Forall calm pre ->
  last_delivered pre = Some data ->
  last (EffectHandler_calls json_syntax Link pre) None
  = fst (UnmarshalEffect Link json_syntax data).
Proof.
  induction pre as [|ev pre IH] using rev_ind; [discriminate|].
  intros Hcalm Hlast. apply Forall_app in Hcalm. destruct Hcalm as [Hc Hev].
  inversion Hev as [|x l Hx _]; subst. rewrite last_delivered_app in Hlast.
  rewrite EffectHandler_calls_app.
  destruct ev as [req|done|d [e|]]; simpl; try contradiction;
    try (rewrite app_nil_r; now apply IH).
  inversion Hlast; subst. apply last_last.
Qed.

Lemma OperationHandler_last_call (pre : list step) (data : string) :
  Forall calm pre ->
  last_delivered pre = Some data ->
  last (OperationHandler_calls json_syntax Link Asset Price time_Parse xdr pre) None
  = fst (UnmarshalOperation Link Asset Price time_Parse xdr json_syntax data).
Proof.
  induction pre as [|ev pre IH] using rev_ind; [discriminate|].
  intros Hcalm Hlast. apply Forall_app in Hcalm. destruct Hcalm as [Hc Hev].
  inversion Hev as [|x l Hx _]; subst. rewrite last_delivered_app in Hlast.
  rewrite OperationHandler_calls_app.
  destruct ev as [req|done|d [e|]]; simpl; try contradiction;
    try (rewrite app_nil_r; now apply IH).
  inversion Hlast; subst. apply last_last.
Qed.

(** What a request that is not the first is made of. *)
Lemma reconnect_data (base : string) (handler : list step -> string -> option error)
    (script : list (Response + error)) (cursor : option string)
    (log : list step) (out : outcome) (pre post : list step) (req : Request) :
  stream url_Parse parseEvent json_syntax ctx_Done base handler script cursor
    = (log, out) ->
  log = pre ++ Sent req :: post ->
  pre <> [] ->
  exists data position p1 p2,
    Forall calm pre /\
    last_delivered pre = Some data /\
    pre = p1 ++ Handled data None :: p2 /\
    paging_token json_syntax data = Some position /\
    position <> EmptyString /\
    URL req = cursor_URL base position.
Proof.
  intros Hrun Heq Hne. apply stream_ok in Hrun. destruct Hrun as [Hlog _].
  apply Hlog in Heq. destruct Heq as [Hcalm [_ [_ [_ H]]]].
  destruct (H Hne) as [data [position [H1 [H2 [H3 H4]]]]].
  destruct (last_delivered_split pre data H1) as [p1 [r [p2 [Hp _]]]].
  exists data, position, p1, p2. repeat split; auto.
  rewrite Hp in Hcalm. apply Forall_app in Hcalm. destruct Hcalm as [_ Hc].
  inversion Hc as [|x l Hx _]; subst. destruct r; [contradiction|reflexivity].
Qed.

(** X10: [StreamAllEffects] and [StreamAllOperations] resume where the
    caller's handler is: the cursor of every request that is not the first
    is the field [PT], not empty, of the record the handler was last called
    with. *)
Theorem streams_resume_at_the_last_record_handed
    (c : Client) (script : list (Response + error)) (cursor : option string)
    (c' : Client) (log : list step) (out : outcome)
    (pre post : list step) (req : Request) :
  log = pre ++ Sent req :: post ->
  pre <> [] ->
  (StreamAllEffects url_Parse parseEvent json_syntax ctx_Done Link c script cursor
     = (c', (log, out)) ->
   exists e,
     last (EffectHandler_calls json_syntax Link pre) None = Some e /\
     string_field (effect_value e) "PT" <> EmptyString /\
     URL req = cursor_URL (String.append (client_base c) "/effects")
                 (string_field (effect_value e) "PT"))
  /\
  (StreamAllOperations url_Parse parseEvent json_syntax ctx_Done
     Link Asset Price time_Parse xdr c script cursor = (c', (log, out)) ->
   exists o,
     last (OperationHandler_calls json_syntax Link Asset Price time_Parse xdr pre)
       None = Some o /\
     string_field (operation_value o) "PT" <> EmptyString /\
     URL req = cursor_URL (String.append (client_base c) "/operations")
                 (string_field (operation_value o) "PT")).
Proof.
  intros Heq Hne. split; intros Hrun.
  - pose proof Hrun as Hrun'. unfold StreamAllEffects in Hrun'.
    inversion Hrun' as [[Hc Hs]]. clear Hrun'. rewrite Do_fixURL_base in Hs.
    destruct (reconnect_data _ _ _ _ _ _ _ _ _ Hs Heq Hne)
      as [data [position [p1 [p2 [Hcalm [Hlast [Hp [Hpt [Hpos Hurl]]]]]]]]].
    assert (Hlog : log = p1 ++ Handled data None :: (p2 ++ Sent req :: post)).
    { rewrite Heq, Hp, <- app_assoc. reflexivity. }
    destruct (effect_handed _ _ _ _ _ _ _ _ _ Hrun Hlog) as [e He].
    exists e.
    assert (Hfield : string_field (effect_value e) "PT" = position).
    { pose proof He as Hinv. apply UnmarshalEffect_inv in Hinv.
      destruct Hinv as [d [verr [_ [_ [Hv Herr]]]]]. symmetry in Herr.
      apply errors_Wrap_None in Herr. subst verr.
      destruct (json_Unmarshal_member_string json_syntax _ _ _ data _
                  (effect_fields_PT Link _) Hv) as [doc [Hscan Hm]].
      destruct (paging_token_member json_syntax data position Hpt)
        as [doc' [Hscan' Hm']].
      rewrite Hscan in Hscan'. inversion Hscan'; subst doc'. congruence. }
    rewrite Hfield. repeat split; auto.
    rewrite (EffectHandler_last_call pre data Hcalm Hlast), He. reflexivity.
  - pose proof Hrun as Hrun'. unfold StreamAllOperations in Hrun'.
    inversion Hrun' as [[Hc Hs]]. clear Hrun'. rewrite Do_fixURL_base in Hs.
    destruct (reconnect_data _ _ _ _ _ _ _ _ _ Hs Heq Hne)
      as [data [position [p1 [p2 [Hcalm [Hlast [Hp [Hpt [Hpos Hurl]]]]]]]]].
    assert (Hlog : log = p1 ++ Handled data None :: (p2 ++ Sent req :: post)).
    { rewrite Heq, Hp, <- app_assoc. reflexivity. }
    destruct (operation_handed _ _ _ _ _ _ _ _ _ Hrun Hlog) as [o Ho].
    exists o.
    assert (Hfield : string_field (operation_value o) "PT" = position).
    { pose proof Ho as Hinv. apply UnmarshalOperation_inv in Hinv.
      destruct Hinv as [d [verr [_ [_ [Hv Herr]]]]]. symmetry in Herr.
      apply errors_Wrap_None in Herr. subst verr.
      destruct (json_Unmarshal_member_string json_syntax _ _ _ data _
                  (operation_fields_PT Link Asset Price time_Parse _) Hv)
        as [doc [Hscan Hm]].
      destruct (paging_token_member json_syntax data position Hpt)
        as [doc' [Hscan' Hm']].
      rewrite Hscan in Hscan'. inversion Hscan'; subst doc'. congruence. }
    rewrite Hfield. repeat split; auto.
    rewrite (OperationHandler_last_call pre data Hcalm Hlast), Ho. reflexivity.
Qed.

End StreamsProperties.

(** ** Reading a sequence number *)

(** A byte that [ParseUint] takes for a digit below ten is a decimal digit. *)
Lemma digit_value_decimal (d : ascii) :
  let n := Z.of_nat (nat_of_ascii d) in
  if (48 <=? n) && (n <=? 57)
  then digit_value d = Some (n - 48) /\ 0 <= n - 48 < 10
  else match digit_value d with
       | Some v => 10 <= v
       | None => True
       end.
Proof.
  intros n. unfold digit_value. fold n.
  destruct ((48 <=? n) && (n <=? 57)) eqn:E.
  - apply andb_true_iff in E. destruct E as [E1 E2].
    apply Z.leb_le in E1. apply Z.leb_le in E2. split; [reflexivity|lia].
  - destruct ((97 <=? n) && (n <=? 122)) eqn:E1.
    + apply andb_true_iff in E1. destruct E1 as [E1 _]. apply Z.leb_le in E1. lia.
    + destruct ((65 <=? n) && (n <=? 90)) eqn:E2; [|exact I].
      apply andb_true_iff in E2. destruct E2 as [E2 _]. apply Z.leb_le in E2. lia.
Qed.

Lemma digits_value_ge (s : string) (acc m : Z) :
  0 <= acc -> digits_value s acc = Some m -> acc <= m.
Proof.
  revert acc. induction s as [|d rest IH]; intros acc Hacc H; simpl in H.
  - inversion H. lia.
  - destruct ((48 <=? Z.of_nat (nat_of_ascii d)) && (Z.of_nat (nat_of_ascii d) <=? 57))
      eqn:E; [|discriminate].
    apply andb_true_iff in E. destruct E as [E1 E2].
    apply Z.leb_le in E1. apply Z.leb_le in E2.
    apply IH in H; lia.
Qed.

(** The loop of [ParseUint] against the number the digits write. *)
Lemma ParseUint_loop_spec (s : string) (n : Z) :
  0 <= n <= maxUint64 ->
  match digits_value s n with
  | Some m =>
      if m <=? maxUint64 then ParseUint_loop s n = (m, None)
      else ParseUint_loop s n = (maxUint64, Some strconv_ErrRange)
  | None => exists k e, ParseUint_loop s n = (k, Some e)
  end.
Proof.
  revert n. induction s as [|d rest IH]; intros n Hn.
  - simpl. destruct (n <=? maxUint64) eqn:E; [reflexivity|].
    apply Z.leb_gt in E. lia.
  - cbn [digits_value ParseUint_loop]. pose proof (digit_value_decimal d) as Hd.
    cbv zeta in Hd.
    destruct ((48 <=? Z.of_nat (nat_of_ascii d)) && (Z.of_nat (nat_of_ascii d) <=? 57)).
    + destruct Hd as [Hd Hv]. rewrite Hd.
      set (v := Z.of_nat (nat_of_ascii d) - 48) in *.
      destruct (v >=? 10) eqn:E10; [apply Z.geb_le in E10; lia|].
      unfold maxUint64 in *.
      destruct (n >=? (2 ^ 64 - 1) / 10 + 1) eqn:Ecut.
      * apply Z.geb_le in Ecut.
        assert (Hbig : 2 ^ 64 - 1 < n * 10 + v).
        { change ((2 ^ 64 - 1) / 10 + 1) with 1844674407370955162 in Ecut.
          change (2 ^ 64 - 1) with 18446744073709551615. lia. }
        destruct (digits_value rest (n * 10 + v)) as [m|] eqn:Em.
        -- apply digits_value_ge in Em; [|lia].
           destruct (m <=? 2 ^ 64 - 1) eqn:E; [apply Z.leb_le in E; lia|reflexivity].
        -- eexists. eexists. reflexivity.
      * rewrite Z.geb_leb in Ecut. apply Z.leb_gt in Ecut.
        change ((2 ^ 64 - 1) / 10 + 1) with 1844674407370955162 in Ecut.
        change (2 ^ 64 - 1) with 18446744073709551615 in *.
        change (2 ^ 64) with 18446744073709551616.
        rewrite (Z.mod_small (n * 10)) by lia.
        destruct (Z_lt_le_dec (n * 10 + v) 18446744073709551616) as [Hlt|Hge].
        -- rewrite (Z.mod_small (n * 10 + v)) by lia.
           destruct (n * 10 + v <? n * 10) eqn:E1; [apply Z.ltb_lt in E1; lia|].
           destruct (n * 10 + v >? 18446744073709551615) eqn:E2;
             [apply Z.gtb_lt in E2; lia|].
           simpl. apply IH. lia.
        -- assert (Hmod : (n * 10 + v) mod 18446744073709551616
                          = n * 10 + v - 18446744073709551616).
           { symmetry. apply (Z.mod_unique _ _ 1); lia. }
           rewrite Hmod.
           destruct (n * 10 + v - 18446744073709551616 <? n * 10) eqn:E1;
             [|apply Z.ltb_ge in E1; lia].
           simpl.
           destruct (digits_value rest (n * 10 + v)) as [m|] eqn:Em.
           ++ apply digits_value_ge in Em; [|lia].
              destruct (m <=? 18446744073709551615) eqn:E;
                [apply Z.leb_le in E; lia|reflexivity].
           ++ eexists. eexists. reflexivity.
    + destruct (digit_value d) as [v|].
      * destruct (v >=? 10) eqn:E10; [|rewrite Z.geb_leb in E10; apply Z.leb_gt in E10; lia].
        eexists. eexists. reflexivity.
      * eexists. eexists. reflexivity.
Qed.

(** [ParseUint] against the number the string writes. *)
Lemma strconv_ParseUint_spec (s : string) :
  match decimal_number s with
  | Some m =>
      if m <=? maxUint64 then strconv_ParseUint s = (m, None)
      else strconv_ParseUint s = (maxUint64, Some strconv_ErrRange)
  | None => exists k e, strconv_ParseUint s = (k, Some e)
  end.
Proof.
  destruct s as [|d rest].
  - simpl. eexists. eexists. reflexivity.
  - unfold decimal_number, strconv_ParseUint.
    apply ParseUint_loop_spec. unfold maxUint64. simpl. lia.
Qed.

(** ** The requests of the client *)

Lemma offers_query_Add_cursor (cs ls os : list string) (x : string) :
  Values_Add (offers_query cs ls os) "cursor" x = offers_query (cs ++ [x]) ls os.
Proof. destruct cs, ls, os; reflexivity. Qed.

Lemma offers_query_Add_limit (cs ls os : list string) (x : string) :
  Values_Add (offers_query cs ls os) "limit" x = offers_query cs (ls ++ [x]) os.
Proof. destruct cs, ls, os; reflexivity. Qed.

Lemma offers_query_Add_order (cs ls os : list string) (x : string) :
  Values_Add (offers_query cs ls os) "order" x = offers_query cs ls (os ++ [x]).
Proof. destruct cs, ls, os; reflexivity. Qed.

(** The loop of [LoadAccountOffers] over parameters it knows. *)
Lemma offers_params_defined (params : list param) (endpoint : string)
    (cs ls os : list string) :
  forallb defined params = true ->
  offers_params params endpoint (offers_query cs ls os)
  = inl (last_At params endpoint,
         offers_query (cs ++ cursors params) (ls ++ limits params)
           (os ++ orders params)).
Proof.
  revert endpoint cs ls os.
  induction params as [|p rest IH]; intros endpoint cs ls os Hdef.
  - simpl. rewrite !app_nil_r. reflexivity.
  - simpl in Hdef. apply andb_true_iff in Hdef. destruct Hdef as [Hp Hrest].
    destruct p as [s|n|s|s|T v]; simpl in Hp; try discriminate; cbn [offers_params].
    + rewrite IH by assumption. reflexivity.
    + rewrite offers_query_Add_limit, IH by assumption.
      unfold limits. simpl. rewrite <- app_assoc. reflexivity.
    + rewrite offers_query_Add_order, IH by assumption.
      unfold orders. simpl. rewrite <- app_assoc. reflexivity.
    + rewrite offers_query_Add_cursor, IH by assumption.
      unfold cursors. simpl. rewrite <- app_assoc. reflexivity.
Qed.

(** The loop of [LoadAccountOffers] up to a parameter it does not know. *)
Lemma offers_params_undefined (pre post : list param) (T v : string)
    (endpoint : string) (query : Values) :
  forallb defined pre = true ->
  offers_params (pre ++ other T v :: post) endpoint query
  = inr (Undefined_parameter (other T v)).
Proof.
  revert endpoint query. induction pre as [|p rest IH]; intros endpoint query Hdef.
  - reflexivity.
  - simpl in Hdef. apply andb_true_iff in Hdef. destruct Hdef as [Hp Hrest].
    destruct p; simpl in Hp; try discriminate; simpl; now apply IH.
Qed.

Lemma order_book_query_assets (selling buying : GoValue) :
  order_book_query selling buying = assets_query selling buying [].
Proof. reflexivity. Qed.

Lemma assets_query_Add_limit (selling buying : GoValue) (ls : list string)
    (x : string) :
  Values_Add (assets_query selling buying ls) "limit" x
  = assets_query selling buying (ls ++ [x]).
Proof. destruct ls; reflexivity. Qed.

Lemma order_book_params_limits (selling buying : GoValue) (params : list param)
    (ls : list string) :
  forallb is_Limit params = true ->
  order_book_params params (assets_query selling buying ls)
  = inl (assets_query selling buying (ls ++ limits params)).
Proof.
  revert ls. induction params as [|p rest IH]; intros ls Hlim.
  - simpl. rewrite app_nil_r. reflexivity.
  - simpl in Hlim. apply andb_true_iff in Hlim. destruct Hlim as [Hp Hrest].
    destruct p; simpl in Hp; try discriminate. cbn [order_book_params].
    rewrite assets_query_Add_limit, IH by assumption.
    unfold limits. simpl. rewrite <- app_assoc. reflexivity.
Qed.

Lemma order_book_params_undefined (pre post : list param) (p : param)
    (query : Values) :
  forallb is_Limit pre = true ->
  is_Limit p = false ->
  order_book_params (pre ++ p :: post) query = inr (Undefined_parameter p).
Proof.
  revert query. induction pre as [|q rest IH]; intros query Hlim Hp.
  - destruct p; simpl in Hp; try discriminate; reflexivity.
  - simpl in Hlim. apply andb_true_iff in Hlim. destruct Hlim as [Hq Hrest].
    destruct q; simpl in Hq; try discriminate. simpl. now apply IH.
Qed.

Lemma Do_fixURL (c : Client) :
  fixURLOnce_Do fixURL c = mkClient (client_base c) true.
Proof.
  unfold fixURLOnce_Do, client_base, fixURL. destruct c as [u [|]]; reflexivity.
Qed.

Section RequestsProperties.

Variable url_Parse : string -> option error.
Variable http_Response : Type.
Variable HTTP_Get : string -> http_Response + error.
Variable HTTP_PostForm : string -> Values -> http_Response + error.
Variable StatusCode : http_Response -> Z.
Variable decodeResponse : http_Response -> GoType -> GoValue * option error.
Variables Root_type Account OffersPage OrderBookSummary TransactionSuccess : GoType.
Variable xdr_SequenceNumber : Z -> Z.

(** X11: a parameter of a type the function does not know ends the call
    with the error made for it, before any request: in [LoadAccountOffers]
    a value that is no [At], [Limit], [Order] or [Cursor], in
    [LoadOrderBook] a value that is no [Limit].  The parameters behind it are
    not looked at. *)
Theorem undefined_parameter_ends_the_call_before_any_request
    (c : Client) (accountID : string) (selling buying : GoValue)
    (pre post : list param) (p : param) :
  (forallb defined pre = true ->
   defined p = false ->
   LoadAccountOffers url_Parse http_Response HTTP_Get decodeResponse OffersPage
     c accountID (pre ++ p :: post)
   = (mkClient (client_base c) true, [],
      (zero OffersPage, Some (Undefined_parameter p))))
  /\
  (forallb is_Limit pre = true ->
   is_Limit p = false ->
   LoadOrderBook http_Response HTTP_Get decodeResponse OrderBookSummary
     c selling buying (pre ++ p :: post)
   = (mkClient (client_base c) true, [],
      (zero OrderBookSummary, Some (Undefined_parameter p)))).
Proof.
  split; intros Hpre Hp.
  - destruct p as [s|n|s|s|T v]; simpl in Hp; try discriminate.
    unfold LoadAccountOffers. rewrite offers_params_undefined by assumption.
    rewrite Do_fixURL. reflexivity.
  - unfold LoadOrderBook. rewrite order_book_params_undefined by assumption.
    rewrite Do_fixURL. reflexivity.
Qed.

(** X12: when the [At] given last is not empty, [LoadAccountOffers] asks
    that endpoint and nothing else: the account and the parameters of the
    other kinds do not count. *)
Theorem the_last_At_is_the_endpoint
    (c : Client) (accountID accountID' : string) (params : list param) :
  forallb defined params = true ->
  last_At params EmptyString <> EmptyString ->
  LoadAccountOffers url_Parse http_Response HTTP_Get decodeResponse OffersPage
    c accountID params
  = LoadAccountOffers url_Parse http_Response HTTP_Get decodeResponse OffersPage
      c accountID' [At (last_At params EmptyString)]
  /\
  forall target,
    In target
      (snd (fst (LoadAccountOffers url_Parse http_Response HTTP_Get decodeResponse
                   OffersPage c accountID params))) ->
    target = last_At params EmptyString.
Proof.
  intros Hdef Hat.
  assert (Hq : offers_params params EmptyString []
               = inl (last_At params EmptyString,
                      offers_query (cursors params) (limits params) (orders params))).
  { apply (offers_params_defined params EmptyString [] [] []). exact Hdef. }
  unfold LoadAccountOffers. rewrite Hq. cbn [offers_params].
  apply String.eqb_neq in Hat. rewrite Hat. split; [reflexivity|].
  intros target Hin.
  destruct (url_Parse (last_At params EmptyString)); [destruct Hin|].
  destruct (HTTP_Get (last_At params EmptyString));
    simpl in Hin; destruct Hin as [Hin|[]]; now symmetry.
Qed.

(** X13: without an [At], or when the [At] given last is empty,
    [LoadAccountOffers] asks for the offers of the account under the base of
    the client, with the cursors, then the limits, then the orders, each kind
    in the order given; it sends this one request if [url.Parse] takes the
    target, and none otherwise. *)
Theorem offers_are_asked_with_the_parameters_by_kind
    (c : Client) (accountID : string) (params : list param) :
  forallb defined params = true ->
  last_At params EmptyString = EmptyString ->
  let target :=
    String.append (client_base c)
      (String.append "/accounts/"
         (String.append accountID
            (String.append "/offers?"
               (Values_Encode
                  (key_values "cursor" (cursors params)
                   ++ key_values "limit" (limits params)
                   ++ key_values "order" (orders params)))))) in
  let r := LoadAccountOffers url_Parse http_Response HTTP_Get decodeResponse
             OffersPage c accountID params in
  (url_Parse target = None -> snd (fst r) = [target]) /\
  (forall err, url_Parse target = Some err ->
     r = (mkClient (client_base c) true, [],
          (zero OffersPage, Some (withMessage err "failed to parse endpoint")))).
Proof.
  intros Hdef Hat target r.
  assert (Hq : offers_params params EmptyString []
               = inl (last_At params EmptyString,
                      offers_query (cursors params) (limits params) (orders params))).
  { apply (offers_params_defined params EmptyString [] [] []). exact Hdef. }
  unfold r, LoadAccountOffers. rewrite Hq, Hat, Do_fixURL.
  cbn [String.eqb Client_URL]. fold (offers_query (cursors params) (limits params) (orders params)) in target.
  fold target. split.
  - intros Hok. rewrite Hok. destruct (HTTP_Get target); reflexivity.
  - intros err Herr. rewrite Herr. reflexivity.
Qed.

(** X14: [LoadOrderBook] with limits only sends one request, for the order
    book under the base of the client, with the code, the issuer and the
    type of the asset bought, then the limits in the order given, then the
    code, the issuer and the type of the asset sold. *)
Theorem order_book_is_asked_with_both_assets
    (c : Client) (selling buying : GoValue) (params : list param) :
  forallb is_Limit params = true ->
  snd (fst (LoadOrderBook http_Response HTTP_Get decodeResponse OrderBookSummary
              c selling buying params))
  = [ String.append (client_base c)
        (String.append "/order_book?"
           (Values_Encode
              ([ ("buying_asset_code", [string_field buying "Code"]);
                 ("buying_asset_issuer", [string_field buying "Issuer"]);
                 ("buying_asset_type", [string_field buying "Type"]) ]
               ++ key_values "limit" (limits params)
               ++ [ ("selling_asset_code", [string_field selling "Code"]);
                    ("selling_asset_issuer", [string_field selling "Issuer"]);
                    ("selling_asset_type", [string_field selling "Type"]) ]))) ].
Proof.
  intros Hlim. unfold LoadOrderBook.
  rewrite order_book_query_assets, order_book_params_limits by assumption.
  rewrite Do_fixURL. cbn [Client_URL app].
  destruct (HTTP_Get _); reflexivity.
Qed.

(** X15: when the account is loaded, [SequenceForAccount] returns the number
    that the field [Sequence] writes in decimal digits, converted, if it is
    below 2^64; zero and a range error if it is not below 2^64; and zero and
    an error if the field is empty or holds a byte that is no decimal digit.
    It sends no request of its own. *)
Theorem sequence_is_the_decimal_number_of_the_account
    (c c' : Client) (accountID : string) (sent : list string) (a : GoValue) :
  LoadAccount http_Response HTTP_Get decodeResponse Account c accountID
  = (c', sent, (a, None)) ->
  let r := SequenceForAccount http_Response HTTP_Get decodeResponse Account
             xdr_SequenceNumber c accountID in
  match decimal_number (string_field a "Sequence") with
  | Some n =>
      if n <? 2 ^ 64
      then r = (c', sent, (xdr_SequenceNumber n, None))
      else r = (c', sent,
                (0, Some (withMessage strconv_ErrRange "parse sequence failed")))
  | None =>
      exists err,
        r = (c', sent, (0, Some (withMessage err "parse sequence failed")))
  end.
Proof.
  intros Hload r. unfold r, SequenceForAccount. rewrite Hload.
  pose proof (strconv_ParseUint_spec (string_field a "Sequence")) as Hspec.
  destruct (decimal_number (string_field a "Sequence")) as [n|].
  - replace (n <? 2 ^ 64) with (n <=? maxUint64).
    + destruct (n <=? maxUint64); rewrite Hspec; reflexivity.
    + unfold maxUint64. destruct (n <? 2 ^ 64) eqn:E.
      * apply Z.ltb_lt in E. apply Z.leb_le. lia.
      * apply Z.ltb_ge in E. apply Z.leb_gt. lia.
  - destruct Hspec as [k [e He]]. rewrite He. exists e. reflexivity.
Qed.

(** X16: [SubmitTransaction] returns without an error only when the
    transport answered the POST to [/transactions] under the base of the
    client, whose form holds the envelope under [tx] and nothing else, with a
    response of status 200 that [decodeResponse] took without an error; the
    value returned is the one decoded. *)
Theorem submission_succeeds_only_with_status_200
    (c c' : Client) (envelope : string) (sent : list string) (response : GoValue) :
  SubmitTransaction http_Response HTTP_PostForm StatusCode decodeResponse
    TransactionSuccess c envelope = (c', sent, (response, None)) ->
  exists resp,
    HTTP_PostForm (String.append (client_base c) "/transactions")
      [("tx", [envelope])] = inl resp /\
    StatusCode resp = 200 /\
    decodeResponse resp TransactionSuccess = (response, None).
Proof.
  unfold SubmitTransaction. rewrite Do_fixURL. cbn [Client_URL Values_Set].
  destruct (HTTP_PostForm _ _) as [resp|err]; [|discriminate].
  destruct (decodeResponse resp TransactionSuccess) as [v [err|]] eqn:Hdec;
    [discriminate|].
  destruct (StatusCode resp =? 200) eqn:Hs; [|discriminate].
  intros H. inversion H; subst. exists resp.
  split; [reflexivity|]. split; [now apply Z.eqb_eq|exact Hdec].
Qed.

(** X17: the functions that load one resource send one request, whatever
    comes of it, to a target under the base of the client: the base itself
    for [Root], the account for [LoadAccount], [HomeDomainForAccount] and
    [SequenceForAccount], with the identifier as it is given; they leave the
    client with its URL fixed once, so that a call on the client that another
    call has left goes to the same base. *)
Theorem loads_send_one_request_under_the_base (c : Client) (accountID : string) :
  fst (Root http_Response HTTP_Get decodeResponse Root_type c)
  = (mkClient (client_base c) true, [client_base c])
  /\
  fst (LoadAccount http_Response HTTP_Get decodeResponse Account c accountID)
  = (mkClient (client_base c) true,
     [String.append (client_base c) (String.append "/accounts/" accountID)])
  /\
  fst (HomeDomainForAccount http_Response HTTP_Get decodeResponse Account
         c accountID)
  = fst (LoadAccount http_Response HTTP_Get decodeResponse Account c accountID)
  /\
  fst (SequenceForAccount http_Response HTTP_Get decodeResponse Account
         xdr_SequenceNumber c accountID)
  = fst (LoadAccount http_Response HTTP_Get decodeResponse Account c accountID)
  /\
  fst (LoadAccount http_Response HTTP_Get decodeResponse Account
         (fst (fst (Root http_Response HTTP_Get decodeResponse Root_type c)))
         accountID)
  = fst (LoadAccount http_Response HTTP_Get decodeResponse Account c accountID).
Proof.
  assert (HRoot : fst (Root http_Response HTTP_Get decodeResponse Root_type c)
                  = (mkClient (client_base c) true, [client_base c])).
  { unfold Root. rewrite Do_fixURL. cbn [Client_URL].
    destruct (HTTP_Get _); reflexivity. }
  split; [exact HRoot|]. split; [|split; [|split]]; [| | |rewrite HRoot].
  - unfold LoadAccount. rewrite Do_fixURL. cbn [Client_URL].
    destruct (HTTP_Get _); reflexivity.
  - unfold HomeDomainForAccount.
    destruct (LoadAccount _ _ _ _ _ _) as [[c1 sent] [a [err|]]]; reflexivity.
  - unfold SequenceForAccount.
    destruct (LoadAccount _ _ _ _ _ _) as [[c1 sent] [a [err|]]]; [reflexivity|].
    destruct (strconv_ParseUint _) as [seq [err|]]; reflexivity.
  - unfold LoadAccount. rewrite !Do_fixURL. cbn [fst Client_URL client_base fixURLOnce].
    destruct (HTTP_Get _); reflexivity.
Qed.

End RequestsProperties.

(** ** The resources of the server *)

Lemma strings_Split_not_nil (s : string) (sep : ascii) : strings_Split s sep <> [].
Proof.
  destruct s as [|c rest]; simpl; [discriminate|].
  destruct (Ascii.eqb c sep); [discriminate|].
  destruct (strings_Split rest sep); discriminate.
Qed.

Lemma strings_Split_length (s : string) (sep : ascii) :
  List.length (strings_Split s sep) = S (count_byte s sep).
Proof.
  induction s as [|c rest IH]; simpl; [reflexivity|].
  destruct (Ascii.eqb c sep); simpl; [now rewrite IH|].
  destruct (strings_Split rest sep); simpl in *; [discriminate IH|exact IH].
Qed.

Lemma concat_cons (sep x : string) (l : list string) :
  l <> [] ->
  String.concat sep (x :: l) = String.append x (String.append sep (String.concat sep l)).
Proof. destruct l; [contradiction|reflexivity]. Qed.

Lemma strings_Split_concat (s : string) (sep : ascii) :
  String.concat (String sep EmptyString) (strings_Split s sep) = s.
Proof.
  induction s as [|c rest IH]; [reflexivity|].
  pose proof (strings_Split_not_nil rest sep) as Hne.
  cbn [strings_Split]. destruct (Ascii.eqb c sep) eqn:E.
  - apply Ascii.eqb_eq in E. subst c.
    rewrite concat_cons by assumption. rewrite IH. reflexivity.
  - destruct (strings_Split rest sep) as [|part parts]; [contradiction|].
    destruct parts as [|part' parts].
    + simpl in *. now rewrite IH.
    + rewrite concat_cons by discriminate.
      rewrite concat_cons in IH by discriminate.
      simpl. simpl in IH. now rewrite IH.
Qed.

Lemma strings_Split_parts (s : string) (sep : ascii) :
  Forall (fun part => count_byte part sep = O) (strings_Split s sep).
Proof.
  induction s as [|c rest IH]; simpl; [repeat constructor|].
  destruct (Ascii.eqb c sep) eqn:E; [constructor; [reflexivity|exact IH]|].
  destruct (strings_Split rest sep) as [|part parts]; [repeat constructor; simpl; now rewrite E|].
  inversion IH as [|x l Hpart Hparts]; subst.
  constructor; [simpl; now rewrite E|exact Hparts].
Qed.

Section ResourceProperties.

Variable Time : Type.
Variable hal_Link : Type.
Variable lb_Link : list string -> hal_Link.
Variable lb_PagedLink : list string -> hal_Link.
Variable lb_Linkf : string -> string -> hal_Link.
Variable time_Format : Z -> string.

(** X18: [Populate] returns no error, and the signatures of the transaction
    it fills are the parts of the row's signature string between its commas:
    joined with commas they give the string back, none of them holds a comma,
    and there is one more of them than there are commas, so that a row with
    an empty signature string gives one signature, which is empty, and not
    none. *)
Theorem signatures_are_the_parts_between_the_commas
    (row : history.Transaction Time) :
  let r := resource.Populate Time hal_Link lb_Link lb_PagedLink lb_Linkf
             time_Format row in
  let signatures := resource.Signatures Time hal_Link (fst r) in
  snd r = None /\
  String.concat "," signatures = history.SignatureString Time row /\
  Forall (fun signature => count_byte signature ","%char = O) signatures /\
  List.length signatures = S (count_byte (history.SignatureString Time row) ","%char) /\
  (history.SignatureString Time row = EmptyString -> signatures = [EmptyString]).
Proof.
  cbn. split; [reflexivity|]. split; [apply strings_Split_concat|].
  split; [apply strings_Split_parts|]. split; [apply strings_Split_length|].
  intros ->. reflexivity.
Qed.

End ResourceProperties.

Section UnknownType.

Variable Link : GoType.
Variable json_syntax : string -> option json.
Variable TypeNames : Z -> option string.

(** X19: the server and the client do not agree on a type without a name:
    [populateType] gives a row whose type is not in [TypeNames] the type
    "unknown", and [UnmarshalEffect] has no case for a payload of that type:
    it returns nil and an "unknown effect type" error. *)
Theorem unnamed_type_of_the_server_is_refused_by_the_client
    (row_Type : Z) (data : string) (discriminator : GoValue) :
  TypeNames row_Type = None ->
  json_Unmarshal json_syntax data (TStruct [ field "Type" "type" TString ])
    = (discriminator, None) ->
  string_field discriminator "Type" = snd (populateType TypeNames row_Type) ->
  UnmarshalEffect Link json_syntax data
  = (None, Some (errors_Errorf "unknown effect type %d" (VString "unknown"))).
Proof.
  intros Hnone Hd Hty. unfold populateType in Hty. rewrite Hnone in Hty.
  simpl in Hty. unfold UnmarshalEffect. rewrite Hd, Hty. reflexivity.
Qed.

End UnknownType.

(** ** The extra properties, run on payloads and scripts *)

Lemma document_scanned (data : string) (doc : json) :
  json_scan Concrete.json_syntax data = Some doc ->
  json_scan Concrete.json_syntax data = Some (Samples.document data).
Proof. intros H. unfold Samples.document. rewrite H. reflexivity. Qed.

(** The theorem for X1 at the seller of a trade effect and at the
    receiver of a payment operation. *)
Lemma string_fields_witness :
  string_field (effect_value Samples.trade) "Seller" = "GDEF" /\
  string_field (operation_value Samples.payment) "To" = "GDEF".
Proof.
  split.
  - apply (proj1 (string_fields_hold_the_payload
                    Concrete.Link Concrete.Asset Concrete.Price Concrete.time_Parse
                    Concrete.xdr Concrete.json_syntax Concrete.trade_effect
                    (Samples.document Concrete.trade_effect)
                    ltac:(vm_compute; reflexivity))
             Samples.trade (field "Seller" "seller" TString)).
    + vm_compute. reflexivity.
    + apply in_or_app. right. left. reflexivity.
    + reflexivity.
  - apply (proj2 (string_fields_hold_the_payload
                    Concrete.Link Concrete.Asset Concrete.Price Concrete.time_Parse
                    Concrete.xdr Concrete.json_syntax Concrete.payment_operation
                    (Samples.document Concrete.payment_operation)
                    ltac:(vm_compute; reflexivity))
             Samples.payment (field "To" "to" TString)).
    + vm_compute. reflexivity.
    + apply in_or_app. right. do 4 right. left. reflexivity.
    + reflexivity.
Defined.

(** The theorem for X2 at the offer of a trade effect and at the number of
    the type of a payment operation. *)
Lemma int_fields_witness :
  int_field (effect_value Samples.trade) "OfferID" = 8 /\
  int_field (operation_value Samples.payment) "TypeI" = 1.
Proof.
  split.
  - apply (proj1 (int_fields_hold_the_payload
                    Concrete.Link Concrete.Asset Concrete.Price Concrete.time_Parse
                    Concrete.xdr Concrete.json_syntax Concrete.trade_effect
                    (Samples.document Concrete.trade_effect)
                    ltac:(vm_compute; reflexivity))
             Samples.trade (field "OfferID" "offer_id" int64) 64).
    + vm_compute. reflexivity.
    + apply in_or_app. right. right. left. reflexivity.
    + reflexivity.
  - apply (proj2 (int_fields_hold_the_payload
                    Concrete.Link Concrete.Asset Concrete.Price Concrete.time_Parse
                    Concrete.xdr Concrete.json_syntax Concrete.payment_operation
                    (Samples.document Concrete.payment_operation)
                    ltac:(vm_compute; reflexivity))
             Samples.payment (field "TypeI" "type_i" int32) 32).
    + vm_compute. reflexivity.
    + apply in_or_app. left. do 5 right. left. reflexivity.
    + reflexivity.
Defined.

(** The theorem for X3 at the same two records. *)
Lemma struct_agrees_witness :
  switch String.eqb (EffectType Samples.trade) UnmarshalEffect_cases
  = Some (effect_struct Samples.trade)
  /\
  switch Z.eqb (int_field (operation_value Samples.payment) "TypeI")
    (UnmarshalOperation_cases Concrete.xdr)
  = Some (operation_struct Samples.payment).
Proof.
  split.
  - apply (proj1 (struct_agrees_with_the_discriminator_field
                    Concrete.Link Concrete.Asset Concrete.Price Concrete.time_Parse
                    Concrete.xdr Concrete.json_syntax Concrete.trade_effect)
             Samples.trade).
    vm_compute. reflexivity.
  - apply (proj2 (struct_agrees_with_the_discriminator_field
                    Concrete.Link Concrete.Asset Concrete.Price Concrete.time_Parse
                    Concrete.xdr Concrete.json_syntax Concrete.payment_operation)
             Samples.payment).
    vm_compute. reflexivity.
Defined.

(** The theorem for X4 at the effect that is returned for a payload of the
    type "account_thresholds_updated". *)
Lemma no_AccountThresholdsUpdatedEffect_witness :
  effect_struct Samples.thresholds <> AccountThresholdsUpdatedEffect.
Proof.
  apply (no_effect_is_an_AccountThresholdsUpdatedEffect
           Concrete.Link Concrete.json_syntax
           Concrete.account_thresholds_updated_effect Samples.thresholds None).
  vm_compute. reflexivity.
Defined.

(** The theorem for X5 at a record with an identifier and a position
    only: no effect, and a [CreateAccountOperation]. *)
Lemma missing_discriminator_witness :
  UnmarshalEffect Concrete.Link Concrete.json_syntax Samples.untyped_record
  = (None, Some (errors_Errorf "unknown effect type %d" (VString EmptyString)))
  /\
  option_map operation_struct
    (fst (UnmarshalOperation Concrete.Link Concrete.Asset Concrete.Price
            Concrete.time_Parse Concrete.xdr Concrete.json_syntax
            Samples.untyped_record))
  = Some CreateAccountOperation.
Proof.
  assert (Hdoc : Samples.document Samples.untyped_record = JNull \/
                 exists ms, Samples.document Samples.untyped_record = JObject ms).
  { right. eexists. vm_compute. reflexivity. }
  split.
  - apply (proj1 (missing_discriminator_reads_as_zero
                    Concrete.Link Concrete.Asset Concrete.Price Concrete.time_Parse
                    Concrete.xdr Concrete.json_syntax Samples.untyped_record
                    (Samples.document Samples.untyped_record)
                    ltac:(vm_compute; reflexivity) Hdoc)).
    vm_compute. reflexivity.
  - apply (proj2 (missing_discriminator_reads_as_zero
                    Concrete.Link Concrete.Asset Concrete.Price Concrete.time_Parse
                    Concrete.xdr Concrete.json_syntax Samples.untyped_record
                    (Samples.document Samples.untyped_record)
                    ltac:(vm_compute; reflexivity) Hdoc)).
    vm_compute. reflexivity.
Defined.

(** The theorem for X8 at a body with a trade effect, an effect of the
    type "sequence_bumped" and a third effect, and at the like for
    operations: the run ends at the second record. *)
Lemma refused_record_witness :
  (Some (withMessage Samples.unknown_effect_type "error unmarshaling data")
   = Some (withMessage Samples.unknown_effect_type "error unmarshaling data") /\
   @nil step = [] /\
   Returned (Some (withMessage Samples.unknown_effect_type "error unmarshaling data"))
   = Returned (Some (withMessage Samples.unknown_effect_type
                       "error unmarshaling data")) /\
   EffectHandler_calls Concrete.json_syntax Concrete.Link
     (Samples.effects_taken
        ++ [ Handled Concrete.sequence_bumped_effect
               (Some (withMessage Samples.unknown_effect_type
                        "error unmarshaling data")) ])
   = EffectHandler_calls Concrete.json_syntax Concrete.Link Samples.effects_taken)
  /\
  (Some (withMessage Samples.unknown_operation_type "error unmarshaling data")
   = Some (withMessage Samples.unknown_operation_type "error unmarshaling data") /\
   @nil step = [] /\
   Returned (Some (withMessage Samples.unknown_operation_type
                     "error unmarshaling data"))
   = Returned (Some (withMessage Samples.unknown_operation_type
                       "error unmarshaling data")) /\
   OperationHandler_calls Concrete.json_syntax Concrete.Link Concrete.Asset
     Concrete.Price Concrete.time_Parse Concrete.xdr
     (Samples.operations_taken
        ++ [ Handled Concrete.bump_sequence_operation
               (Some (withMessage Samples.unknown_operation_type
                        "error unmarshaling data")) ])
   = OperationHandler_calls Concrete.json_syntax Concrete.Link Concrete.Asset
       Concrete.Price Concrete.time_Parse Concrete.xdr Samples.operations_taken).
Proof.
  split.
  - apply (proj1 (refused_record_ends_the_stream
                    Concrete.url_Parse Concrete.parseEvent Concrete.json_syntax
                    Concrete.never_done Concrete.Link Concrete.Asset Concrete.Price
                    Concrete.time_Parse Concrete.xdr
                    Samples.client Samples.refused_second None
                    (mkClient "https://horizon.example" true)
                    (Samples.effects_taken
                       ++ [ Handled Concrete.sequence_bumped_effect
                              (Some (withMessage Samples.unknown_effect_type
                                       "error unmarshaling data")) ])
                    (Returned (Some (withMessage Samples.unknown_effect_type
                                       "error unmarshaling data")))
                    Samples.effects_taken []
                    Concrete.sequence_bumped_effect
                    (Some (withMessage Samples.unknown_effect_type
                             "error unmarshaling data"))
                    Samples.unknown_effect_type eq_refl)).
    + vm_compute. reflexivity.
    + vm_compute. reflexivity.
  - apply (proj2 (refused_record_ends_the_stream
                    Concrete.url_Parse Concrete.parseEvent Concrete.json_syntax
                    Concrete.never_done Concrete.Link Concrete.Asset Concrete.Price
                    Concrete.time_Parse Concrete.xdr
                    Samples.client Samples.refused_second_operation None
                    (mkClient "https://horizon.example" true)
                    (Samples.operations_taken
                       ++ [ Handled Concrete.bump_sequence_operation
                              (Some (withMessage Samples.unknown_operation_type
                                       "error unmarshaling data")) ])
                    (Returned (Some (withMessage Samples.unknown_operation_type
                                       "error unmarshaling data")))
                    Samples.operations_taken []
                    Concrete.bump_sequence_operation
                    (Some (withMessage Samples.unknown_operation_type
                             "error unmarshaling data"))
                    Samples.unknown_operation_type eq_refl)).
    + vm_compute. reflexivity.
    + vm_compute. reflexivity.
Defined.

(** The theorem for X9 at the same two runs. *)
Lemma well_typed_records_witness :
  (forall x,
     In x (EffectHandler_calls Concrete.json_syntax Concrete.Link
             (Samples.effects_taken
                ++ [ Handled Concrete.sequence_bumped_effect
                       (Some (withMessage Samples.unknown_effect_type
                                "error unmarshaling data")) ])) ->
     exists e, x = Some e /\
               switch String.eqb (EffectType e) UnmarshalEffect_cases
               = Some (effect_struct e))
  /\
  (forall x,
     In x (OperationHandler_calls Concrete.json_syntax Concrete.Link Concrete.Asset
             Concrete.Price Concrete.time_Parse Concrete.xdr
             (Samples.operations_taken
                ++ [ Handled Concrete.bump_sequence_operation
                       (Some (withMessage Samples.unknown_operation_type
                                "error unmarshaling data")) ])) ->
     exists o, x = Some o /\
               switch Z.eqb (int_field (operation_value o) "TypeI")
                 (UnmarshalOperation_cases Concrete.xdr)
               = Some (operation_struct o)).
Proof.
  split.
  - apply (proj1 (handlers_get_well_typed_records
                    Concrete.url_Parse Concrete.parseEvent Concrete.json_syntax
                    Concrete.never_done Concrete.Link Concrete.Asset Concrete.Price
                    Concrete.time_Parse Concrete.xdr
                    Samples.client Samples.refused_second None
                    (mkClient "https://horizon.example" true)
                    (Samples.effects_taken
                       ++ [ Handled Concrete.sequence_bumped_effect
                              (Some (withMessage Samples.unknown_effect_type
                                       "error unmarshaling data")) ])
                    (Returned (Some (withMessage Samples.unknown_effect_type
                                       "error unmarshaling data"))))).
    vm_compute. reflexivity.
  - apply (proj2 (handlers_get_well_typed_records
                    Concrete.url_Parse Concrete.parseEvent Concrete.json_syntax
                    Concrete.never_done Concrete.Link Concrete.Asset Concrete.Price
                    Concrete.time_Parse Concrete.xdr
                    Samples.client Samples.refused_second_operation None
                    (mkClient "https://horizon.example" true)
                    (Samples.operations_taken
                       ++ [ Handled Concrete.bump_sequence_operation
                              (Some (withMessage Samples.unknown_operation_type
                                       "error unmarshaling data")) ])
                    (Returned (Some (withMessage Samples.unknown_operation_type
                                       "error unmarshaling data"))))).
    vm_compute. reflexivity.
Defined.

(** The theorem for X10 at a run that loses its connection after a trade
    effect, and at one that loses it after a payment operation: the second
    request asks for the position of that record. *)
Lemma resume_at_the_last_record_witness :
  (exists e,
     last (EffectHandler_calls Concrete.json_syntax Concrete.Link
             Samples.effects_first_connection) None = Some e /\
     string_field (effect_value e) "PT" <> EmptyString /\
     URL (Concrete.request "https://horizon.example/effects?cursor=12884905987-1")
     = cursor_URL (String.append (client_base Samples.client) "/effects")
         (string_field (effect_value e) "PT"))
  /\
  (exists o,
     last (OperationHandler_calls Concrete.json_syntax Concrete.Link Concrete.Asset
             Concrete.Price Concrete.time_Parse Concrete.xdr
             Samples.operations_first_connection) None = Some o /\
     string_field (operation_value o) "PT" <> EmptyString /\
     URL (Concrete.request "https://horizon.example/operations?cursor=12884905988")
     = cursor_URL (String.append (client_base Samples.client) "/operations")
         (string_field (operation_value o) "PT")).
Proof.
  split.
  - apply (proj1 (streams_resume_at_the_last_record_handed
                    Concrete.url_Parse Concrete.parseEvent Concrete.json_syntax
                    Concrete.never_done Concrete.Link Concrete.Asset Concrete.Price
                    Concrete.time_Parse Concrete.xdr
                    Samples.client Samples.lost_after_trade None
                    (mkClient "https://horizon.example" true)
                    (Samples.effects_first_connection
                       ++ [ Sent (Concrete.request
                                    "https://horizon.example/effects?cursor=12884905987-1") ])
                    Samples.empty_body
                    Samples.effects_first_connection []
                    (Concrete.request
                       "https://horizon.example/effects?cursor=12884905987-1")
                    eq_refl ltac:(discriminate))).
    vm_compute. reflexivity.
  - apply (proj2 (streams_resume_at_the_last_record_handed
                    Concrete.url_Parse Concrete.parseEvent Concrete.json_syntax
                    Concrete.never_done Concrete.Link Concrete.Asset Concrete.Price
                    Concrete.time_Parse Concrete.xdr
                    Samples.client Samples.lost_after_payment None
                    (mkClient "https://horizon.example" true)
                    (Samples.operations_first_connection
                       ++ [ Sent (Concrete.request
                                    "https://horizon.example/operations?cursor=12884905988") ])
                    Samples.empty_body
                    Samples.operations_first_connection []
                    (Concrete.request
                       "https://horizon.example/operations?cursor=12884905988")
                    eq_refl ltac:(discriminate))).
    vm_compute. reflexivity.
Defined.

(** ** The requests, run on a transport *)

(** The theorem for X11 at a call of [LoadAccountOffers] with a limit, an
    [int] and an order, and at a call of [LoadOrderBook] with a limit and an
    order. *)
Lemma undefined_parameter_witness :
  LoadAccountOffers Concrete.url_Parse Samples.http_Response Samples.HTTP_Get
    Samples.decodeResponse Samples.OffersPage Samples.client "GABC"
    ([Limit 5] ++ other "int" "7" :: [Order "asc"])
  = (mkClient (client_base Samples.client) true, [],
     (zero Samples.OffersPage, Some (Undefined_parameter (other "int" "7"))))
  /\
  LoadOrderBook Samples.http_Response Samples.HTTP_Get Samples.decodeResponse
    Samples.OrderBookSummary Samples.client Samples.native Samples.usd
    ([Limit 5] ++ Order "asc" :: [])
  = (mkClient (client_base Samples.client) true, [],
     (zero Samples.OrderBookSummary, Some (Undefined_parameter (Order "asc")))).
Proof.
  split.
  - apply (proj1 (undefined_parameter_ends_the_call_before_any_request
                    Concrete.url_Parse Samples.http_Response Samples.HTTP_Get
                    Samples.decodeResponse Samples.OffersPage
                    Samples.OrderBookSummary Samples.client "GABC"
                    Samples.native Samples.usd
                    [Limit 5] [Order "asc"] (other "int" "7"))); reflexivity.
  - apply (proj2 (undefined_parameter_ends_the_call_before_any_request
                    Concrete.url_Parse Samples.http_Response Samples.HTTP_Get
                    Samples.decodeResponse Samples.OffersPage
                    Samples.OrderBookSummary Samples.client "GABC"
                    Samples.native Samples.usd
                    [Limit 5] [] (Order "asc"))); reflexivity.
Defined.

(** The theorem for X12 at a call with a limit, an [At] and an order. *)
Lemma the_last_At_witness :
  LoadAccountOffers Concrete.url_Parse Samples.http_Response Samples.HTTP_Get
    Samples.decodeResponse Samples.OffersPage Samples.client "GABC"
    [ Limit 5; At "https://horizon.example/accounts/GDEF/offers?cursor=9";
      Order "desc" ]
  = LoadAccountOffers Concrete.url_Parse Samples.http_Response Samples.HTTP_Get
      Samples.decodeResponse Samples.OffersPage Samples.client "GDEF"
      [ At (last_At
              [ Limit 5; At "https://horizon.example/accounts/GDEF/offers?cursor=9";
                Order "desc" ] EmptyString) ]
  /\
  forall target,
    In target
      (snd (fst (LoadAccountOffers Concrete.url_Parse Samples.http_Response
                   Samples.HTTP_Get Samples.decodeResponse Samples.OffersPage
                   Samples.client "GABC"
                   [ Limit 5;
                     At "https://horizon.example/accounts/GDEF/offers?cursor=9";
                     Order "desc" ]))) ->
    target = last_At
               [ Limit 5; At "https://horizon.example/accounts/GDEF/offers?cursor=9";
                 Order "desc" ] EmptyString.
Proof.
  apply (the_last_At_is_the_endpoint
           Concrete.url_Parse Samples.http_Response Samples.HTTP_Get
           Samples.decodeResponse Samples.OffersPage Samples.client "GABC" "GDEF"
           [ Limit 5; At "https://horizon.example/accounts/GDEF/offers?cursor=9";
             Order "desc" ]).
  - reflexivity.
  - discriminate.
Defined.

(** The theorem for X13 at a call with an order, a limit, a cursor, an
    empty [At] and one more limit. *)
Lemma offers_by_kind_witness :
  snd (fst (LoadAccountOffers Concrete.url_Parse Samples.http_Response
              Samples.HTTP_Get Samples.decodeResponse Samples.OffersPage
              Samples.client "GABC"
              [ Order "desc"; Limit 5; Cursor "9/1"; At EmptyString; Limit 6 ]))
  = [ "https://horizon.example/accounts/GABC/offers?cursor=9%2F1&limit=5&limit=6&order=desc" ].
Proof.
  apply (proj1 (offers_are_asked_with_the_parameters_by_kind
                  Concrete.url_Parse Samples.http_Response Samples.HTTP_Get
                  Samples.decodeResponse Samples.OffersPage Samples.client "GABC"
                  [ Order "desc"; Limit 5; Cursor "9/1"; At EmptyString; Limit 6 ]
                  eq_refl eq_refl)).
  vm_compute. reflexivity.
Defined.

(** The theorem for X14 at a call with two limits. *)
Lemma order_book_witness :
  snd (fst (LoadOrderBook Samples.http_Response Samples.HTTP_Get
              Samples.decodeResponse Samples.OrderBookSummary Samples.client
              Samples.native Samples.usd [Limit 5; Limit 6]))
  = [ "https://horizon.example/order_book?buying_asset_code=USD&buying_asset_issuer=GXYZ&buying_asset_type=credit_alphanum4&limit=5&limit=6&selling_asset_code=&selling_asset_issuer=&selling_asset_type=native" ].
Proof.
  apply (order_book_is_asked_with_both_assets
           Samples.http_Response Samples.HTTP_Get Samples.decodeResponse
           Samples.OrderBookSummary Samples.client Samples.native Samples.usd
           [Limit 5; Limit 6] eq_refl).
Defined.

(** The theorem for X15 at an account whose sequence is 12884901889. *)
Lemma sequence_witness :
  SequenceForAccount Samples.http_Response Samples.HTTP_Get Samples.decodeResponse
    Samples.Account Samples.xdr_SequenceNumber Samples.client "GABC"
  = (mkClient "https://horizon.example" true,
     ["https://horizon.example/accounts/GABC"],
     (Samples.xdr_SequenceNumber 12884901889, None)).
Proof.
  apply (sequence_is_the_decimal_number_of_the_account
           Samples.http_Response Samples.HTTP_Get Samples.decodeResponse
           Samples.Account Samples.xdr_SequenceNumber Samples.client
           (mkClient "https://horizon.example" true) "GABC"
           ["https://horizon.example/accounts/GABC"]
           (VStruct [ ("ID", VString "GABC"); ("Sequence", VString "12884901889");
                      ("HomeDomain", VString "example.org") ])).
  vm_compute. reflexivity.
Defined.

(** The theorem for X16 at a submission that the transport answers with
    status 200 and an empty object. *)
Lemma submission_witness :
  exists resp,
    Samples.HTTP_PostForm
      (String.append (client_base Samples.client) "/transactions")
      [("tx", ["AAAA"])] = inl resp /\
    Samples.StatusCode resp = 200 /\
    Samples.decodeResponse resp Samples.TransactionSuccess = (VStruct [], None).
Proof.
  apply (submission_succeeds_only_with_status_200
           Samples.http_Response Samples.HTTP_PostForm Samples.StatusCode
           Samples.decodeResponse Samples.TransactionSuccess Samples.client
           (mkClient "https://horizon.example" true) "AAAA"
           ["https://horizon.example/transactions"] (VStruct [])).
  vm_compute. reflexivity.
Defined.

(** The theorem for X18 at a row without signatures. *)
Lemma signatures_witness :
  resource.Signatures unit string
    (fst (resource.Populate unit string Samples.lb_Link Samples.lb_Link
            Samples.lb_Linkf strconv_Itoa Samples.unsigned_row))
  = [EmptyString].
Proof.
  apply (proj2 (proj2 (proj2 (proj2
           (signatures_are_the_parts_between_the_commas
              unit string Samples.lb_Link Samples.lb_Link Samples.lb_Linkf
              strconv_Itoa Samples.unsigned_row))))).
  reflexivity.
Defined.

(** The theorem for X19 at an effect of a server that has no names. *)
Lemma unnamed_type_witness :
  UnmarshalEffect Concrete.Link Concrete.json_syntax Samples.unknown_effect
  = (None, Some (errors_Errorf "unknown effect type %d" (VString "unknown"))).
Proof.
  apply (unnamed_type_of_the_server_is_refused_by_the_client
           Concrete.Link Concrete.json_syntax Samples.no_names 99
           Samples.unknown_effect (VStruct [("Type", VString "unknown")])).
  - reflexivity.
  - vm_compute. reflexivity.
  - reflexivity.
Defined.
